(** * SQL cost optimisation scanner: detector engine and fixer

    A shallow embedding of [script/sql_cost_optimizer.py] (class
    [SQLCostOptimizer]) and [script/optimizer_2.py] (class [SqlOptimizer]),
    with the properties of the detector engine and of the fixer stated over
    that embedding.

    Text is a list of 8-bit characters.  Character classes follow Python's
    classification of the ASCII range; a character above 127 is neither
    whitespace, nor a word character, nor a cased letter.  Files are read in
    text mode, so the embedding of a read applies the universal-newline
    translation. *)

From Stdlib Require Import ZArith Ascii String List Bool Lia.
From stdpp Require Import base tactics option list gmap strings sorting.

Open Scope Z_scope.

(** ** Python strings *)

Abbreviation text := (list ascii).

Definition str (s : string) : text := list_ascii_of_string s.

Arguments str : simpl never.

Definition NL : ascii := ascii_of_nat 10.
Definition CR : ascii := ascii_of_nat 13.

Module Py.

(** [len(s)] *)
Definition len {A} (s : list A) : Z := Z.of_nat (length s).

(** [str.isspace] on one character of the ASCII range, which is also the
    class [\s] of [re] for [str] patterns. *)
Definition isspace (c : ascii) : bool :=
  let n := nat_of_ascii c in
  ((9 <=? n) && (n <=? 13) || (28 <=? n) && (n <=? 32))%nat.

Definition isupper (c : ascii) : bool :=
  let n := nat_of_ascii c in ((65 <=? n) && (n <=? 90))%nat.

Definition islower (c : ascii) : bool :=
  let n := nat_of_ascii c in ((97 <=? n) && (n <=? 122))%nat.

Definition isdigit (c : ascii) : bool :=
  let n := nat_of_ascii c in ((48 <=? n) && (n <=? 57))%nat.

(** The class [\w]: letters, digits and the underscore. *)
Definition isword (c : ascii) : bool :=
  isupper c || islower c || isdigit c || Ascii.eqb c "_".

Definition lower_char (c : ascii) : ascii :=
  if isupper c then ascii_of_nat (nat_of_ascii c + 32) else c.

Definition upper_char (c : ascii) : ascii :=
  if islower c then ascii_of_nat (nat_of_ascii c - 32) else c.

(** [s.lower()], [s.upper()] *)
Definition lower (s : text) : text := map lower_char s.
Definition upper (s : text) : text := map upper_char s.

(** [s.startswith(p)] *)
Fixpoint startswith (s p : text) : bool :=
  match p, s with
  | [], _ => true
  | _ :: _, [] => false
  | a :: p', c :: s' => Ascii.eqb a c && startswith s' p'
  end.

(** [s.endswith(p)] *)
Definition endswith (s p : text) : bool := startswith (rev s) (rev p).

(** First index [j >= off] at which [sub] occurs, when [s] is the part of
    the string from index [off] on. *)
Fixpoint find_from (sub s : text) (off : nat) : option nat :=
  if startswith s sub then Some off
  else match s with
       | [] => None
       | _ :: s' => find_from sub s' (S off)
       end.

(** Last index at which [sub] occurs inside [s]. *)
Fixpoint rfind_from (sub s : text) (off : nat) : option nat :=
  match s with
  | [] => if startswith [] sub then Some off else None
  | _ :: s' =>
      match rfind_from sub s' (S off) with
      | Some j => Some j
      | None => if startswith s sub then Some off else None
      end
  end.

(** Slice bounds as Python adjusts them: negative indices count from the
    end, and everything is clipped to [0, len]. *)
Definition clip (n : nat) (i : Z) : nat :=
  if i <? 0 then Z.to_nat (Z.max 0 (i + Z.of_nat n))
  else Nat.min (Z.to_nat i) n.

Definition of_index (o : option nat) : Z :=
  match o with Some j => Z.of_nat j | None => -1 end.

(** [s.find(sub, start)] *)
Definition find (s sub : text) (start : Z) : Z :=
  if Z.of_nat (length s) <? start then -1
  else let a := clip (length s) start in
       of_index (find_from sub (drop a s) a).

(** [s.rfind(sub, 0, stop)] *)
Definition rfind (s sub : text) (stop : Z) : Z :=
  of_index (rfind_from sub (take (clip (length s) stop) s) 0).

(** [s[a:b]] *)
Definition slice {A} (s : list A) (a b : Z) : list A :=
  let i := clip (length s) a in
  let j := clip (length s) b in
  take (j - i) (drop i s).

(** [sub in s] *)
Definition contains (s sub : text) : bool :=
  match find_from sub s 0 with Some _ => true | None => false end.

(** [s.count('\n')] for a one-character argument *)
Definition count (s : text) (c : ascii) : Z :=
  Z.of_nat (length (filter (λ x, x = c) s)).

(** [s.split('\n')]: the pieces between separators, one more than there
    are separators. *)
Fixpoint split (s : text) (sep : ascii) : list text :=
  match s with
  | [] => [[]]
  | c :: s' =>
      if Ascii.eqb c sep then [] :: split s' sep
      else match split s' sep with
           | l :: ls => (c :: l) :: ls
           | [] => [[c]]
           end
  end.

Fixpoint lstrip (s : text) : text :=
  match s with
  | c :: s' => if isspace c then lstrip s' else s
  | [] => []
  end.

(** [s.strip()] *)
Definition strip (s : text) : text := rev (lstrip (rev (lstrip s))).

(** [s.replace(old, new)] for a one-character [old] *)
Definition replace_char (s : text) (old : ascii) (new : text) : text :=
  flat_map (λ c, if Ascii.eqb c old then new else [c]) s.

(** [''.join(parts)] *)
Definition join (parts : list text) : text := concat parts.

(** [f.readlines()]: the lines with their terminators kept. *)
Fixpoint readlines (s : text) : list text :=
  match s with
  | [] => []
  | c :: s' =>
      if Ascii.eqb c NL then [c] :: readlines s'
      else match readlines s' with
           | l :: ls => (c :: l) :: ls
           | [] => [[c]]
           end
  end.

(** Universal newlines on reading in text mode: [\r\n] and a lone [\r]
    both become [\n]. *)
Fixpoint universal_newlines (s : text) : text :=
  match s with
  | [] => []
  | c :: s' =>
      if Ascii.eqb c CR then
        match s' with
        | d :: s'' =>
            if Ascii.eqb d NL then NL :: universal_newlines s''
            else NL :: universal_newlines s'
        | [] => [NL]
        end
      else c :: universal_newlines s'
  end.

End Py.

(** ** The fragment of Python's [re] that the two scripts use

    A backtracking matcher in continuation-passing style.  The subject is
    held as a zipper: [pre] is the text before the current position,
    reversed, and [rest] is the text from the current position on, so the
    character before the position (for [\b]) is the head of [pre] and the
    position is [length pre].  Alternatives are tried in the order in which
    [re] tries them, so the first success is the match [re] reports.
    Repetition occurs in the patterns only over single-character classes. *)

Module Re.

Inductive cclass :=
| CAny                (* [.] under DOTALL *)
| CNotNL              (* [.] without DOTALL *)
| CSpace              (* [\s] *)
| CWord               (* [\w] *)
| CDigit              (* [\d] *)
| CNot (c : ascii).   (* [[^c]] *)

Definition in_class (cl : cclass) (c : ascii) : bool :=
  match cl with
  | CAny => true
  | CNotNL => negb (Ascii.eqb c NL)
  | CSpace => Py.isspace c
  | CWord => Py.isword c
  | CDigit => Py.isdigit c
  | CNot d => negb (Ascii.eqb c d)
  end.

Inductive regex :=
| Eps
| Lit (s : text)          (* literal text *)
| Cls (cl : cclass)       (* one character of a class *)
| Star (cl : cclass)      (* greedy [cl*] *)
| WordB                   (* [\b] *)
| EndS                    (* [$] without MULTILINE *)
| Seq (r1 r2 : regex)
| Alt (r1 r2 : regex)     (* [r1|r2] *)
| Look (r : regex)        (* [(?=r)] *)
| NegLook (r : regex).    (* [(?!r)] *)

(** [cl+] and [(r)?] *)
Definition Plus (cl : cclass) : regex := Seq (Cls cl) (Star cl).
Definition Opt (r : regex) : regex := Alt r Eps.

Fixpoint seq (rs : list regex) : regex :=
  match rs with
  | [] => Eps
  | [r] => r
  | r :: rs' => Seq r (seq rs')
  end.

Section Matcher.

(** The IGNORECASE flag. *)
Variable icase : bool.

Definition char_eq (p c : ascii) : bool :=
  if icase then Ascii.eqb (Py.lower_char p) (Py.lower_char c)
  else Ascii.eqb p c.

Definition cont := text → text → option nat.

Fixpoint lit (s : text) (pre rest : text) (k : cont) : option nat :=
  match s with
  | [] => k pre rest
  | p :: s' =>
      match rest with
      | c :: rest' => if char_eq p c then lit s' (c :: pre) rest' k else None
      | [] => None
      end
  end.

Fixpoint star (cl : cclass) (pre rest : text) (k : cont) : option nat :=
  match rest with
  | c :: rest' =>
      if in_class cl c then
        match star cl (c :: pre) rest' k with
        | Some e => Some e
        | None => k pre rest
        end
      else k pre rest
  | [] => k pre rest
  end.

Definition word_before (pre : text) : bool :=
  match pre with c :: _ => Py.isword c | [] => false end.

Definition word_after (rest : text) : bool :=
  match rest with c :: _ => Py.isword c | [] => false end.

(** [\b]: exactly one side of the position is a word character. *)
Definition at_boundary (pre rest : text) : bool :=
  xorb (word_before pre) (word_after rest).

(** [$]: the end of the text, or just before a final newline. *)
Definition at_end (rest : text) : bool :=
  match rest with
  | [] => true
  | [c] => Ascii.eqb c NL
  | _ => false
  end.

Definition found : cont := λ pre _, Some (length pre).

Fixpoint run (r : regex) (pre rest : text) (k : cont) : option nat :=
  match r with
  | Eps => k pre rest
  | Lit s => lit s pre rest k
  | Cls cl =>
      match rest with
      | c :: rest' => if in_class cl c then k (c :: pre) rest' else None
      | [] => None
      end
  | Star cl => star cl pre rest k
  | WordB => if at_boundary pre rest then k pre rest else None
  | EndS => if at_end rest then k pre rest else None
  | Seq r1 r2 => run r1 pre rest (λ p q, run r2 p q k)
  | Alt r1 r2 =>
      match run r1 pre rest k with
      | Some e => Some e
      | None => run r2 pre rest k
      end
  | Look r' =>
      match run r' pre rest found with
      | Some _ => k pre rest
      | None => None
      end
  | NegLook r' =>
      match run r' pre rest found with
      | Some _ => None
      | None => k pre rest
      end
  end.

(** A match attempt anchored at the current position; the result is the
    end position of the match. *)
Definition match_here (r : regex) (pre rest : text) : option nat :=
  run r pre rest found.

(** The scan of [re.finditer] and [re.sub]: leftmost matches, each
    search resuming where the previous match ended.  [skip] counts the
    characters of the last match still to be stepped over.  (A pattern
    of the catalogues never matches the empty text, so the rule of [re]
    on empty matches never comes into play; an empty match is stepped
    over like a failed attempt.) *)
Fixpoint scan_from (r : regex) (pre rest : text) (skip : nat)
  : list (nat * nat) :=
  match skip with
  | S n =>
      match rest with
      | c :: rest' => scan_from r (c :: pre) rest' n
      | [] => []
      end
  | O =>
      match match_here r pre rest with
      | Some e =>
          (length pre, e) ::
          match rest with
          | c :: rest' => scan_from r (c :: pre) rest' (e - length pre - 1)
          | [] => []
          end
      | None =>
          match rest with
          | c :: rest' => scan_from r (c :: pre) rest' 0
          | [] => []
          end
      end
  end.

(** [re.finditer(r, s)] as the list of [(m.start(), m.end())]. *)
Definition finditer (r : regex) (s : text) : list (nat * nat) :=
  scan_from r [] s 0.

(** [re.search(r, s) is not None] *)
Definition search (r : regex) (s : text) : bool :=
  match finditer r s with [] => false | _ => true end.

(** [re.sub(r, repl, s)] with a function [repl] of the matched text. *)
Fixpoint sub_from (repl : text → text) (ms : list (nat * nat))
    (s : text) (pos : nat) : text :=
  match ms with
  | [] => s
  | (a, b) :: ms' =>
      take (a - pos) s ++ repl (take (b - a) (drop (a - pos) s))
        ++ sub_from repl ms' (drop (b - pos) s) b
  end.

Definition sub (r : regex) (repl : text → text) (s : text) : text :=
  sub_from repl (finditer r s) s 0.

End Matcher.

End Re.


(** ** Exceptions, containers and the file system *)

Inductive exn := FileNotFoundError | KeyError | IndexError.

Inductive result (A : Type) :=
| Ok (a : A)
| Raise (e : exn).

Arguments Ok {A} a.
Arguments Raise {A} e.

#[global] Instance result_ret : MRet result := λ A a, Ok a.

#[global] Instance result_bind : MBind result := λ A B f m,
  match m with
  | Ok a => f a
  | Raise e => Raise e
  end.

#[global] Instance result_fmap : FMap result := λ A B f m,
  match m with
  | Ok a => Ok (f a)
  | Raise e => Raise e
  end.

(** A [for] loop whose body may raise. *)
Fixpoint for_each {A S} (body : S → A → result S) (l : list A) (s : S)
  : result S :=
  match l with
  | [] => Ok s
  | x :: l' => s' ← body s x; for_each body l' s'
  end.

(** The index a Python list really accesses for subscript [i]. *)
Definition list_index {A} (l : list A) (i : Z) : result nat :=
  let j := if i <? 0 then i + Py.len l else i in
  if (j <? 0) || (Py.len l <=? j) then Raise IndexError
  else Ok (Z.to_nat j).

(** [l[i]] *)
Definition getitem {A} (l : list A) (i : Z) : result A :=
  j ← list_index l i;
  match l !! j with
  | Some x => Ok x
  | None => Raise IndexError
  end.

(** [l[i] = x] *)
Definition setitem {A} (l : list A) (i : Z) (x : A) : result (list A) :=
  j ← list_index l i; Ok (<[j := x]> l).

(** [d[k] += 1] on a dict *)
Definition increment (d : gmap text Z) (k : text) : result (gmap text Z) :=
  match d !! k with
  | Some v => Ok (<[k := v + 1]> d)
  | None => Raise KeyError
  end.

(** A path of the file system holds a file that opens, with its bytes, or
    one that does not (permissions, encoding); a path that is absent does
    not open for reading either. *)
Inductive node :=
| Data (bytes : text)        (* opens for reading and for writing *)
| ReadOnly (bytes : text)    (* opens for reading only *)
| Locked.                    (* does not open, or does not decode *)

(** [open(path, 'r').read()]; [None] when the open or the read raises. *)
Definition read_text (fs : gmap text node) (path : text) : option text :=
  match fs !! path with
  | Some (Data bytes) | Some (ReadOnly bytes) =>
      Some (Py.universal_newlines bytes)
  | _ => None
  end.

(** [open(path, 'w').write(data)]; [None] when the open raises. *)
Definition write_text (fs : gmap text node) (path : text) (data : text)
  : option (gmap text node) :=
  match fs !! path with
  | Some Locked | Some (ReadOnly _) => None
  | _ => Some (<[path := Data data]> fs)
  end.

(** Join the lines of a multi-line literal with newlines. *)
Fixpoint text_lines (ls : list string) : text :=
  match ls with
  | [] => []
  | [l] => str l
  | l :: ls' => str l ++ NL :: text_lines ls'
  end.


(** ** [sql_cost_optimizer.py]: class [SQLCostOptimizer] *)

Module SQLCostOptimizer.

Record SQLIssue := {
  file_path : text;
  line_number : Z;
  issue_type : text;
  severity : text;
  description : text;
  original_line : text;
  suggested_fix : option text;
  estimated_cost_impact : text
}.

(** One entry of the dict that [_initialize_patterns] returns. *)
Record pattern_info := {
  pattern : Re.regex;
  p_severity : text;
  p_description : text;
  p_cost_impact : text;
  p_fix_template : text
}.

Import Re.

Definition L (s : string) : regex := Lit (str s).
Definition sp1 : regex := Plus CSpace.          (* [\s+] *)
Definition sp0 : regex := Star CSpace.          (* [\s*] *)
Definition dots : regex := Star CAny.           (* [.*] under DOTALL *)

(** [\bSELECT\s+\*\b] *)
Definition re_select_star : regex :=
  seq [WordB; L "SELECT"; sp1; L "*"; WordB].

(** [\bFROM\s+(\w+\.)?(transactions|accounts|customers|orders|payments|audit_log|events)\b(?!.*\bWHERE\b)] *)
Definition re_missing_where_large_table : regex :=
  seq [WordB; L "FROM"; sp1; Opt (Seq (Plus CWord) (L "."));
       Alt (L "transactions") (Alt (L "accounts") (Alt (L "customers")
         (Alt (L "orders") (Alt (L "payments") (Alt (L "audit_log")
           (L "events"))))));
       WordB; NegLook (seq [dots; WordB; L "WHERE"; WordB])].

(** [\bSELECT\s+DISTINCT\b(?!.*\bGROUP\s+BY\b)] *)
Definition re_unnecessary_distinct : regex :=
  seq [WordB; L "SELECT"; sp1; L "DISTINCT"; WordB;
       NegLook (seq [dots; WordB; L "GROUP"; sp1; L "BY"; WordB])].

(** [\bORDER\s+BY\b(?!.*\bLIMIT\b)(?!.*\bTOP\b)] *)
Definition re_order_without_limit : regex :=
  seq [WordB; L "ORDER"; sp1; L "BY"; WordB;
       NegLook (seq [dots; WordB; L "LIMIT"; WordB]);
       NegLook (seq [dots; WordB; L "TOP"; WordB])].

(** [\bUNION\s+(?!ALL\b)] *)
Definition re_union_instead_union_all : regex :=
  seq [WordB; L "UNION"; sp1; NegLook (Seq (L "ALL") WordB)].

(** [\b(CREATE\s+(OR\s+REPLACE\s+)?TABLE|DROP\s+TABLE)\b] *)
Definition re_create_drop_table : regex :=
  seq [WordB;
       Alt (seq [L "CREATE"; sp1; Opt (seq [L "OR"; sp1; L "REPLACE"; sp1]);
                 L "TABLE"])
           (seq [L "DROP"; sp1; L "TABLE"]);
       WordB].

(** [\bCREATE\s+(OR\s+REPLACE\s+)?(FUNCTION|PROCEDURE)\b] *)
Definition re_create_function_procedure : regex :=
  seq [WordB; L "CREATE"; sp1; Opt (seq [L "OR"; sp1; L "REPLACE"; sp1]);
       Alt (L "FUNCTION") (L "PROCEDURE"); WordB].

(** [\bVARCHAR\s*(?!\s*\(\s*\d+\s*\))] *)
Definition re_varchar_without_size : regex :=
  seq [WordB; L "VARCHAR"; sp0;
       NegLook (seq [sp0; L "("; sp0; Plus CDigit; sp0; L ")"])].

(** [\(\s*SELECT.*\(\s*SELECT.*FROM.*\).*FROM.*\)] *)
Definition re_nested_subqueries : regex :=
  seq [L "("; sp0; L "SELECT"; dots; L "("; sp0; L "SELECT"; dots;
       L "FROM"; dots; L ")"; dots; L "FROM"; dots; L ")"].

(** [\b(DECLARE.*CURSOR|FOR.*CURSOR|OPEN\s+CURSOR|FETCH\s+FROM)\b] *)
Definition re_cursor_usage : regex :=
  seq [WordB;
       Alt (seq [L "DECLARE"; dots; L "CURSOR"])
         (Alt (seq [L "FOR"; dots; L "CURSOR"])
           (Alt (seq [L "OPEN"; sp1; L "CURSOR"])
                (seq [L "FETCH"; sp1; L "FROM"])));
       WordB].

(** [INSERT\s+INTO.*VALUES\s*\([^)]*\)\s*;.*INSERT\s+INTO] *)
Definition re_multiple_single_inserts : regex :=
  seq [L "INSERT"; sp1; L "INTO"; dots; L "VALUES"; sp0; L "(";
       Star (CNot ")"); L ")"; sp0; L ";"; dots; L "INSERT"; sp1; L "INTO"].

Definition HIGH : text := str "HIGH".
Definition MEDIUM : text := str "MEDIUM".
Definition LOW : text := str "LOW".

(** The dict of [_initialize_patterns], in its insertion order, which is
    the order in which [_scan_sql_file] iterates over it. *)
Definition _initialize_patterns : list (text * pattern_info) := [
  (str "select_star",
   {| pattern := re_select_star;
      p_severity := HIGH;
      p_description := str "SELECT * queries scan unnecessary columns";
      p_cost_impact := str "300-500% increased I/O costs";
      p_fix_template := text_lines [
        "-- SELECT * replaced with specific columns"; "SELECT ";
        "    column1,"; "    column2,"; "    column3"; "FROM {table}"] |});
  (str "missing_where_large_table",
   {| pattern := re_missing_where_large_table;
      p_severity := HIGH;
      p_description := str "Query on large table without WHERE clause";
      p_cost_impact := str "Full table scan - extremely expensive";
      p_fix_template := text_lines [
        "-- Add WHERE clause to filter data";
        "-- WHERE created_date >= DATEADD(day, -30, CURRENT_DATE())"] |});
  (str "unnecessary_distinct",
   {| pattern := re_unnecessary_distinct;
      p_severity := MEDIUM;
      p_description :=
        str "DISTINCT without GROUP BY causes expensive deduplication";
      p_cost_impact := str "50-200% increased processing time";
      p_fix_template := text_lines [
        "-- Consider using GROUP BY instead of DISTINCT for aggregations"] |});
  (str "order_without_limit",
   {| pattern := re_order_without_limit;
      p_severity := MEDIUM;
      p_description := str "ORDER BY without LIMIT sorts entire result set";
      p_cost_impact := str "Unnecessary sorting of large datasets";
      p_fix_template := text_lines [
        "-- Add LIMIT to ORDER BY"; "-- ORDER BY column_name LIMIT 1000"] |});
  (str "union_instead_union_all",
   {| pattern := re_union_instead_union_all;
      p_severity := MEDIUM;
      p_description := str "UNION performs unnecessary deduplication";
      p_cost_impact := str "20-100% increased processing time";
      p_fix_template := text_lines [
        "-- Use UNION ALL if duplicates are acceptable"; "UNION ALL"] |});
  (str "create_drop_table",
   {| pattern := re_create_drop_table;
      p_severity := HIGH;
      p_description :=
        str "Creating/dropping tables in ETL causes metadata overhead";
      p_cost_impact :=
        str "Time Travel storage costs + performance degradation";
      p_fix_template := text_lines [
        "-- Use permanent staging tables with TRUNCATE instead";
        "-- TRUNCATE TABLE staging.temp_table;"] |});
  (str "create_function_procedure",
   {| pattern := re_create_function_procedure;
      p_severity := HIGH;
      p_description :=
        str "Creating functions/procedures in ETL causes compilation overhead";
      p_cost_impact := str "Metadata bloat + compilation time on every run";
      p_fix_template := text_lines [
        "-- Deploy functions during release, not in ETL";
        "-- Use inline SQL logic instead"] |});
  (str "varchar_without_size",
   {| pattern := re_varchar_without_size;
      p_severity := LOW;
      p_description := str "VARCHAR without size limit wastes storage";
      p_cost_impact := str "Higher storage costs";
      p_fix_template := text_lines [
        "-- Specify appropriate VARCHAR size";
        "VARCHAR(100)  -- Adjust size as needed"] |});
  (str "nested_subqueries",
   {| pattern := re_nested_subqueries;
      p_severity := MEDIUM;
      p_description := str "Deeply nested subqueries hurt performance";
      p_cost_impact := str "Poor query optimization";
      p_fix_template := text_lines [
        "-- Use CTEs (WITH clauses) for better readability and performance";
        "WITH subquery1 AS ("; "    SELECT ..."; ")"] |});
  (str "cursor_usage",
   {| pattern := re_cursor_usage;
      p_severity := HIGH;
      p_description :=
        str "Cursor-based row-by-row processing is extremely inefficient";
      p_cost_impact :=
        str "Thousands of times slower than set-based operations";
      p_fix_template := text_lines [
        "-- Use set-based operations instead";
        "-- MERGE, INSERT, UPDATE with JOINs"] |});
  (str "multiple_single_inserts",
   {| pattern := re_multiple_single_inserts;
      p_severity := MEDIUM;
      p_description :=
        str "Multiple single INSERT statements are inefficient";
      p_cost_impact :=
        str "Multiple small transactions vs efficient batching";
      p_fix_template := text_lines [
        "-- Use bulk INSERT or multi-value INSERT";
        "INSERT INTO table VALUES (val1), (val2), (val3);"] |})
].


(** What the program prints, line by line or block by block. *)
Inductive message :=
| FoundFiles (n : nat)
| ErrorReading (path : text)
| ScanSummary (files total high medium low : Z)
| WouldFix (n : nat) (path : text)
| NoIssuesToFix
| Fixed (n : nat) (path : text)
| BackupCreated (backup_path : text)
| ErrorWritingFixes (path : text).

(** The object state: [self.issues], [self.stats], and the console output
    so far.  [self.patterns] is assigned once from [_initialize_patterns]
    and never changed, so it is read as that constant. *)
Record optimizer := {
  issues : list SQLIssue;
  stats : gmap text Z;
  console : list message
}.

Definition print (st : optimizer) (m : message) : optimizer :=
  {| issues := issues st; stats := stats st; console := console st ++ [m] |}.

Definition __init__ : optimizer :=
  {| issues := [];
     stats := list_to_map [
       (str "files_scanned", 0); (str "issues_found", 0);
       (str "high_severity", 0); (str "medium_severity", 0);
       (str "low_severity", 0)];
     console := [] |}.

Definition _is_in_comment (content : text) (position : Z) : bool :=
  let line_start := Py.rfind content [NL] position + 1 in
  let line_content :=
    Py.slice content line_start (Py.find content [NL] position) in
  if Py.contains line_content (str "--")
     && (Py.find line_content (str "--") 0 <? position - line_start)
  then true
  else
    let comment_start := Py.rfind content (str "/*") position in
    let comment_end := Py.find content (str "*/") comment_start in
    if negb (comment_start =? -1)
       && ((comment_end =? -1) || (position <? comment_end))
    then true
    else false.

(** The line number and the line text that the inner loop of
    [_scan_sql_file] computes for a match that starts at [start]. *)
Definition locate (content : text) (lines : list text) (start : nat)
  : result (Z * text) :=
  let line_num := Py.count (take start content) NL + 1 in
  line_content ←
    (if line_num <=? Py.len lines
     then l ← getitem lines (line_num - 1); Ok (Py.strip l)
     else Ok []);
  Ok (line_num, line_content).

(** The body of the inner loop of [_scan_sql_file], for the match [m]. *)
Definition scan_match (path content : text) (lines : list text)
    (pattern_name : text) (info : pattern_info)
    (st : optimizer) (m : nat * nat) : result optimizer :=
  loc ← locate content lines m.1;
  if _is_in_comment content (Z.of_nat m.1) then Ok st
  else
    let issue :=
      {| file_path := path;
         line_number := loc.1;
         issue_type := pattern_name;
         severity := p_severity info;
         description := p_description info;
         original_line := loc.2;
         suggested_fix := Some (p_fix_template info);
         estimated_cost_impact := p_cost_impact info |} in
    s1 ← increment (stats st) (str "issues_found");
    s2 ← increment s1 (Py.lower (p_severity info) ++ str "_severity");
    Ok {| issues := issues st ++ [issue]; stats := s2;
          console := console st |}.

(** The body of the outer loop: all matches of one pattern. *)
Definition scan_pattern (path content : text) (lines : list text)
    (st : optimizer) (entry : text * pattern_info) : result optimizer :=
  for_each (scan_match path content lines entry.1 entry.2)
           (finditer true (pattern entry.2) content) st.

Definition _scan_sql_file (fs : gmap text node) (path : text)
    (st : optimizer) : result optimizer :=
  s0 ← increment (stats st) (str "files_scanned");
  let st0 := {| issues := issues st; stats := s0; console := console st |} in
  match read_text fs path with
  | None => Ok (print st0 (ErrorReading path))
  | Some content =>
      let lines := Py.split content NL in
      for_each (scan_pattern path content lines) _initialize_patterns st0
  end.

Definition stat (st : optimizer) (k : string) : result Z :=
  match stats st !! str k with
  | Some v => Ok v
  | None => Raise KeyError
  end.

Definition _generate_summary (st : optimizer) : result optimizer :=
  f ← stat st "files_scanned";
  t ← stat st "issues_found";
  h ← stat st "high_severity";
  m ← stat st "medium_severity";
  l ← stat st "low_severity";
  Ok (print st (ScanSummary f t h m l)).

(** [tree] gives, for each path that exists, the [.sql] files that
    [rglob] finds under it. *)
Definition scan_directory (tree : gmap text (list text))
    (fs : gmap text node) (etl_path : text) (st : optimizer)
  : result optimizer :=
  match tree !! etl_path with
  | None => Raise FileNotFoundError
  | Some sql_files =>
      let st := print st (FoundFiles (length sql_files)) in
      st ← for_each (λ st f, _scan_sql_file fs f st) sql_files st;
      _generate_summary st
  end.

(** [issues.sort(key=lambda x: x.line_number, reverse=True)]: a stable sort
    on descending line numbers; issues of equal line number keep the order
    they had. *)
Fixpoint insert_desc (x : SQLIssue) (l : list SQLIssue) : list SQLIssue :=
  match l with
  | [] => [x]
  | y :: l' =>
      if line_number x <? line_number y then y :: insert_desc x l'
      else x :: l
  end.

Definition sort_desc (l : list SQLIssue) : list SQLIssue :=
  foldr insert_desc [] l.

(** The three parts of the text that replaces a line. *)
Definition fix_comment (issue : SQLIssue) : text :=
  str "-- COST OPTIMIZATION FIX: " ++ description issue ++ [NL]
  ++ str "-- Original line commented below, optimized version added"
  ++ [NL]
  ++ str "-- Cost Impact: " ++ estimated_cost_impact issue ++ [NL].

Definition commented_original (original_line : text) : text :=
  str "-- ORIGINAL: " ++ original_line
  ++ (if Py.endswith original_line [NL] then [] else [NL]).

Definition suggested (issue : SQLIssue) : text :=
  match suggested_fix issue with
  | Some (c :: f) =>
      if negb (Py.startswith (c :: f) (str "--")) then (c :: f) ++ [NL]
      else []
  | _ => []
  end.

(** The text that replaces the line [original_line] for [issue]. *)
Definition replacement (issue : SQLIssue) (original_line : text) : text :=
  fix_comment issue ++ commented_original original_line ++ suggested issue.

(** The body of the loop of [_fix_file_issues]. *)
Definition fix_issue (lines : list text) (issue : SQLIssue)
  : result (list text) :=
  let line_idx := line_number issue - 1 in
  if Py.len lines <=? line_idx then Ok lines
  else
    original_line ← getitem lines line_idx;
    setitem lines line_idx (replacement issue original_line).

(** The sort and the loop: the lines that are written back. *)
Definition fixed_lines (lines : list text) (issues : list SQLIssue)
  : result (list text) :=
  for_each fix_issue (sort_desc issues) lines.

(** [stamp] is [datetime.now().strftime('%Y%m%d_%H%M%S')].  The result is
    the file system and the console after the call. *)
Definition _fix_file_issues (fs : gmap text node) (stamp : text)
    (path : text) (issues : list SQLIssue) (out : list message)
  : result (gmap text node * list message) :=
  match read_text fs path with
  | None => Ok (fs, out ++ [ErrorReading path])
  | Some content =>
      lines ← fixed_lines (Py.readlines content) issues;
      let backup_path := path ++ str ".backup." ++ stamp in
      match write_text fs backup_path (Py.join lines) with
      | None => Ok (fs, out ++ [ErrorWritingFixes path])
      | Some fs1 =>
          match write_text fs1 path (Py.join lines) with
          | None => Ok (fs1, out ++ [ErrorWritingFixes path])
          | Some fs2 =>
              Ok (fs2, out ++ [Fixed (length issues) path;
                               BackupCreated backup_path])
          end
      end
  end.

End SQLCostOptimizer.

(** ** [optimizer_2.py]: class [SqlOptimizer] *)

Module SqlOptimizer.

Import Re.

(** The dict that [check_file] appends for one finding. *)
Record issue := {
  line : Z;
  type : text;
  description : text;
  content : text;
  severity : text
}.

(** One element of [self.results]. *)
Record result_entry := {
  file : text;
  issues : list issue
}.

Inductive message :=
| FoundFiles (n : nat)
| FixedFile (path backup_path : text).

Definition large_tables : list text :=
  [str "TRANSACTIONS"; str "ACCOUNTS"; str "CUSTOMERS"; str "ORDERS";
   str "PAYMENTS"; str "EVENTS"].

(** [\bUNION\s+(?!ALL)] *)
Definition re_union : regex :=
  seq [WordB; Lit (str "UNION"); Plus CSpace; NegLook (Lit (str "ALL"))].

(** The issues of the body of the loop of [check_file] for the line
    numbered [i] (from 1). *)
Definition check_line (lines : list text) (i : nat) (l : text)
  : list issue :=
  let line_upper := Py.strip (Py.upper l) in
  let found ty desc sev :=
    {| line := Z.of_nat i; type := str ty; description := desc;
       content := Py.strip l; severity := str sev |} in
  if Py.startswith line_upper (str "--") || bool_decide (line_upper = [])
  then []
  else
    (if Py.contains line_upper (str "SELECT *")
     then [found "select_star" (str "SELECT * found - scans all columns")
                 "HIGH"]
     else [])
    ++ flat_map (λ table,
         if Py.contains line_upper (str "FROM " ++ table)
            || Py.contains line_upper (str "JOIN " ++ table)
         then
           let has_where :=
             existsb (λ l', Py.contains (Py.upper l') (str "WHERE"))
               (Py.slice lines (Z.max 0 (Z.of_nat i - 2))
                  (Z.min (Py.len lines) (Z.of_nat i + 3))) in
           if negb has_where
           then [found "missing_where"
                   (str "Query on " ++ table ++ str " without WHERE clause")
                   "HIGH"]
           else []
         else []) large_tables
    ++ (if Py.contains line_upper (str "ORDER BY")
           && negb (Py.contains line_upper (str "LIMIT"))
           && negb (Py.contains line_upper (str "TOP"))
        then [found "order_no_limit"
                (str "ORDER BY without LIMIT - sorts entire result")
                "MEDIUM"]
        else [])
    ++ (if (Py.contains line_upper (str "CREATE TABLE")
            || Py.contains line_upper (str "DROP TABLE"))
           && (negb (Py.contains line_upper (str "TEMPORARY"))
               && negb (Py.contains line_upper (str "TEMP")))
        then [found "create_drop_table"
                (str "Creating/dropping permanent tables in ETL") "HIGH"]
        else [])
    ++ (if search false re_union line_upper
        then [found "union_without_all"
                (str "UNION without ALL - does unnecessary deduplication")
                "MEDIUM"]
        else [])
    ++ (if Py.contains line_upper (str "SELECT DISTINCT")
        then [found "distinct_usage"
                (str "DISTINCT usage - consider if GROUP BY is better")
                "MEDIUM"]
        else []).

(** [check_file] has no console output: an unreadable file gives the empty
    list, like a file without findings. *)
Definition check_file (fs : gmap text node) (path : text) : list issue :=
  match read_text fs path with
  | None => []
  | Some content =>
      let lines := Py.split content NL in
      concat (imap (λ n l, check_line lines (S n) l) lines)
  end.

(** [scan_files], with [sql_files] the files that [os.walk] finds. *)
Definition scan_files (fs : gmap text node) (sql_files : list text)
    (results : list result_entry) (out : list message)
  : list result_entry * list message :=
  (foldl (λ results path,
      match check_file fs path with
      | [] => results
      | found => results ++ [{| file := path; issues := found |}]
      end) results sql_files,
   out ++ [FoundFiles (length sql_files)]).

(** [SELECT\s+\*(?=\s+FROM)] *)
Definition re_fix_select_star : regex :=
  seq [Lit (str "SELECT"); Plus CSpace; Lit (str "*");
       Look (Seq (Plus CSpace) (Lit (str "FROM")))].

(** [ORDER\s+BY\s+[^;]*(?=;|\s*$)] *)
Definition re_fix_order : regex :=
  seq [Lit (str "ORDER"); Plus CSpace; Lit (str "BY"); Plus CSpace;
       Star (CNot ";");
       Look (Alt (Lit (str ";")) (Seq (Star CSpace) EndS))].

(** [CREATE\s+TABLE\s+(?!.*TRANSIENT)(?=\w+\.(temp_|tmp_|staging_))] *)
Definition re_fix_create : regex :=
  seq [Lit (str "CREATE"); Plus CSpace; Lit (str "TABLE"); Plus CSpace;
       NegLook (Seq (Star CNotNL) (Lit (str "TRANSIENT")));
       Look (seq [Plus CWord; Lit (str ".");
                  Alt (Lit (str "temp_"))
                    (Alt (Lit (str "tmp_")) (Lit (str "staging_")))])].

Definition add_limit_to_order (order_clause : text) : text :=
  if Py.contains order_clause (str ";")
  then Py.replace_char order_clause ";" (str " LIMIT 1000;")
  else order_clause ++ str " LIMIT 1000".

(** The four substitutions of [fix_single_file], on the text of the file.
    The parameter [issues] of [fix_single_file] is not read. *)
Definition fixed_content (content : text) : text :=
  let c1 := sub true re_fix_select_star
    (λ _, text_lines ["SELECT "; "    -- TODO: Replace * with specific columns";
                      "    *"]) content in
  let c2 := sub true re_union (λ _, str "UNION ALL ") c1 in
  let c3 := sub true re_fix_order add_limit_to_order c2 in
  sub true re_fix_create (λ _, str "CREATE OR REPLACE TRANSIENT TABLE ") c3.

Definition fix_single_file (fs : gmap text node) (path : text)
    (found : list issue) : option (gmap text node) :=
  content ← read_text fs path;
  write_text fs path (fixed_content content).

(** [os.path.basename] and [os.path.join] on POSIX paths. *)
Fixpoint basename (path : text) : text :=
  match path with
  | [] => []
  | c :: path' =>
      if Py.contains path' (str "/") || Ascii.eqb c "/" then basename path'
      else path
  end.

Definition path_join (dir name : text) : text :=
  if Py.startswith name (str "/") then name
  else if bool_decide (dir = []) || Py.endswith dir (str "/")
       then dir ++ name
       else dir ++ str "/" ++ name.

(** [shutil.copy2]: the bytes of the source, as they are. *)
Definition copy2 (fs : gmap text node) (src dst : text)
  : option (gmap text node) :=
  match fs !! src with
  | Some (Data bytes) | Some (ReadOnly bytes) =>
      match fs !! dst with
      | Some Locked | Some (ReadOnly _) => None
      | _ => Some (<[dst := Data bytes]> fs)
      end
  | _ => None
  end.

(** The body of the loop of [fix_files]; [None] when a call raises, which
    nothing catches. *)
Definition fix_entry (backup_dir : text)
    (st : gmap text node * list message) (r : result_entry)
  : option (gmap text node * list message) :=
  let backup_path := path_join backup_dir (basename (file r) ++ str ".bak") in
  fs1 ← copy2 st.1 (file r) backup_path;
  fs2 ← fix_single_file fs1 (file r) (issues r);
  Some (fs2, st.2 ++ [FixedFile (file r) backup_path]).

End SqlOptimizer.

(** ** Vocabulary of the statements *)

(** [sub] occurs in [s] at index [i]. *)
Definition occurs (sub s : text) (i : nat) : Prop :=
  take (length sub) (drop i s) = sub.

(** The same, letter case apart. *)
Definition occurs_ci (sub s : text) (i : nat) : Prop :=
  Py.lower (take (length sub) (drop i s)) = Py.lower sub.

(** The longest prefix without a newline. *)
Fixpoint until_nl (s : text) : text :=
  match s with
  | c :: s' => if Ascii.eqb c NL then [] else c :: until_nl s'
  | [] => []
  end.

(** The line of [content] around position [pos]: back to the previous
    newline and on to the next one, both excluded. *)
Definition line_of (content : text) (pos : nat) : text :=
  rev (until_nl (rev (take pos content))) ++ until_nl (drop pos content).

(** Position [pos] comes after a [--] on its own line. *)
Definition in_line_comment (content : text) (pos : nat) : Prop :=
  ∃ i, (i + 2 ≤ pos)%nat ∧ occurs (str "--") content i
       ∧ ∀ j, (i ≤ j < pos)%nat → content !! j ≠ Some NL.

(** Position [pos] comes after a block-comment opener, the nearest one
    before it, with no closer between that opener and [pos]: no [*/] that
    starts after the two characters of the opener and ends by [pos]. *)
Definition in_block_comment (content : text) (pos : nat) : Prop :=
  ∃ o, (o + 2 ≤ pos)%nat ∧ occurs (str "/*") content o
       ∧ (∀ o', occurs (str "/*") content o' → (o' + 2 ≤ pos)%nat
                → (o' ≤ o)%nat)
       ∧ ∀ c, (o + 2 ≤ c)%nat → (c + 2 ≤ pos)%nat
              → ¬ occurs (str "*/") content c.

(** No block-comment opener before [pos] is followed at once by a slash,
    which the code reads, with the asterisk of the opener, as a closer. *)
Definition openers_stay_open (content : text) (pos : nat) : Prop :=
  ∀ o, (o + 2 ≤ pos)%nat → ¬ occurs (str "/*/") content o.

(** [t] lies inside [s]. *)
Definition infix (t s : text) : Prop := ∃ a b, s = a ++ t ++ b.

Module Re_analysis.

Import Re.

(** A pattern that consumes nothing, whatever the subject. *)
Definition transparent (r : regex) : bool :=
  match r with
  | Eps | WordB | EndS | Look _ | NegLook _ => true
  | _ => false
  end.

(** An over-approximation of the characters a match can start with:
    [first_ok r c] holds when a match of [r] may begin at a position whose
    next character is [c] ([None] at the end of the text). *)
Fixpoint first_ok (icase : bool) (r : regex) (c : option ascii) : bool :=
  match r with
  | Lit (p :: _) =>
      match c with Some x => char_eq icase p x | None => false end
  | Cls cl =>
      match c with Some x => in_class cl x | None => false end
  | Seq r1 r2 =>
      first_ok icase r1 c && (if transparent r1 then first_ok icase r2 c else true)
  | Alt r1 r2 => first_ok icase r1 c || first_ok icase r2 c
  | _ => true
  end.

End Re_analysis.

Module SQLCostOptimizer_spec.

Import SQLCostOptimizer.

(** The finding of pattern [entry] for a match that starts at [start]. *)
Definition finding (path content : text) (entry : text * pattern_info)
    (start : nat) : SQLIssue :=
  {| file_path := path;
     line_number := Py.count (take start content) NL + 1;
     issue_type := entry.1;
     severity := p_severity entry.2;
     description := p_description entry.2;
     original_line := Py.strip (line_of content start);
     suggested_fix := Some (p_fix_template entry.2);
     estimated_cost_impact := p_cost_impact entry.2 |}.

(** The start positions of the matches of a pattern that are not in a
    comment. *)
Definition kept (content : text) (r : Re.regex) : list nat :=
  filter (λ s, _is_in_comment content (Z.of_nat s) = false)
         ((Re.finditer true r content).*1).

(** The findings of one pattern and of the whole catalogue, in the order
    in which the loops reach them. *)
Definition findings_of (path content : text) (entry : text * pattern_info)
  : list SQLIssue :=
  finding path content entry <$> kept content (pattern entry.2).

Definition findings (path content : text) : list SQLIssue :=
  _initialize_patterns ≫= findings_of path content.

(** The number of issues of one severity. *)
Definition count_severity (sev : text) (l : list SQLIssue) : Z :=
  Py.len (filter (λ i, severity i = sev) l).

(** The counters agree with the list of issues. *)
Definition counters_ok (st : optimizer) : Prop :=
  is_Some (stats st !! str "files_scanned")
  ∧ stats st !! str "issues_found" = Some (Py.len (issues st))
  ∧ stats st !! str "high_severity" = Some (count_severity HIGH (issues st))
  ∧ stats st !! str "medium_severity"
      = Some (count_severity MEDIUM (issues st))
  ∧ stats st !! str "low_severity" = Some (count_severity LOW (issues st))
  ∧ Py.len (issues st)
      = count_severity HIGH (issues st) + count_severity MEDIUM (issues st)
        + count_severity LOW (issues st).

(** The invariant that the loops of [_scan_sql_file] carry: the counters
    are right, nothing is printed, and the file counter stays. *)
Definition scanning (out : list message) (files : Z) (st : optimizer) : Prop :=
  counters_ok st ∧ console st = out
  ∧ stats st !! str "files_scanned" = Some files.

(** Descending line numbers: [a] may come before [b]. *)
Definition line_ge (a b : SQLIssue) : Prop := line_number b ≤ line_number a.


(** What scanning the file at [path] adds to the issues and to the
    console. *)
Definition file_findings (fs : gmap text node) (path : text) : list SQLIssue :=
  match read_text fs path with
  | Some content => findings path content
  | None => []
  end.

Definition file_messages (fs : gmap text node) (path : text) : list message :=
  match read_text fs path with
  | Some _ => []
  | None => [ErrorReading path]
  end.


End SQLCostOptimizer_spec.

(** ** The callers of the fixers *)

Module SQLCostOptimizer_fix.

Import SQLCostOptimizer.

(** One turn of the loop that fills the dict [issues_by_file]: the list of
    the issue's file gets the issue at its end, and a file that is not yet
    a key becomes the last key. *)
Fixpoint group_add (groups : list (text * list SQLIssue)) (issue : SQLIssue)
  : list (text * list SQLIssue) :=
  match groups with
  | [] => [(file_path issue, [issue])]
  | (k, g) :: groups' =>
      if decide (k = file_path issue) then (k, g ++ [issue]) :: groups'
      else (k, g) :: group_add groups' issue
  end.

(** The dict [issues_by_file] of [fix_issues_in_place] and of
    [generate_report], as the list of its items in insertion order. *)
Definition issues_by_file (all : list SQLIssue)
  : list (text * list SQLIssue) :=
  foldl group_add [] all.

(** [fix_issues_in_place], on [self.issues]; [stamp path] is the time stamp
    that [_fix_file_issues] takes when it comes to [path]. *)
Definition fix_issues_in_place (stamp : text → text) (dry_run : bool)
    (all : list SQLIssue) (fs : gmap text node) (out : list message)
  : result (gmap text node * list message) :=
  match all with
  | [] => Ok (fs, out ++ [NoIssuesToFix])
  | _ =>
      for_each (λ st group,
          if dry_run
          then Ok (st.1, st.2 ++ [WouldFix (length group.2) group.1])
          else _fix_file_issues st.1 (stamp group.1) group.1 group.2 st.2)
        (issues_by_file all) (fs, out)
  end.

End SQLCostOptimizer_fix.

Module SqlOptimizer_fix.

Import SqlOptimizer.

(** What [fix_files] prints. *)
Inductive output :=
| Said (m : message)
| NoIssuesToFix.

(** The loop of [fix_files]. *)
Fixpoint fix_loop (backup_dir : text) (results : list result_entry)
    (st : gmap text node * list message)
  : option (gmap text node * list message) :=
  match results with
  | [] => Some st
  | r :: results' =>
      st' ← fix_entry backup_dir st r; fix_loop backup_dir results' st'
  end.

(** [fix_files]; [os.makedirs] is taken to succeed.  [None] when a call
    raises. *)
Definition fix_files (backup_dir : text) (results : list result_entry)
    (fs : gmap text node) : option (gmap text node * list output) :=
  match results with
  | [] => Some (fs, [NoIssuesToFix])
  | _ =>
      match fix_loop backup_dir results (fs, []) with
      | Some st => Some (st.1, Said <$> st.2)
      | None => None
      end
  end.

End SqlOptimizer_fix.

(** ** More vocabulary *)

(** The text from index [i] on is one whitespace character and then the
    word [ALL], in any letter case. *)
Definition all_follows (content : text) (i : nat) : Prop :=
  ∃ w a r, drop i content = w :: a ++ r
           ∧ Py.isspace w = true
           ∧ Py.lower a = Py.lower (str "ALL")
           ∧ Re.word_after r = false.

(** A [UNION], in any letter case, at index [s]: it begins at a word
    boundary, a whitespace character comes after it, and what follows it
    is not one whitespace character and then the word [ALL]. *)
Definition bare_union (content : text) (s : nat) : Prop :=
  occurs_ci (str "UNION") content s
  ∧ Re.word_before (rev (take s content)) = false
  ∧ (∃ w, content !! (s + 5)%nat = Some w ∧ Py.isspace w = true)
  ∧ ¬ all_follows content (s + 5).


(** The characters of [m] are those of [s], letter case apart. *)
Definition same_ci (s m : text) : Prop := Py.lower m = Py.lower s.

(** The groups hold the issues of one file each, in the order of the list
    they come from. *)
Definition grouped (all : list SQLCostOptimizer.SQLIssue)
    (groups : list (text * list SQLCostOptimizer.SQLIssue)) : Prop :=
  NoDup groups.*1
  ∧ ∀ k g, (k, g) ∈ groups →
      g ≠ [] ∧ g = filter (λ i, SQLCostOptimizer.file_path i = k) all.

(** The flag [has_where] that [check_file] computes for the line numbered
    [i], counted from 1. *)
Definition has_where (lines : list text) (i : nat) : bool :=
  existsb (λ l', Py.contains (Py.upper l') (str "WHERE"))
    (Py.slice lines (Z.max 0 (Z.of_nat i - 2))
       (Z.min (Py.len lines) (Z.of_nat i + 3))).

(** ** Lemmas on the result monad and on loops *)

Lemma for_each_app {A S} (body : S → A → result S) l1 l2 s :
  for_each body (l1 ++ l2) s = (s' ← for_each body l1 s; for_each body l2 s').
Proof.
  revert s. induction l1 as [|x l1 IH]; intros s; simpl; [done|].
  destruct (body s x) as [s'|e]; simpl; [apply IH|done].
Qed.

(** A loop whose body keeps an invariant, and does not raise under it, runs
    to its end and keeps the invariant. *)
Lemma for_each_inv {A S} (P : S → Prop) (body : S → A → result S) l s :
  (∀ s x, x ∈ l → P s → ∃ s', body s x = Ok s' ∧ P s') →
  P s → ∃ s', for_each body l s = Ok s' ∧ P s'.
Proof.
  revert s. induction l as [|x l IH]; intros s Hb Hs; simpl; [eauto|].
  destruct (Hb s x) as (s1 & -> & Hs1); [left|done|]. simpl.
  apply IH; [|done]. intros ???; apply Hb. by right.
Qed.

(** A loop whose body appends to an output, under an invariant. *)
Lemma for_each_collect {A B S} (P : S → Prop) (out : S → list B)
    (f : A → list B) (body : S → A → result S) l s :
  (∀ s x, x ∈ l → P s → ∃ s', body s x = Ok s' ∧ P s' ∧ out s' = out s ++ f x) →
  P s → ∃ s', for_each body l s = Ok s' ∧ P s' ∧ out s' = out s ++ (l ≫= f).
Proof.
  revert s. induction l as [|x l IH]; intros s Hb Hs; simpl.
  { exists s. by rewrite app_nil_r. }
  destruct (Hb s x) as (s1 & -> & Hs1 & Ho1); [left|done|]. simpl.
  destruct (IH s1) as (s2 & -> & Hs2 & Ho2); [|done|].
  { intros ???; apply Hb. by right. }
  exists s2. split_and!; [done..|]. by rewrite Ho2, Ho1, <- app_assoc.
Qed.

Lemma bind_filter_fmap {A B} (c : A → bool) (g : A → B) (l : list A) :
  l ≫= (λ x, if c x then [] else [g x])
  = g <$> filter (λ x, c x = false) l.
Proof.
  induction l as [|x l IH]; [done|].
  rewrite bind_cons, IH, filter_cons. case_decide as E.
  - by rewrite E.
  - by destruct (c x).
Qed.

Lemma list_index_nat {A} (l : list A) (n : nat) :
  (n < length l)%nat → list_index l (Z.of_nat n) = Ok n.
Proof.
  intros H. unfold list_index, Py.len.
  destruct (Z.ltb_spec (Z.of_nat n) 0); [lia|].
  destruct (Z.ltb_spec (Z.of_nat n) 0); [lia|].
  destruct (Z.leb_spec (Z.of_nat (length l)) (Z.of_nat n)); [lia|].
  simpl. by rewrite Nat2Z.id.
Qed.

Lemma getitem_nat {A} (l : list A) (n : nat) x :
  l !! n = Some x → getitem l (Z.of_nat n) = Ok x.
Proof.
  intros H. unfold getitem.
  rewrite list_index_nat by by eapply lookup_lt_Some. simpl. by rewrite H.
Qed.

Lemma setitem_nat {A} (l : list A) (n : nat) x :
  (n < length l)%nat → setitem l (Z.of_nat n) x = Ok (<[n := x]> l).
Proof. intros H. unfold setitem. by rewrite list_index_nat. Qed.

(** ** Lemmas on the Python string model *)

Lemma ascii_eqb_true (a b : ascii) : Ascii.eqb a b = true ↔ a = b.
Proof. apply Ascii.eqb_eq. Qed.

Lemma ascii_eqb_false (a b : ascii) : Ascii.eqb a b = false ↔ a ≠ b.
Proof. apply Ascii.eqb_neq. Qed.

Lemma find_from_unfold sub s off :
  Py.find_from sub s off
  = if Py.startswith s sub then Some off
    else match s with
         | [] => None
         | _ :: s' => Py.find_from sub s' (S off)
         end.
Proof. by destruct s. Qed.

Lemma startswith_app p q : Py.startswith (p ++ q) p = true.
Proof.
  induction p as [|c p IH]; simpl; [by destruct q|].
  by rewrite Ascii.eqb_refl, IH.
Qed.


Lemma elem_of_rev {A} (x : A) l : x ∈ rev l ↔ x ∈ l.
Proof. rewrite !list_elem_of_In. symmetry. apply in_rev. Qed.

Lemma until_nl_app_nl a b : until_nl (a ++ NL :: b) = until_nl a.
Proof.
  induction a as [|c a IH]; [done|]. simpl.
  destruct (Ascii.eqb c NL); [done|by rewrite IH].
Qed.

Lemma until_nl_app_in a b : NL ∈ a → until_nl (a ++ b) = until_nl a.
Proof.
  intros (a1 & a2 & ->)%list_elem_of_split.
  by rewrite <- app_assoc, <- app_comm_cons, !until_nl_app_nl.
Qed.

Lemma until_nl_app_notin a b : NL ∉ a → until_nl (a ++ b) = a ++ until_nl b.
Proof.
  induction a as [|c a IH]; simpl; [done|]. intros Hn.
  destruct (Ascii.eqb c NL) eqn:E.
  - apply ascii_eqb_true in E as ->. destruct Hn; left.
  - rewrite IH; [done|]. intros ?; apply Hn; by right.
Qed.

Lemma until_nl_notin a : NL ∉ a → until_nl a = a.
Proof.
  intros H. rewrite <- (app_nil_r a) at 1.
  rewrite until_nl_app_notin by done. apply app_nil_r.
Qed.

Lemma count_zero_notin (s : text) c :
  length (filter (λ x, x = c) s) = 0%nat → c ∉ s.
Proof.
  induction s as [|d s IH]; simpl; [intros _; apply not_elem_of_nil|].
  rewrite filter_cons. case_decide as E; simpl; [done|].
  intros H [->|?]%elem_of_cons; [done|by apply IH].
Qed.

Lemma count_pos_in (s : text) c n :
  length (filter (λ x, x = c) s) = S n → c ∈ s.
Proof.
  intros H. destruct (filter (λ x, x = c) s) as [|d f] eqn:E; [done|].
  assert (d ∈ filter (λ x, x = c) s) as Hd by (rewrite E; left).
  apply list_elem_of_filter in Hd as [-> ?]. done.
Qed.

Lemma split_cons_nl s : Py.split (NL :: s) NL = [] :: Py.split s NL.
Proof. done. Qed.

Lemma split_nonempty s : ∃ l ls, Py.split s NL = l :: ls.
Proof.
  destruct s as [|c s]; simpl; [eauto|].
  destruct (Ascii.eqb c NL); [eauto|]. destruct (Py.split s NL); eauto.
Qed.

(** The piece of [split] whose index is the number of newlines before a
    position is the line around that position. *)
Lemma split_lookup_line content pos :
  (pos ≤ length content)%nat →
  Py.split content NL !! length (filter (λ x, x = NL) (take pos content))
  = Some (line_of content pos).
Proof.
  revert pos. induction content as [|c t IH]; intros pos Hpos.
  { simpl in Hpos. replace pos with 0%nat by lia. done. }
  destruct pos as [|pos].
  { simpl. unfold line_of. simpl. destruct (Ascii.eqb c NL) eqn:E; [done|].
    specialize (IH 0%nat ltac:(lia)). unfold line_of in IH. simpl in IH.
    rewrite ?take_0 in IH. simpl in IH. rewrite ?drop_0 in IH.
    destruct (Py.split t NL) as [|l ls]; [done|]. simpl in *.
    by simplify_eq. }
  simpl in Hpos. specialize (IH pos ltac:(lia)).
  rewrite firstn_cons, filter_cons. unfold line_of. rewrite firstn_cons.
  simpl rev. simpl drop. simpl Py.split.
  destruct (Ascii.eqb c NL) eqn:E.
  - apply ascii_eqb_true in E as ->. rewrite decide_True by done. simpl.
    rewrite IH. unfold line_of. by rewrite until_nl_app_nl.
  - apply ascii_eqb_false in E. rewrite decide_False by done.
    destruct (split_nonempty t) as (l & ls & Hs). rewrite Hs in IH |- *.
    destruct (length (filter (λ x, x = NL) (take pos t))) as [|n] eqn:En.
    + simpl in *. simplify_eq. unfold line_of.
      apply count_zero_notin in En.
      assert (NL ∉ rev (take pos t)) as En' by by rewrite elem_of_rev.
      rewrite !until_nl_app_notin by done. simpl.
      rewrite (proj2 (ascii_eqb_false c NL) E). simpl.
      by rewrite until_nl_notin, !rev_app_distr, !rev_involutive.
    + simpl in *. rewrite IH. unfold line_of.
      apply count_pos_in in En.
      rewrite until_nl_app_in; [done|]. by apply elem_of_rev.
Qed.

(** ** Lemmas on the scan of [SQLCostOptimizer] *)

Section scan_lemmas.

Import SQLCostOptimizer SQLCostOptimizer_spec.

(** The guard [line_num <= len(lines)] always holds, the subscript never
    raises, and the line found is the line around the match. *)
Lemma locate_spec content pos :
  (pos ≤ length content)%nat →
  locate content (Py.split content NL) pos
  = Ok (Py.count (take pos content) NL + 1, Py.strip (line_of content pos)).
Proof.
  intros Hpos. pose proof (split_lookup_line content pos Hpos) as Hl.
  pose proof (lookup_lt_Some _ _ _ Hl) as Hlt.
  unfold locate, Py.count, Py.len.
  set (n := length (filter (λ x, x = NL) (take pos content))) in *.
  rewrite (proj2 (Z.leb_le _ _)) by lia.
  replace (Z.of_nat n + 1 - 1) with (Z.of_nat n) by lia.
  by rewrite (getitem_nat _ _ _ Hl).
Qed.

Lemma catalogue_severity entry :
  entry ∈ _initialize_patterns →
  p_severity entry.2 = HIGH ∨ p_severity entry.2 = MEDIUM
  ∨ p_severity entry.2 = LOW.
Proof.
  unfold _initialize_patterns. intros H.
  repeat (apply elem_of_cons in H as [->|H]; [simpl; auto|]).
  by apply elem_of_nil in H.
Qed.

Lemma increment_Some (d : gmap text Z) k v :
  d !! k = Some v → increment d k = Ok (<[k := v + 1]> d).
Proof. unfold increment. by intros ->. Qed.

Lemma count_severity_snoc sev l i :
  count_severity sev (l ++ [i])
  = count_severity sev l + (if decide (severity i = sev) then 1 else 0).
Proof.
  unfold count_severity, Py.len. rewrite filter_app, length_app.
  rewrite filter_cons, filter_nil. case_decide; simpl; lia.
Qed.

Ltac key_ne := vm_compute; discriminate.

Ltac lookup_keys :=
  rewrite ?lookup_insert_ne by key_ne; rewrite ?lookup_insert_eq.

(** Recording an issue of a catalogue severity keeps the counters right. *)
Lemma counters_record st i :
  counters_ok st →
  severity i = HIGH ∨ severity i = MEDIUM ∨ severity i = LOW →
  ∃ s1 s2,
    increment (stats st) (str "issues_found") = Ok s1
    ∧ increment s1 (Py.lower (severity i) ++ str "_severity") = Ok s2
    ∧ counters_ok {| issues := issues st ++ [i]; stats := s2;
                     console := console st |}.
Proof.
  intros (Hf & Ht & Hh & Hm & Hl & Hsum) Hsev.
  rewrite (increment_Some _ _ _ Ht).
  assert (HIGH ≠ MEDIUM ∧ HIGH ≠ LOW ∧ MEDIUM ≠ LOW
          ∧ MEDIUM ≠ HIGH ∧ LOW ≠ HIGH ∧ LOW ≠ MEDIUM)
    as (N1 & N2 & N3 & N4 & N5 & N6) by (repeat split; key_ne).
  assert (Py.len (issues st ++ [i]) = Py.len (issues st) + 1) as Hlen
    by (unfold Py.len; rewrite length_app; simpl; lia).
  destruct Hsev as [E|[E|E]]; rewrite E; eexists _, _; (split; [done|]).
  - change (Py.lower HIGH ++ str "_severity") with (str "high_severity").
    erewrite increment_Some by (lookup_keys; exact Hh).
    split; [done|]. unfold counters_ok; simpl.
    rewrite !count_severity_snoc, E, Hlen.
    repeat case_decide; try done.
    repeat split; lookup_keys; rewrite ?Hm, ?Hl; try done;
      try (f_equal; lia); lia.
  - change (Py.lower MEDIUM ++ str "_severity") with (str "medium_severity").
    erewrite increment_Some by (lookup_keys; exact Hm).
    split; [done|]. unfold counters_ok; simpl.
    rewrite !count_severity_snoc, E, Hlen.
    repeat case_decide; try done.
    repeat split; lookup_keys; rewrite ?Hh, ?Hl; try done;
      try (f_equal; lia); lia.
  - change (Py.lower LOW ++ str "_severity") with (str "low_severity").
    erewrite increment_Some by (lookup_keys; exact Hl).
    split; [done|]. unfold counters_ok; simpl.
    rewrite !count_severity_snoc, E, Hlen.
    repeat case_decide; try done.
    repeat split; lookup_keys; rewrite ?Hh, ?Hm; try done;
      try (f_equal; lia); lia.
Qed.

(** Every match that the scan reports starts at some position of the text,
    where the anchored attempt succeeds. *)
Lemma scan_from_spec icase r pre rest skip s e :
  (s, e) ∈ Re.scan_from icase r pre rest skip →
  ∃ a b, rest = a ++ b ∧ s = (length pre + length a)%nat
         ∧ Re.match_here icase r (rev a ++ pre) b = Some e.
Proof.
  revert pre skip. induction rest as [|c rest IH]; intros pre skip.
  - destruct skip; simpl; [|by intros ?%elem_of_nil].
    destruct (Re.match_here icase r pre []) eqn:E; [|by intros ?%elem_of_nil].
    intros [?|?%elem_of_nil]%elem_of_cons; [|done]. simplify_eq.
    exists [], []. simpl. split_and!; [done|lia|done].
  - assert (∀ n, (s, e) ∈ Re.scan_from icase r (c :: pre) rest n →
      ∃ a b, c :: rest = a ++ b ∧ s = (length pre + length a)%nat
             ∧ Re.match_here icase r (rev a ++ pre) b = Some e) as Hstep.
    { intros n (a & b & -> & -> & Hm)%IH. exists (c :: a), b. simpl.
      split_and!; [done|lia|]. by rewrite <- app_assoc. }
    destruct skip; simpl; [|apply Hstep].
    destruct (Re.match_here icase r pre (c :: rest)) eqn:E; [|apply Hstep].
    intros [?|?]%elem_of_cons; [|by eapply Hstep]. simplify_eq.
    exists [], (c :: rest). simpl. split_and!; [done|lia|done].
Qed.

Lemma finditer_spec icase r content s e :
  (s, e) ∈ Re.finditer icase r content →
  ∃ a b, content = a ++ b ∧ length a = s
         ∧ Re.match_here icase r (rev a) b = Some e.
Proof.
  intros (a & b & -> & -> & Hm)%scan_from_spec. exists a, b.
  by rewrite app_nil_r in Hm.
Qed.

Lemma finditer_start_le icase r content s e :
  (s, e) ∈ Re.finditer icase r content → (s ≤ length content)%nat.
Proof.
  intros (a & b & -> & <- & _)%finditer_spec. rewrite length_app. lia.
Qed.

Lemma scan_match_ok path content entry out files st m :
  entry ∈ _initialize_patterns → (m.1 ≤ length content)%nat →
  scanning out files st →
  ∃ st', scan_match path content (Py.split content NL) entry.1 entry.2 st m
         = Ok st'
    ∧ scanning out files st'
    ∧ issues st' = issues st ++
        (if _is_in_comment content (Z.of_nat m.1) then []
         else [finding path content entry m.1]).
Proof.
  intros Hentry Hm (Hok & Hout & Hfiles). unfold scan_match.
  rewrite locate_spec by done. simpl.
  destruct (_is_in_comment content (Z.of_nat m.1)).
  { exists st. by rewrite app_nil_r. }
  set (i := {| file_path := path |}).
  destruct (counters_record st i Hok) as (s1 & s2 & H1 & H2 & Hok').
  { by apply catalogue_severity. }
  rewrite H1. simpl. simpl in H2. rewrite H2. simpl.
  eexists. split; [done|]. split; [|done].
  split_and!; [done..|]. simpl.
  unfold increment in H1, H2.
  destruct (stats st !! str "issues_found") eqn:E1; [|done].
  simplify_eq.
  destruct (_ !! (Py.lower (p_severity entry.2) ++ str "_severity"))
    eqn:E2; [|done].
  simplify_eq.
  destruct (catalogue_severity entry Hentry) as [E|[E|E]]; rewrite E;
    by lookup_keys.
Qed.

Lemma scan_pattern_ok path content entry out files st :
  entry ∈ _initialize_patterns → scanning out files st →
  ∃ st', scan_pattern path content (Py.split content NL) st entry = Ok st'
    ∧ scanning out files st'
    ∧ issues st' = issues st ++ findings_of path content entry.
Proof.
  intros Hentry Hst. unfold scan_pattern, findings_of, kept.
  rewrite <- (bind_filter_fmap
    (λ s, _is_in_comment content (Z.of_nat s)) (finding path content entry)).
  rewrite list_fmap_bind.
  apply (for_each_collect (scanning out files) issues); [|done].
  intros s [a b] Hin Hs. simpl.
  apply (scan_match_ok path content entry out files s (a, b)); [done| |done].
  simpl. by eapply finditer_start_le.
Qed.

(** [_scan_sql_file] on a file that reads: it does not raise, the issues
    it appends are the findings of the catalogue on the text, nothing is
    printed, and the counters stay right. *)
Lemma scan_sql_file_readable fs path content st files :
  read_text fs path = Some content →
  counters_ok st → stats st !! str "files_scanned" = Some files →
  ∃ st', _scan_sql_file fs path st = Ok st'
    ∧ scanning (console st) (files + 1) st'
    ∧ issues st' = issues st ++ findings path content.
Proof.
  intros Hread Hok Hfiles. unfold _scan_sql_file.
  rewrite (increment_Some _ _ _ Hfiles), Hread.
  unfold mbind, result_bind. cbv beta iota zeta.
  set (st0 := {| issues := issues st |}).
  destruct (for_each_collect (scanning (console st) (files + 1)) issues
              (findings_of path content)
              (scan_pattern path content (Py.split content NL))
              _initialize_patterns st0) as (st' & Hrun & Hst' & Hissues).
  - intros s entry Hin Hs. by apply scan_pattern_ok.
  - destruct Hok as (Hf & Ht & Hh & Hm & Hl & Hsum).
    unfold scanning, counters_ok, st0; simpl.
    split_and!; lookup_keys; done.
  - by exists st'.
Qed.

(** [_scan_sql_file] on a file that does not read: a message, and no other
    change than the file counter. *)
Lemma scan_sql_file_unreadable fs path st files :
  read_text fs path = None →
  counters_ok st → stats st !! str "files_scanned" = Some files →
  ∃ st', _scan_sql_file fs path st = Ok st'
    ∧ scanning (console st ++ [ErrorReading path]) (files + 1) st'
    ∧ issues st' = issues st.
Proof.
  intros Hread Hok Hfiles. unfold _scan_sql_file.
  rewrite (increment_Some _ _ _ Hfiles), Hread. simpl.
  eexists. split; [done|]. split; [|done].
  destruct Hok as (Hf & Ht & Hh & Hm & Hl & Hsum).
  unfold scanning, counters_ok; simpl.
  split_and!; lookup_keys; done.
Qed.

Lemma init_counters_ok : counters_ok __init__.
Proof. vm_compute. split_and!; eauto. Qed.

Lemma init_files_scanned : stats __init__ !! str "files_scanned" = Some 0.
Proof. by vm_compute. Qed.

End scan_lemmas.

Ltac key_ne := vm_compute; discriminate.

Ltac lookup_keys :=
  rewrite ?lookup_insert_ne by key_ne; rewrite ?lookup_insert_eq.

Lemma lstrip_spec s :
  ∃ w, s = w ++ Py.lstrip s ∧ Forall (λ c, Py.isspace c = true) w
       ∧ ∀ c, head (Py.lstrip s) = Some c → Py.isspace c = false.
Proof.
  induction s as [|c s (w & Hs & Hw & Hh)]; simpl.
  { exists []. by split_and!. }
  destruct (Py.isspace c) eqn:E.
  - exists (c :: w). split_and!; [by rewrite Hs at 1|by constructor|done].
  - exists []. split_and!; [done|constructor|]. simpl. by intros ? [= <-].
Qed.

(** [strip] removes a run of whitespace at each end, and leaves a text that
    neither starts nor ends with whitespace. *)
Lemma strip_spec s :
  ∃ w1 w2, s = w1 ++ Py.strip s ++ w2
    ∧ Forall (λ c, Py.isspace c = true) w1
    ∧ Forall (λ c, Py.isspace c = true) w2
    ∧ (∀ c, head (Py.strip s) = Some c → Py.isspace c = false)
    ∧ (∀ c, last (Py.strip s) = Some c → Py.isspace c = false).
Proof.
  unfold Py.strip.
  destruct (lstrip_spec s) as (w1 & Hs & Hw1 & Hh1).
  destruct (lstrip_spec (rev (Py.lstrip s))) as (w2 & Hr & Hw2 & Hh2).
  set (u := Py.lstrip (rev (Py.lstrip s))) in *.
  assert (Py.lstrip s = rev u ++ rev w2) as Ht.
  { by rewrite <- rev_app_distr, <- Hr, rev_involutive. }
  exists w1, (rev w2). split_and!.
  - by rewrite <- Ht.
  - done.
  - apply Forall_forall. intros c Hc. apply (proj1 (elem_of_rev c w2)) in Hc.
    rewrite Forall_forall in Hw2. by apply Hw2.
  - intros c Hc. apply Hh1. rewrite Ht.
    destruct (rev u); [done|]. done.
  - intros c Hc. apply Hh2. rewrite <- (rev_involutive u).
    destruct (rev u) as [|d v] using rev_ind; [done|].
    rewrite last_snoc in Hc. rewrite rev_app_distr. simpl. done.
Qed.

(** ** The counters of a scan session *)

(** C9: after every invocation of [_scan_sql_file], starting from a new
    [SQLCostOptimizer] and for any files and file systems, the call
    returns and the counters agree with the accumulated findings:
    [issues_found] is their number, each severity counter is the number of
    findings of that severity, and [issues_found] is the sum of the three
    severity counters. *)
Theorem scan_counters_invariant (calls : list (gmap text node * text)) :
  ∃ st,
    for_each (λ st call, SQLCostOptimizer._scan_sql_file call.1 call.2 st)
             calls SQLCostOptimizer.__init__ = Ok st
    ∧ SQLCostOptimizer_spec.counters_ok st.
Proof.
  apply for_each_inv; [|apply init_counters_ok].
  intros st [fs path] _ Hok. simpl.
  destruct (proj1 Hok) as [files Hfiles].
  destruct (read_text fs path) as [content|] eqn:Hread.
  - destruct (scan_sql_file_readable fs path content st files)
      as (st' & -> & (Hok' & _) & _); eauto.
  - destruct (scan_sql_file_unreadable fs path st files)
      as (st' & -> & (Hok' & _) & _); eauto.
Qed.

(** ** Line number and line text of a finding *)

(** C7: for every text and every match of a catalogue pattern that is not
    discarded as a comment, the loop body appends one finding; its line
    number is the number of newline characters before the start of the
    match, plus one, and its [original_line] is the line around the start
    of the match with the whitespace at both ends removed. *)
Theorem finding_line_number_and_text path content entry st s e :
  entry ∈ SQLCostOptimizer._initialize_patterns →
  (s, e) ∈ Re.finditer true (SQLCostOptimizer.pattern entry.2) content →
  SQLCostOptimizer_spec.counters_ok st →
  SQLCostOptimizer._is_in_comment content (Z.of_nat s) = false →
  ∃ st' i w1 w2,
    SQLCostOptimizer.scan_match path content (Py.split content NL)
      entry.1 entry.2 st (s, e) = Ok st'
    ∧ SQLCostOptimizer.issues st' = SQLCostOptimizer.issues st ++ [i]
    ∧ SQLCostOptimizer.line_number i
      = Z.of_nat (length (filter (λ c, c = NL) (take s content))) + 1
    ∧ line_of content s = w1 ++ SQLCostOptimizer.original_line i ++ w2
    ∧ Forall (λ c, Py.isspace c = true) w1
    ∧ Forall (λ c, Py.isspace c = true) w2
    ∧ (∀ c, head (SQLCostOptimizer.original_line i) = Some c
            → Py.isspace c = false)
    ∧ (∀ c, last (SQLCostOptimizer.original_line i) = Some c
            → Py.isspace c = false).
Proof.
  intros Hentry Hm Hok Hcomment.
  destruct (proj1 Hok) as [files Hfiles].
  destruct (scan_match_ok path content entry (SQLCostOptimizer.console st)
              files st (s, e)) as (st' & Hrun & _ & Hissues).
  { done. } { simpl. by eapply finditer_start_le. } { by split_and!. }
  simpl in Hissues. rewrite Hcomment in Hissues.
  destruct (strip_spec (line_of content s)) as (w1 & w2 & ? & ? & ? & ? & ?).
  by exists st', (SQLCostOptimizer_spec.finding path content entry s), w1, w2.
Qed.

Lemma finding_line_number_and_text_witness :
  let content := str "SELECT 1" ++ [NL] ++ str "  UNION SELECT 2  " in
  let entry := (str "union_instead_union_all",
                {| SQLCostOptimizer.pattern :=
                     SQLCostOptimizer.re_union_instead_union_all;
                   SQLCostOptimizer.p_severity := SQLCostOptimizer.MEDIUM;
                   SQLCostOptimizer.p_description :=
                     str "UNION performs unnecessary deduplication";
                   SQLCostOptimizer.p_cost_impact :=
                     str "20-100% increased processing time";
                   SQLCostOptimizer.p_fix_template := text_lines [
                     "-- Use UNION ALL if duplicates are acceptable";
                     "UNION ALL"] |}) in
  ∃ st' i,
    SQLCostOptimizer.scan_match (str "q.sql") content (Py.split content NL)
      entry.1 entry.2 SQLCostOptimizer.__init__ (11%nat, 17%nat) = Ok st'
    ∧ SQLCostOptimizer.issues st' = [i]
    ∧ SQLCostOptimizer.line_number i = 2
    ∧ SQLCostOptimizer.original_line i = str "UNION SELECT 2".
Proof.
  intros content entry.
  destruct (finding_line_number_and_text (str "q.sql") content entry
              SQLCostOptimizer.__init__ 11 17)
    as (st' & i & w1 & w2 & Hrun & Hissues & Hline & Htext & _).
  - unfold entry, SQLCostOptimizer._initialize_patterns.
    do 4 right. left.
  - vm_compute. left.
  - apply init_counters_ok.
  - vm_compute. reflexivity.
  - exists st', i. split; [exact Hrun|]. split; [exact Hissues|].
    split; [exact Hline|].
    vm_compute in Hrun. injection Hrun as <-.
    vm_compute in Hissues. injection Hissues as <-. reflexivity.
Defined.

(** ** Lemmas on the fixer of [SQLCostOptimizer] *)

Section fix_lemmas.

Import SQLCostOptimizer SQLCostOptimizer_spec.

Lemma infix_refl (t : text) : infix t t.
Proof. exists [], []. by rewrite app_nil_r. Qed.

Lemma infix_trans (a b c : text) : infix a b → infix b c → infix a c.
Proof.
  intros (a1 & a2 & ->) (b1 & b2 & ->). exists (b1 ++ a1), (a2 ++ b2).
  by rewrite <- !app_assoc.
Qed.


(** The replacement text holds the line it replaces. *)
Lemma replacement_infix i original_line :
  infix original_line (replacement i original_line).
Proof.
  unfold replacement, commented_original.
  exists (fix_comment i ++ str "-- ORIGINAL: "),
    ((if Py.endswith original_line [NL] then [] else [NL]) ++ suggested i).
  by rewrite <- !app_assoc.
Qed.


Lemma fix_issue_length lines i lines' :
  fix_issue lines i = Ok lines' → length lines' = length lines.
Proof.
  unfold fix_issue. destruct (Py.len lines <=? line_number i - 1); [congruence|].
  destruct (getitem lines (line_number i - 1)) as [o|]; [|done]. simpl.
  unfold setitem. destruct (list_index lines (line_number i - 1)); [|done].
  simpl. intros [= <-]. apply length_insert.
Qed.

(** One step of the loop, for a 1-based line number: it does not raise, it
    touches no other line than its own, and the line it replaces stays in
    the replacement. *)
Lemma fix_issue_ok lines i :
  1 ≤ line_number i →
  ∃ lines', fix_issue lines i = Ok lines'
    ∧ length lines' = length lines
    ∧ (∀ j, line_number i ≠ Z.of_nat j + 1 → lines' !! j = lines !! j)
    ∧ (∀ j l, lines !! j = Some l → ∃ l', lines' !! j = Some l' ∧ infix l l').
Proof.
  intros Hpos. unfold fix_issue.
  destruct (Z.leb_spec (Py.len lines) (line_number i - 1)) as [Hge|Hlt].
  { exists lines. split_and!; [done..|]. intros j l ->. eauto using infix_refl. }
  unfold Py.len in Hlt.
  set (n := Z.to_nat (line_number i - 1)).
  assert (line_number i - 1 = Z.of_nat n) as -> by lia.
  assert (n < length lines)%nat as Hn by lia.
  destruct (lookup_lt_is_Some_2 lines n Hn) as [o Ho].
  rewrite (getitem_nat _ _ _ Ho). simpl. rewrite setitem_nat by done.
  eexists. split_and!; [done|apply length_insert| |].
  - intros j Hj. apply list_lookup_insert_ne. lia.
  - intros j l Hl. destruct (decide (n = j)) as [<-|Hne].
    + rewrite list_lookup_insert_eq by done. simplify_eq.
      eauto using replacement_infix.
    + rewrite list_lookup_insert_ne by done. eauto using infix_refl.
Qed.

Lemma insert_desc_perm x l : insert_desc x l ≡ₚ x :: l.
Proof.
  induction l as [|y l IH]; simpl; [done|].
  destruct (line_number x <? line_number y); [|done].
  by rewrite IH, Permutation_swap.
Qed.

Lemma sort_desc_perm l : sort_desc l ≡ₚ l.
Proof.
  induction l as [|x l IH]; simpl; [done|].
  by rewrite insert_desc_perm, IH.
Qed.

Lemma insert_desc_sorted x l :
  StronglySorted line_ge l → StronglySorted line_ge (insert_desc x l).
Proof.
  induction 1 as [|y l Hs IH Hy]; simpl.
  { repeat constructor. }
  destruct (Z.ltb_spec (line_number x) (line_number y)).
  - constructor; [done|]. rewrite insert_desc_perm.
    constructor; [unfold line_ge; lia|done].
  - constructor; [by constructor|].
    constructor; [done|].
    eapply Forall_impl; [done|]. unfold line_ge. simpl. intros; lia.
Qed.

Lemma sort_desc_sorted l : StronglySorted line_ge (sort_desc l).
Proof.
  induction l as [|x l IH]; simpl; [constructor|].
  by apply insert_desc_sorted.
Qed.

Lemma insert_desc_head x l :
  Forall (λ z, line_number z ≤ line_number x) l → insert_desc x l = x :: l.
Proof.
  destruct 1 as [|y l Hy _]; simpl; [done|].
  by rewrite (proj2 (Z.ltb_ge _ _)) by lia.
Qed.

(** The sort is stable, so it commutes with the removal of findings. *)
Lemma filter_insert_desc (P : SQLIssue → Prop) `{!∀ i, Decision (P i)} x l :
  StronglySorted line_ge l →
  filter P (insert_desc x l)
  = if decide (P x) then insert_desc x (filter P l) else filter P l.
Proof.
  induction 1 as [|y l Hs IH Hy]; simpl.
  { rewrite filter_cons. by case_decide. }
  destruct (Z.ltb_spec (line_number x) (line_number y)) as [Hlt|Hge].
  - rewrite !filter_cons, IH. repeat case_decide; simpl; try done.
    by rewrite (proj2 (Z.ltb_lt _ _)) by done.
  - rewrite (filter_cons _ x). case_decide; [|done].
    rewrite insert_desc_head; [done|].
    apply Forall_forall. intros z [_ Hz]%list_elem_of_filter.
    apply elem_of_cons in Hz as [->|Hz]; [lia|].
    rewrite Forall_forall in Hy. specialize (Hy z Hz). unfold line_ge in Hy.
    lia.
Qed.

Lemma filter_sort_desc (P : SQLIssue → Prop) `{!∀ i, Decision (P i)} l :
  filter P (sort_desc l) = sort_desc (filter P l).
Proof.
  induction l as [|x l IH]; simpl; [done|].
  rewrite filter_insert_desc by apply sort_desc_sorted.
  rewrite filter_cons, IH. by case_decide.
Qed.



End fix_lemmas.

Section fix_loop.

Import SQLCostOptimizer SQLCostOptimizer_spec.

(** The loop over findings with 1-based line numbers. *)
Lemma for_each_fix_ok l lines :
  (∀ i, i ∈ l → 1 ≤ line_number i) →
  ∃ out, for_each fix_issue l lines = Ok out
    ∧ length out = length lines
    ∧ (∀ j, (∀ i, i ∈ l → line_number i ≠ Z.of_nat j + 1)
            → out !! j = lines !! j)
    ∧ (∀ j t, lines !! j = Some t → ∃ t', out !! j = Some t' ∧ infix t t').
Proof.
  revert lines. induction l as [|i l IH]; intros lines Hl; simpl.
  { exists lines. split_and!; [done..|]. intros j t ->. eauto using infix_refl. }
  destruct (fix_issue_ok lines i) as (lines1 & -> & Hlen1 & Hframe1 & Hin1).
  { apply Hl. left. }
  simpl. destruct (IH lines1) as (out & -> & Hlen & Hframe & Hin).
  { intros ??; apply Hl. by right. }
  exists out. split_and!; [done|congruence| |].
  - intros j Hj. rewrite Hframe, Hframe1; [done| |].
    + apply Hj. left.
    + intros ??; apply Hj. by right.
  - intros j t Ht. destruct (Hin1 j t Ht) as (t1 & Ht1 & Hi1).
    destruct (Hin j t1 Ht1) as (t' & Ht' & Hi'). eauto using infix_trans.
Qed.

End fix_loop.

(** ** The backup *)

(** C1 fails on [SQLCostOptimizer._fix_file_issues]: the backup is written
    from the lines after the loop has replaced them.  On a file with the one
    line below and the finding that the scan gives for it, the backup holds
    the rewritten text, the same as the file, and not the original. *)
Theorem backup_holds_fixed_content :
  let original := str "SELECT * FROM customers;" ++ [NL] in
  let fixed := text_lines [
    "-- COST OPTIMIZATION FIX: Query on large table without WHERE clause";
    "-- Original line commented below, optimized version added";
    "-- Cost Impact: Full table scan - extremely expensive";
    "-- ORIGINAL: SELECT * FROM customers;"; ""] in
  let fs : gmap text node := {[ str "q.sql" := Data original ]} in
  let backup_path := str "q.sql.backup.20240101_120000" in
  (st ← SQLCostOptimizer._scan_sql_file fs (str "q.sql")
          SQLCostOptimizer.__init__;
   r ← SQLCostOptimizer._fix_file_issues fs (str "20240101_120000")
         (str "q.sql") (SQLCostOptimizer.issues st) [];
   Ok (r.1 !! backup_path, r.1 !! str "q.sql", r.2))
  = Ok (Some (Data fixed), Some (Data fixed),
        [SQLCostOptimizer.Fixed 1 (str "q.sql");
         SQLCostOptimizer.BackupCreated backup_path])
  ∧ fixed ≠ original.
Proof.
  intros original fixed fs backup_path. split; [vm_compute; reflexivity|].
  intros H. apply (f_equal length) in H. vm_compute in H. discriminate H.
Qed.

(** ** The wildcard rule *)

(** C3 fails on the catalogue of [SQLCostOptimizer]: the pattern of
    [select_star] ends in [\b] after the asterisk, which asks for a word
    character right after it, so the pattern matches nowhere in
    [SELECT * FROM customers;] and the scan reports no wildcard finding. *)
Theorem select_star_misses_plain_wildcard :
  let content := str "SELECT * FROM customers;" in
  let fs : gmap text node := {[ str "q.sql" := Data content ]} in
  Re.finditer true SQLCostOptimizer.re_select_star content = []
  ∧ (λ st, filter (λ i, SQLCostOptimizer.issue_type i = str "select_star")
                  (SQLCostOptimizer.issues st))
      <$> SQLCostOptimizer._scan_sql_file fs (str "q.sql")
            SQLCostOptimizer.__init__
    = Ok [].
Proof.
  intros content fs. split; vm_compute; reflexivity.
Qed.

(** The line scanner of [optimizer_2.py] reports the wildcard on the same
    text, and the missing [WHERE] with it. *)
Lemma check_file_reports_plain_wildcard :
  let content := str "SELECT * FROM customers;" in
  let fs : gmap text node := {[ str "q.sql" := Data content ]} in
  (λ i, (SqlOptimizer.type i, SqlOptimizer.line i, SqlOptimizer.severity i))
    <$> SqlOptimizer.check_file fs (str "q.sql")
  = [(str "select_star", 1, str "HIGH"); (str "missing_where", 1, str "HIGH")].
Proof. vm_compute. reflexivity. Qed.

(** C6 fails on [SQLCostOptimizer] for the same reason as C3: the scan of
    a file that holds exactly [SELECT * FROM customers;] appends one
    finding, the missing [WHERE] on a large table, at line 1 with severity
    HIGH, and no wildcard finding. *)
Theorem scan_example_has_one_finding :
  let content := str "SELECT * FROM customers;" in
  let fs : gmap text node := {[ str "q.sql" := Data content ]} in
  (λ st, (λ i, (SQLCostOptimizer.issue_type i, SQLCostOptimizer.line_number i,
                SQLCostOptimizer.severity i)) <$> SQLCostOptimizer.issues st)
    <$> SQLCostOptimizer._scan_sql_file fs (str "q.sql")
          SQLCostOptimizer.__init__
  = Ok [(str "missing_where_large_table", 1, SQLCostOptimizer.HIGH)].
Proof.
  intros content fs. vm_compute. reflexivity.
Qed.

(** ** Files that do not read, and a root that does not exist *)

Section scan_directory_lemmas.

Import SQLCostOptimizer SQLCostOptimizer_spec.

Lemma scan_sql_file_total fs path st files :
  scanning (console st) files st →
  ∃ st', _scan_sql_file fs path st = Ok st'
    ∧ scanning (console st ++ file_messages fs path) (files + 1) st'
    ∧ issues st' = issues st ++ file_findings fs path.
Proof.
  intros (Hok & _ & Hfiles). unfold file_messages, file_findings.
  destruct (read_text fs path) as [content|] eqn:Hread.
  - rewrite app_nil_r. by eapply scan_sql_file_readable.
  - rewrite app_nil_r. by eapply scan_sql_file_unreadable.
Qed.

(** The loop of [scan_directory] goes through all the files. *)
Lemma scan_files_loop fs sql_files st files :
  scanning (console st) files st →
  ∃ st', for_each (λ st f, _scan_sql_file fs f st) sql_files st = Ok st'
    ∧ scanning (console st ++ (sql_files ≫= file_messages fs))
               (files + Py.len sql_files) st'
    ∧ issues st' = issues st ++ (sql_files ≫= file_findings fs).
Proof.
  revert st files. induction sql_files as [|f l IH]; intros st files Hst.
  { exists st. simpl. rewrite !app_nil_r. split; [done|]. split; [|done].
    destruct Hst as (? & ? & ?). split_and!; [done..|].
    by replace (files + Py.len []) with files by (unfold Py.len; simpl; lia). }
  simpl. destruct (scan_sql_file_total fs f st files Hst)
    as (st1 & -> & Hst1 & Hi1). simpl.
  destruct (IH st1 (files + 1)) as (st2 & -> & Hst2 & Hi2).
  { destruct Hst1 as (? & ? & ?). by split_and!. }
  exists st2. split; [done|].
  destruct Hst1 as (_ & Hc1 & _). rewrite Hc1 in Hst2.
  rewrite Hi2, Hi1, <- !app_assoc. split; [|done].
  replace (files + Py.len (f :: l)) with (files + 1 + Py.len l)
    by (unfold Py.len; simpl length; lia).
  by rewrite <- app_assoc in Hst2.
Qed.

Lemma generate_summary_ok st files :
  scanning (console st) files st →
  _generate_summary st
  = Ok (print st
          (ScanSummary files (Py.len (issues st))
             (count_severity HIGH (issues st))
             (count_severity MEDIUM (issues st))
             (count_severity LOW (issues st)))).
Proof.
  intros ((_ & Ht & Hh & Hm & Hl & _) & _ & Hf).
  unfold _generate_summary, stat. by rewrite Hf, Ht, Hh, Hm, Hl.
Qed.

End scan_directory_lemmas.

(** C8, as the two scripts have it.  In [sql_cost_optimizer.py], a root
    that does not exist makes [scan_directory] raise [FileNotFoundError]
    before anything else; otherwise the call returns, every file is
    scanned, each file that does not read leaves one [Error reading]
    message and no finding, and the findings of the files that read are
    all there, also after a file that did not read.  In [optimizer_2.py],
    [check_file] gives the empty list for a file that does not read, and
    [scan_files] prints nothing about it. *)
Theorem scan_skips_unreadable_files tree fs root st files :
  SQLCostOptimizer_spec.scanning (SQLCostOptimizer.console st) files st →
  (tree !! root = None →
     SQLCostOptimizer.scan_directory tree fs root st = Raise FileNotFoundError)
  ∧ (∀ sql_files, tree !! root = Some sql_files →
      ∃ st' summary,
        SQLCostOptimizer.scan_directory tree fs root st = Ok st'
        ∧ SQLCostOptimizer.issues st'
          = SQLCostOptimizer.issues st
            ++ (sql_files ≫= SQLCostOptimizer_spec.file_findings fs)
        ∧ SQLCostOptimizer.stats st' !! str "files_scanned"
          = Some (files + Py.len sql_files)
        ∧ SQLCostOptimizer.console st'
          = SQLCostOptimizer.console st
            ++ [SQLCostOptimizer.FoundFiles (length sql_files)]
            ++ (sql_files ≫= SQLCostOptimizer_spec.file_messages fs)
            ++ [summary]
        ∧ ∀ path, path ∈ sql_files → read_text fs path = None →
            SQLCostOptimizer.ErrorReading path ∈ SQLCostOptimizer.console st')
  ∧ (∀ path results out,
      read_text fs path = None →
      SqlOptimizer.check_file fs path = []
      ∧ SqlOptimizer.scan_files fs [path] results out
        = (results, out ++ [SqlOptimizer.FoundFiles 1])).
Proof.
  intros Hst. split_and!.
  - intros Hroot. unfold SQLCostOptimizer.scan_directory. by rewrite Hroot.
  - intros sql_files Hroot. unfold SQLCostOptimizer.scan_directory.
    rewrite Hroot.
    set (st0 := SQLCostOptimizer.print st _).
    destruct (scan_files_loop fs sql_files st0 files)
      as (st1 & Hrun & Hst1 & Hi1).
    { destruct Hst as (? & ? & ?). by split_and!. }
    unfold mbind at 1, result_bind. rewrite Hrun.
    assert (SQLCostOptimizer_spec.scanning (SQLCostOptimizer.console st1)
              (files + Py.len sql_files) st1) as Hst1'.
    { destruct Hst1 as (? & ? & ?). by split_and!. }
    rewrite (generate_summary_ok _ _ Hst1').
    eexists _, _. split; [done|]. simpl.
    destruct Hst1 as (_ & Hc1 & Hf1). rewrite Hc1. unfold st0. simpl.
    split_and!; [done|done|by rewrite <- !app_assoc|].
    intros path Hin Hread. rewrite !elem_of_app. left. right.
    apply list_elem_of_bind. exists path. split; [|done].
    unfold SQLCostOptimizer_spec.file_messages. rewrite Hread. left.
  - intros path results out Hread.
    unfold SqlOptimizer.scan_files, SqlOptimizer.check_file. simpl.
    by rewrite Hread.
Qed.

Lemma scan_skips_unreadable_files_witness :
  let tree : gmap text (list text) :=
    {[ str "etl" := [str "etl/a.sql"; str "etl/b.sql"] ]} in
  let fs : gmap text node :=
    {[ str "etl/a.sql" := Locked;
       str "etl/b.sql" := Data (str "SELECT 1 ORDER BY 1;") ]} in
  SQLCostOptimizer.scan_directory tree fs (str "nowhere")
    SQLCostOptimizer.__init__ = Raise FileNotFoundError
  ∧ ∃ st',
      SQLCostOptimizer.scan_directory tree fs (str "etl")
        SQLCostOptimizer.__init__ = Ok st'
      ∧ SQLCostOptimizer.ErrorReading (str "etl/a.sql")
          ∈ SQLCostOptimizer.console st'
      ∧ SQLCostOptimizer.stats st' !! str "files_scanned" = Some 2.
Proof.
  intros tree fs.
  assert (SQLCostOptimizer_spec.scanning
            (SQLCostOptimizer.console SQLCostOptimizer.__init__) 0
            SQLCostOptimizer.__init__) as Hinit.
  { split; [apply init_counters_ok|]. split; [reflexivity|].
    apply init_files_scanned. }
  destruct (scan_skips_unreadable_files tree fs (str "nowhere") _ 0 Hinit)
    as (Hraise & _ & _).
  split; [apply Hraise; vm_compute; reflexivity|].
  destruct (scan_skips_unreadable_files tree fs (str "etl") _ 0 Hinit)
    as (_ & Hscan & _).
  destruct (Hscan [str "etl/a.sql"; str "etl/b.sql"])
    as (st' & summary & Hrun & _ & Hfiles & _ & Hmsg).
  { vm_compute. reflexivity. }
  exists st'. split; [exact Hrun|]. split; [|exact Hfiles].
  apply Hmsg; [left|vm_compute; reflexivity].
Defined.

(** C8 fails as stated on [optimizer_2.py]: a file that does not read is
    dropped by [check_file] without any message; the console of
    [scan_files] holds the file count only. *)
Lemma check_file_swallows_read_error :
  let fs : gmap text node := {[ str "etl/a.sql" := Locked ]} in
  read_text fs (str "etl/a.sql") = None
  ∧ SqlOptimizer.scan_files fs [str "etl/a.sql"] [] []
    = ([], [SqlOptimizer.FoundFiles 1]).
Proof. split; vm_compute; reflexivity. Qed.

(** ** Where a match can start *)

Section first_character.

Import Re Re_analysis.

Context (icase : bool).

Lemma transparent_run r pre rest k e :
  transparent r = true → run icase r pre rest k = Some e →
  k pre rest = Some e.
Proof.
  destruct r; try done; simpl; intros _.
  - by destruct (at_boundary pre rest).
  - by destruct (at_end rest).
  - by destruct (run icase r pre rest (found)).
  - by destruct (run icase r pre rest (found)).
Qed.

Lemma first_ok_sound r pre rest k e :
  run icase r pre rest k = Some e → first_ok icase r (head rest) = true.
Proof.
  revert pre rest k.
  induction r as [|s|cl|cl| | |r1 IH1 r2 IH2|r1 IH1 r2 IH2|r IH|r IH];
    intros pre rest k; simpl; try done.
  - destruct s as [|p s]; [done|]. simpl.
    destruct rest as [|c rest]; [done|]. simpl.
    by destruct (char_eq icase p c).
  - destruct rest as [|c rest]; [done|]. simpl.
    by destruct (in_class cl c).
  - intros Hrun. rewrite (IH1 _ _ _ Hrun). simpl.
    destruct (transparent r1) eqn:Ht; [|done].
    apply (transparent_run _ _ _ _ _ Ht) in Hrun. simpl in Hrun.
    exact (IH2 _ _ _ Hrun).
  - destruct (run icase r1 pre rest k) eqn:E1.
    + intros [= ->]. by rewrite (IH1 _ _ _ E1).
    + intros Hrun. rewrite (IH2 _ _ _ Hrun). by destruct (first_ok _ r1 _).
Qed.

(** What stands at the start of a reported match. *)
Lemma finditer_first_ok r content s e :
  (s, e) ∈ finditer icase r content →
  first_ok icase r (content !! s) = true.
Proof.
  intros (a & b & -> & <- & Hm)%finditer_spec.
  apply first_ok_sound in Hm.
  rewrite lookup_app_r by done. rewrite Nat.sub_diag.
  by destruct b.
Qed.

End first_character.

(** A match of a catalogue pattern starts inside the text, at a character
    that is none of [*], [/] and [-]. *)
Lemma catalogue_match_start entry content s e :
  entry ∈ SQLCostOptimizer._initialize_patterns →
  (s, e) ∈ Re.finditer true (SQLCostOptimizer.pattern entry.2) content →
  ∃ c, content !! s = Some c ∧ c ≠ "*"%char ∧ c ≠ "/"%char ∧ c ≠ "-"%char.
Proof.
  intros Hentry Hm. apply finditer_first_ok in Hm.
  assert (∀ o, Re_analysis.first_ok true (SQLCostOptimizer.pattern entry.2) o
               = true →
            o ≠ None ∧ o ≠ Some "*"%char ∧ o ≠ Some "/"%char
            ∧ o ≠ Some "-"%char) as Hfirst.
  { intros o Ho. unfold SQLCostOptimizer._initialize_patterns in Hentry.
    repeat (apply elem_of_cons in Hentry as [->|Hentry];
      [split_and!; intros ->; vm_compute in Ho; discriminate Ho|]).
    by apply elem_of_nil in Hentry. }
  destruct (Hfirst _ Hm) as (H0 & H1 & H2 & H3).
  destruct (content !! s) as [c|]; [|done].
  exists c. split_and!; [done|congruence..].
Qed.

(** ** [find] and [rfind] *)

Lemma startswith_take s sub :
  Py.startswith s sub = true ↔ take (length sub) s = sub.
Proof.
  revert s. induction sub as [|p sub IH]; intros s.
  { by destruct s. }
  destruct s as [|c s]; simpl; [done|].
  rewrite andb_true_iff, ascii_eqb_true, IH. split.
  - by intros [-> ->].
  - by intros [= -> ->].
Qed.

Lemma occurs_0 sub s : occurs sub s 0 ↔ Py.startswith s sub = true.
Proof. unfold occurs. by rewrite drop_0, startswith_take. Qed.

Lemma occurs_S sub c s k : occurs sub (c :: s) (S k) ↔ occurs sub s k.
Proof. done. Qed.

Lemma occurs_bound sub s k :
  sub ≠ [] → occurs sub s k → (k + length sub ≤ length s)%nat.
Proof.
  unfold occurs. intros Hsub H. apply (f_equal length) in H.
  rewrite length_take, length_drop in H.
  assert (length sub ≠ 0)%nat by by destruct sub. lia.
Qed.

Lemma occurs_take sub s n k :
  sub ≠ [] →
  occurs sub (take n s) k ↔ occurs sub s k ∧ (k + length sub ≤ n)%nat.
Proof.
  intros Hsub. unfold occurs. split.
  - intros H. pose proof (occurs_bound _ _ _ Hsub H) as Hb.
    rewrite length_take in Hb. split; [|lia].
    rewrite <- H at 2. rewrite skipn_firstn_comm, take_take. f_equal. lia.
  - intros [H Hn]. rewrite skipn_firstn_comm, take_take.
    rewrite <- H at 2. f_equal. lia.
Qed.

Lemma occurs_drop sub s a k : occurs sub (drop a s) k ↔ occurs sub s (a + k).
Proof. unfold occurs. by rewrite drop_drop. Qed.

Lemma occurs_two a b s k :
  occurs [a; b] s k → s !! k = Some a ∧ s !! S k = Some b.
Proof.
  unfold occurs. simpl. intros H.
  rewrite <- (Nat.add_0_r k) at 1. rewrite <- (Nat.add_1_r k).
  rewrite <- !lookup_drop.
  destruct (drop k s) as [|x [|y l]]; simpl in *; by simplify_eq.
Qed.

Lemma occurs_one a s k : occurs [a] s k ↔ s !! k = Some a.
Proof.
  unfold occurs. simpl. rewrite <- (Nat.add_0_r k) at 2.
  rewrite <- lookup_drop. destruct (drop k s) as [|x l]; simpl; [done|].
  rewrite take_0. split; by intros [= ->].
Qed.

Lemma find_from_Some sub s off j :
  Py.find_from sub s off = Some j →
  (off ≤ j)%nat ∧ occurs sub s (j - off)
  ∧ ∀ k, (k < j - off)%nat → ¬ occurs sub s k.
Proof.
  revert off. induction s as [|c s IH]; intros off; rewrite find_from_unfold.
  - destruct (Py.startswith [] sub) eqn:E; [|done]. intros [= <-].
    rewrite Nat.sub_diag. split_and!; [done|by apply occurs_0|lia].
  - destruct (Py.startswith (c :: s) sub) eqn:E.
    + intros [= <-]. rewrite Nat.sub_diag.
      split_and!; [done|by apply occurs_0|lia].
    + intros (Hle & Hocc & Hmin)%IH.
      replace (j - off)%nat with (S (j - S off)) by lia.
      split_and!; [lia|by apply occurs_S|].
      intros [|k] Hk.
      * rewrite occurs_0. congruence.
      * rewrite occurs_S. apply Hmin. lia.
Qed.

Lemma find_from_None sub s off :
  Py.find_from sub s off = None → ∀ k, ¬ occurs sub s k.
Proof.
  revert off. induction s as [|c s IH]; intros off; rewrite find_from_unfold.
  - destruct (Py.startswith [] sub) eqn:E; [done|]. intros _ k.
    unfold occurs. rewrite drop_nil, take_nil. intros <-. done.
  - destruct (Py.startswith (c :: s) sub) eqn:E; [done|].
    intros Hn [|k].
    + rewrite occurs_0. congruence.
    + rewrite occurs_S. by eapply IH.
Qed.

Lemma rfind_from_cons sub c s off :
  Py.rfind_from sub (c :: s) off
  = match Py.rfind_from sub s (S off) with
    | Some j => Some j
    | None => if Py.startswith (c :: s) sub then Some off else None
    end.
Proof. done. Qed.

Lemma rfind_from_None sub s off :
  sub ≠ [] → Py.rfind_from sub s off = None → ∀ k, ¬ occurs sub s k.
Proof.
  intros Hsub. revert off. induction s as [|d s IH]; intros off.
  - intros _ k. unfold occurs. by rewrite drop_nil, take_nil.
  - rewrite rfind_from_cons.
    destruct (Py.rfind_from sub s (S off)) eqn:E'; [done|].
    destruct (Py.startswith (d :: s) sub) eqn:Es; [done|].
    intros _ [|k].
    + rewrite occurs_0. congruence.
    + rewrite occurs_S. by eapply IH.
Qed.

Lemma rfind_from_Some sub s off j :
  sub ≠ [] → Py.rfind_from sub s off = Some j →
  (off ≤ j)%nat ∧ occurs sub s (j - off)
  ∧ ∀ k, (j - off < k)%nat → ¬ occurs sub s k.
Proof.
  intros Hsub. revert off. induction s as [|c s IH]; intros off.
  { destruct sub; done. }
  rewrite rfind_from_cons.
  destruct (Py.rfind_from sub s (S off)) as [j'|] eqn:E.
  - intros [= ->]. apply IH in E as (Hle & Hocc & Hmax).
    replace (j - off)%nat with (S (j - S off)) by lia.
    split_and!; [lia|by apply occurs_S|].
    intros [|k] Hk; [lia|]. rewrite occurs_S. apply Hmax. lia.
  - pose proof (rfind_from_None _ _ _ Hsub E) as Hnone.
    destruct (Py.startswith (c :: s) sub) eqn:Es; [|done].
    intros [= <-]. rewrite Nat.sub_diag.
    split_and!; [done|by apply occurs_0|].
    intros [|k] Hk; [lia|]. rewrite occurs_S. apply Hnone.
Qed.

Lemma clip_nat n i : (i ≤ n)%nat → Py.clip n (Z.of_nat i) = i.
Proof.
  intros H. unfold Py.clip.
  destruct (Z.ltb_spec (Z.of_nat i) 0); [lia|]. rewrite Nat2Z.id. lia.
Qed.

(** [s.rfind(sub, 0, stop)]: the last occurrence that ends by [stop]. *)
Lemma rfind_spec s sub stop :
  sub ≠ [] → (stop ≤ length s)%nat →
  (Py.rfind s sub (Z.of_nat stop) = -1
   ∧ ∀ k, (k + length sub ≤ stop)%nat → ¬ occurs sub s k)
  ∨ ∃ j, Py.rfind s sub (Z.of_nat stop) = Z.of_nat j
         ∧ (j + length sub ≤ stop)%nat ∧ occurs sub s j
         ∧ ∀ k, (j < k)%nat → (k + length sub ≤ stop)%nat → ¬ occurs sub s k.
Proof.
  intros Hsub Hstop. unfold Py.rfind. rewrite clip_nat by done.
  destruct (Py.rfind_from sub (take stop s) 0) as [j|] eqn:E.
  - right. exists j.
    apply rfind_from_Some in E as (_ & Hocc & Hmax); [|done].
    rewrite Nat.sub_0_r in Hocc, Hmax.
    apply occurs_take in Hocc as [Hocc Hj]; [|done].
    split_and!; [done..|]. intros k Hk Hks Hoc. apply (Hmax k Hk).
    by apply occurs_take.
  - left. split; [done|]. intros k Hk Hoc.
    apply (rfind_from_None _ _ _ Hsub E k). by apply occurs_take.
Qed.

(** [s.find(sub, start)]: the first occurrence from [start] on. *)
Lemma find_spec s sub start :
  (start ≤ length s)%nat →
  (Py.find s sub (Z.of_nat start) = -1
   ∧ ∀ k, (start ≤ k)%nat → ¬ occurs sub s k)
  ∨ ∃ j, Py.find s sub (Z.of_nat start) = Z.of_nat j
         ∧ (start ≤ j)%nat ∧ occurs sub s j
         ∧ ∀ k, (start ≤ k < j)%nat → ¬ occurs sub s k.
Proof.
  intros Hstart. unfold Py.find.
  destruct (Z.ltb_spec (Z.of_nat (length s)) (Z.of_nat start)); [lia|].
  rewrite clip_nat by done.
  destruct (Py.find_from sub (drop start s) start) as [j|] eqn:E.
  - right. exists j. apply find_from_Some in E as (Hle & Hocc & Hmin).
    apply occurs_drop in Hocc.
    replace (start + (j - start))%nat with j in Hocc by lia.
    split_and!; [done..|]. intros k Hk Hoc. apply (Hmin (k - start)%nat).
    + lia.
    + apply occurs_drop. by replace (start + (k - start))%nat with k by lia.
  - left. split; [done|]. intros k Hk Hoc.
    apply (find_from_None _ _ _ E (k - start)%nat).
    apply occurs_drop. by replace (start + (k - start))%nat with k by lia.
Qed.

(** An occurrence makes [in] true and bounds the index that [find] gives. *)
Lemma find_first s sub k :
  occurs sub s k →
  ∃ f, (f ≤ k)%nat ∧ Py.contains s sub = true
       ∧ Py.find s sub 0 = Z.of_nat f.
Proof.
  intros Hocc. unfold Py.contains.
  destruct (find_spec s sub 0) as [[_ Hnone]|(f & Hf & _ & _ & Hmin)]; [lia| |].
  { destruct (Hnone k); [lia|done]. }
  exists f. split_and!; [|clear Hf|done].
  - destruct (decide (f ≤ k)%nat); [done|]. destruct (Hmin k); [lia|done].
  - destruct (Py.find_from sub s 0) eqn:E; [done|].
    by destruct (find_from_None _ _ _ E k).
Qed.

(** ** Comment suppression *)

Section comment_lemmas.

Import SQLCostOptimizer SQLCostOptimizer_spec.

Lemma slice_line (content : text) (ls pos : nat) stop :
  (ls ≤ pos)%nat → (pos < length content)%nat →
  stop = -1 ∨ (∃ le, stop = Z.of_nat le ∧ (pos ≤ le ≤ length content)%nat) →
  ∃ n, (pos - ls ≤ n)%nat
       ∧ Py.slice content (Z.of_nat ls) stop = take n (drop ls content).
Proof.
  intros Hls Hpos Hstop. unfold Py.slice. rewrite clip_nat by lia.
  eexists. split; [|done].
  destruct Hstop as [->|(le & -> & Hle)].
  - unfold Py.clip. simpl. lia.
  - rewrite clip_nat by lia. lia.
Qed.

(** The check for a single-line comment. *)
Lemma is_in_comment_line content pos :
  (pos < length content)%nat → in_line_comment content pos →
  _is_in_comment content (Z.of_nat pos) = true.
Proof.
  intros Hpos (i & Hi & Hocc & Hnonl). unfold _is_in_comment.
  assert (∃ ls, Py.rfind content [NL] (Z.of_nat pos) + 1 = Z.of_nat ls
                ∧ (ls ≤ i)%nat) as (ls & -> & Hls).
  { destruct (rfind_spec content [NL] pos) as [[-> _]|(j & -> & Hj & Hoj & _)];
      [done|lia| |].
    - exists 0%nat. split; [done|lia].
    - exists (S j). split; [lia|].
      destruct (decide (j < i)%nat); [lia|].
      apply occurs_one in Hoj. destruct (Hnonl j); [simpl in Hj; lia|done]. }
  destruct (slice_line content ls pos (Py.find content [NL] (Z.of_nat pos)))
    as (n & Hn & ->); [lia|done| |].
  { destruct (find_spec content [NL] pos) as [[-> _]|(j & -> & Hj & Hoj & _)];
      [lia|by left|].
    right. exists j. split; [done|]. split; [done|].
    apply occurs_bound in Hoj; [simpl in Hoj; lia|done]. }
  destruct (find_first (take n (drop ls content)) (str "--") (i - ls))
    as (f & Hf & -> & ->).
  { apply occurs_take; [done|]. split.
    - apply occurs_drop. by replace (ls + (i - ls))%nat with i by lia.
    - simpl. lia. }
  simpl. by rewrite (proj2 (Z.ltb_lt _ _)) by lia.
Qed.

(** The check for a block comment. *)
Lemma is_in_comment_block content pos c :
  content !! pos = Some c → c ≠ "*"%char → c ≠ "/"%char →
  in_block_comment content pos → openers_stay_open content pos →
  _is_in_comment content (Z.of_nat pos) = true.
Proof.
  intros Hc Hstar Hslash (o & Ho & Hocc & Hnear & Hopen) Hstay.
  pose proof (lookup_lt_Some _ _ _ Hc) as Hpos.
  unfold _is_in_comment.
  destruct (_ && _); [done|].
  assert (Py.rfind content (str "/*") (Z.of_nat pos) = Z.of_nat o) as ->.
  { destruct (rfind_spec content (str "/*") pos)
      as [[_ Hnone]|(j & -> & Hj & Hoj & Hlast)]; [done|lia| |].
    - destruct (Hnone o); [simpl; lia|done].
    - f_equal. pose proof (Hnear j Hoj). simpl in Hj.
      destruct (decide (j < o)%nat); [|lia].
      destruct (Hlast o); [done|simpl; lia|done]. }
  rewrite (proj2 (Z.eqb_neq _ _)) by lia. simpl.
  destruct (find_spec content (str "*/") o)
    as [[-> _]|(e & -> & He & Hoe & _)]; [lia|done|].
  rewrite (proj2 (Z.eqb_neq _ _)) by lia. simpl.
  destruct (Z.ltb_spec (Z.of_nat pos) (Z.of_nat e)); [done|].
  exfalso. destruct (occurs_two _ _ _ _ Hoe) as [He0 He1].
  destruct (occurs_two _ _ _ _ Hocc) as [Ho0 Ho1].
  assert (o + 2 ≤ e)%nat as Hafter.
  { destruct (decide (e = o)) as [->|]; [congruence|].
    destruct (decide (e = S o)) as [->|]; [|lia].
    destruct (Hstay o Ho). unfold occurs.
    rewrite (drop_S _ _ _ Ho0), (drop_S _ _ _ Ho1), (drop_S _ _ _ He1).
    reflexivity. }
  destruct (decide (e + 2 ≤ pos)%nat) as [Hin|Hout].
  { by destruct (Hopen e). }
  destruct (decide (e = pos)) as [->|Hne].
  - rewrite Hc in He0. by simplify_eq.
  - replace (S e) with pos in He1 by lia. rewrite Hc in He1. by simplify_eq.
Qed.

End comment_lemmas.

(** C4 fails on the comment check of [SQLCostOptimizer]: in the text
    below the opener at index 0 is the nearest one before the [UNION], and
    no closer lies between the opener and the match, so the match is
    inside an unterminated block comment; but the search for a closer
    starts at the index of the opener itself and finds the [*/] made of
    the asterisk of the opener and the slash after it, so the comment
    check says no and the scan reports the match. *)
Theorem block_comment_match_is_reported :
  let content := str "/*/ x UNION y" in
  let fs : gmap text node := {[ str "q.sql" := Data content ]} in
  Re.finditer true SQLCostOptimizer.re_union_instead_union_all content
  = [(6, 12)]%nat
  ∧ in_block_comment content 6
  ∧ Py.rfind content (str "/*") 6 = 0
  ∧ Py.find content (str "*/") 0 = 1
  ∧ SQLCostOptimizer._is_in_comment content 6 = false
  ∧ (λ st, (λ i, (SQLCostOptimizer.issue_type i,
                  SQLCostOptimizer.line_number i))
           <$> SQLCostOptimizer.issues st)
      <$> SQLCostOptimizer._scan_sql_file fs (str "q.sql")
            SQLCostOptimizer.__init__
    = Ok [(str "union_instead_union_all", 1)].
Proof.
  intros content fs.
  split; [vm_compute; reflexivity|]. split.
  - exists 0%nat. split; [lia|]. split; [vm_compute; reflexivity|]. split.
    + intros o' Ho' Hle.
      do 5 (destruct o' as [|o'];
            [first [lia|vm_compute in Ho'; discriminate Ho']|]).
      lia.
    + intros c Hc1 Hc2 Hocc.
      assert (c = 2 ∨ c = 3 ∨ c = 4)%nat as [Hc|[Hc|Hc]] by lia; subst c;
        vm_compute in Hocc; discriminate Hocc.
  - split_and!; vm_compute; reflexivity.
Qed.

(** X25: comment suppression, for every text and every match of a
    catalogue pattern: when the start of the match comes after a [--] on
    its line, or after a block-comment opener, the nearest one before it,
    with no closer between that opener and the start, and no opener before
    the start is followed at once by a slash, the comment check holds; the
    loop body returns the state as it was, and the start is not among the
    kept matches, so no finding is produced for the match. *)
Theorem commented_match_gives_no_finding path content entry st s e :
  entry ∈ SQLCostOptimizer._initialize_patterns →
  (s, e) ∈ Re.finditer true (SQLCostOptimizer.pattern entry.2) content →
  in_line_comment content s
  ∨ (in_block_comment content s ∧ openers_stay_open content s) →
  SQLCostOptimizer._is_in_comment content (Z.of_nat s) = true
  ∧ SQLCostOptimizer.scan_match path content (Py.split content NL)
      entry.1 entry.2 st (s, e) = Ok st
  ∧ s ∉ SQLCostOptimizer_spec.kept content (SQLCostOptimizer.pattern entry.2).
Proof.
  intros Hentry Hm Hcomment.
  destruct (catalogue_match_start entry content s e Hentry Hm)
    as (c & Hc & Hstar & Hslash & _).
  assert (SQLCostOptimizer._is_in_comment content (Z.of_nat s) = true) as Hin.
  { destruct Hcomment as [Hline|[Hblock Hstay]].
    - apply is_in_comment_line; [|done]. by eapply lookup_lt_Some.
    - by eapply is_in_comment_block. }
  split_and!; [done| |].
  - unfold SQLCostOptimizer.scan_match.
    rewrite locate_spec by (simpl; by eapply finditer_start_le).
    simpl. by rewrite Hin.
  - unfold SQLCostOptimizer_spec.kept. rewrite list_elem_of_filter.
    intros [Hk _]. congruence.
Qed.

Lemma commented_match_gives_no_finding_witness :
  let content :=
    str "SELECT 1 -- UNION x" ++ [NL] ++ str "/* a UNION b */" in
  let entry := (str "union_instead_union_all",
                {| SQLCostOptimizer.pattern :=
                     SQLCostOptimizer.re_union_instead_union_all;
                   SQLCostOptimizer.p_severity := SQLCostOptimizer.MEDIUM;
                   SQLCostOptimizer.p_description :=
                     str "UNION performs unnecessary deduplication";
                   SQLCostOptimizer.p_cost_impact :=
                     str "20-100% increased processing time";
                   SQLCostOptimizer.p_fix_template := text_lines [
                     "-- Use UNION ALL if duplicates are acceptable";
                     "UNION ALL"] |}) in
  Re.finditer true SQLCostOptimizer.re_union_instead_union_all content
  = [(12, 18); (25, 31)]%nat
  ∧ SQLCostOptimizer.scan_match (str "q.sql") content (Py.split content NL)
      entry.1 entry.2 SQLCostOptimizer.__init__ (12%nat, 18%nat)
    = Ok SQLCostOptimizer.__init__
  ∧ SQLCostOptimizer.scan_match (str "q.sql") content (Py.split content NL)
      entry.1 entry.2 SQLCostOptimizer.__init__ (25%nat, 31%nat)
    = Ok SQLCostOptimizer.__init__.
Proof.
  intros content entry.
  assert (entry ∈ SQLCostOptimizer._initialize_patterns) as Hentry.
  { unfold entry, SQLCostOptimizer._initialize_patterns. do 4 right. left. }
  split; [vm_compute; reflexivity|]. split.
  - refine (proj1 (proj2 (commented_match_gives_no_finding (str "q.sql")
      content entry SQLCostOptimizer.__init__ 12 18 Hentry _ _))).
    + vm_compute. left.
    + left. exists 9%nat. split; [lia|]. split; [vm_compute; reflexivity|].
      intros j Hj.
      assert (j = 9 ∨ j = 10 ∨ j = 11)%nat as [Hj'|[Hj'|Hj']] by lia;
        subst j; vm_compute; discriminate.
  - refine (proj1 (proj2 (commented_match_gives_no_finding (str "q.sql")
      content entry SQLCostOptimizer.__init__ 25 31 Hentry _ _))).
    + vm_compute. right. left.
    + right. split.
      * exists 20%nat. split; [lia|]. split; [vm_compute; reflexivity|].
        split.
        -- intros o' Ho' Hle.
           assert (o' < 24)%nat as Hlt by lia. clear Hle.
           do 24 (destruct o' as [|o'];
                  [try lia; vm_compute in Ho'; discriminate Ho'|]).
           lia.
        -- intros c Hc1 Hc2 Hocc.
           assert (c = 22 ∨ c = 23)%nat as [Hc|Hc] by lia; subst c;
             vm_compute in Hocc; discriminate Hocc.
      * intros o Ho Hocc.
        do 24 (destruct o as [|o];
               [vm_compute in Hocc; discriminate Hocc|]).
        lia.
Defined.

(** ** Further properties of the fixer of [SQLCostOptimizer] *)

Section fix_more.

Import SQLCostOptimizer SQLCostOptimizer_spec.

Lemma insert_desc_same_line n x l :
  line_number x = n → Forall (λ z, line_number z = n) l →
  insert_desc x l = x :: l.
Proof.
  intros Hx Hl. apply insert_desc_head.
  eapply Forall_impl; [done|]. simpl. intros; lia.
Qed.

Lemma sort_desc_same_line n l :
  Forall (λ z, line_number z = n) l → sort_desc l = l.
Proof.
  induction 1 as [|x l Hx Hl IH]; simpl; [done|].
  rewrite IH. by eapply insert_desc_same_line.
Qed.

Lemma fix_issue_raises lines i e :
  fix_issue lines i = Raise e → e = IndexError.
Proof.
  unfold fix_issue, getitem, setitem, list_index.
  destruct (Py.len lines <=? line_number i - 1); [done|].
  destruct (_ || _); simpl; [by intros [= <-]|].
  destruct (lines !! _); simpl; [done|by intros [= <-]].
Qed.

Lemma for_each_fix_raises l lines e :
  for_each fix_issue l lines = Raise e → e = IndexError.
Proof.
  revert lines. induction l as [|i l IH]; intros lines; simpl; [done|].
  destruct (fix_issue lines i) as [lines'|e'] eqn:E; simpl.
  - apply IH.
  - intros [= <-]. by eapply fix_issue_raises.
Qed.

(** A finding below the range stops the loop, wherever it stands. *)
Lemma for_each_fix_below_range l lines i :
  i ∈ l → line_number i - 1 < - Py.len lines →
  for_each fix_issue l lines = Raise IndexError.
Proof.
  revert lines. induction l as [|x l IH]; intros lines Hin Hi.
  { by apply elem_of_nil in Hin. }
  simpl. destruct (fix_issue lines x) as [lines'|e] eqn:E; simpl.
  - apply elem_of_cons in Hin as [<-|Hin].
    + unfold fix_issue, getitem, list_index in E.
      rewrite (proj2 (Z.leb_gt _ _)) in E by (unfold Py.len in *; lia).
      rewrite (proj2 (Z.ltb_lt (line_number i - 1) 0)) in E
        by (unfold Py.len in *; lia).
      rewrite (proj2 (Z.ltb_lt _ 0)) in E by lia. done.
    + apply IH; [done|]. unfold Py.len in *.
      by rewrite (fix_issue_length _ _ _ E).
  - f_equal. by eapply fix_issue_raises.
Qed.

End fix_more.

(** X1: findings on the same line are applied in the order in which they
    were found: the sort is stable. *)
Theorem fix_order_is_stable (n : Z) (found : list SQLCostOptimizer.SQLIssue) :
  filter (λ i, SQLCostOptimizer.line_number i = n)
         (SQLCostOptimizer.sort_desc found)
  = filter (λ i, SQLCostOptimizer.line_number i = n) found.
Proof.
  rewrite filter_sort_desc. apply (sort_desc_same_line n).
  apply Forall_forall. by intros i [? _]%list_elem_of_filter.
Qed.

(** X2: a finding with line number 0 is not refused: its index is -1, and
    the loop rewrites the last line of the file for it. *)
Theorem fix_line_zero_rewrites_last_line lines i last_line :
  SQLCostOptimizer.line_number i = 0 → last lines = Some last_line →
  SQLCostOptimizer.fix_issue lines i
  = Ok (<[pred (length lines)
          := SQLCostOptimizer.replacement i last_line]> lines).
Proof.
  intros Hi Hlast. unfold SQLCostOptimizer.fix_issue. rewrite Hi.
  assert (length lines ≠ 0)%nat as Hlen by by destruct lines.
  rewrite (proj2 (Z.leb_gt _ _)) by (unfold Py.len; lia).
  assert (list_index lines (0 - 1) = Ok (pred (length lines))) as Hidx.
  { unfold list_index, Py.len.
    replace (0 - 1 <? 0) with true by done.
    destruct (Z.ltb_spec (0 - 1 + Z.of_nat (length lines)) 0); [lia|].
    destruct (Z.leb_spec (Z.of_nat (length lines))
                (0 - 1 + Z.of_nat (length lines))); [lia|].
    simpl. f_equal. lia. }
  unfold getitem, setitem. rewrite Hidx. simpl.
  rewrite last_lookup in Hlast. by rewrite Hlast.
Qed.

Lemma fix_line_zero_rewrites_last_line_witness :
  let i := {| SQLCostOptimizer.file_path := str "q.sql";
              SQLCostOptimizer.line_number := 0;
              SQLCostOptimizer.issue_type := str "t";
              SQLCostOptimizer.severity := SQLCostOptimizer.LOW;
              SQLCostOptimizer.description := str "d";
              SQLCostOptimizer.original_line := [];
              SQLCostOptimizer.suggested_fix := None;
              SQLCostOptimizer.estimated_cost_impact := str "c" |} in
  SQLCostOptimizer.fix_issue [str "a" ++ [NL]; str "b"] i
  = Ok [str "a" ++ [NL]; SQLCostOptimizer.replacement i (str "b")].
Proof.
  intros i.
  exact (fix_line_zero_rewrites_last_line [str "a" ++ [NL]; str "b"] i
           (str "b") eq_refl eq_refl).
Defined.

(** X3: a finding whose line number is below minus the number of lines
    makes the fixer raise [IndexError], which nothing catches, whatever
    the other findings are. *)
Theorem fix_raises_below_range fs stamp path found out content i :
  read_text fs path = Some content →
  i ∈ found →
  SQLCostOptimizer.line_number i - 1 < - Py.len (Py.readlines content) →
  SQLCostOptimizer.fixed_lines (Py.readlines content) found
  = Raise IndexError
  ∧ SQLCostOptimizer._fix_file_issues fs stamp path found out
    = Raise IndexError.
Proof.
  intros Hread Hin Hi.
  assert (SQLCostOptimizer.fixed_lines (Py.readlines content) found
          = Raise IndexError) as Hraise.
  { apply (for_each_fix_below_range _ _ i); [|done].
    by rewrite (sort_desc_perm found). }
  split; [done|]. unfold SQLCostOptimizer._fix_file_issues.
  by rewrite Hread, Hraise.
Qed.

Lemma fix_raises_below_range_witness :
  let mk n := {| SQLCostOptimizer.file_path := str "q.sql";
                 SQLCostOptimizer.line_number := n;
                 SQLCostOptimizer.issue_type := str "t";
                 SQLCostOptimizer.severity := SQLCostOptimizer.LOW;
                 SQLCostOptimizer.description := str "d";
                 SQLCostOptimizer.original_line := [];
                 SQLCostOptimizer.suggested_fix := None;
                 SQLCostOptimizer.estimated_cost_impact := str "c" |} in
  let fs : gmap text node := {[ str "q.sql" := Data (str "a") ]} in
  SQLCostOptimizer._fix_file_issues fs (str "s") (str "q.sql")
    [mk 1; mk (-1)] [] = Raise IndexError.
Proof.
  intros mk fs.
  refine (proj2 (fix_raises_below_range fs (str "s") (str "q.sql")
            [mk 1; mk (-1)] [] (str "a") (mk (-1)) _ _ _)).
  - vm_compute. reflexivity.
  - right. left.
  - vm_compute. reflexivity.
Defined.

(** The call on a file that opens both ways, with a free backup path. *)
Lemma fix_file_issues_success fs stamp path found out bytes lines :
  fs !! path = Some (Data bytes) →
  fs !! (path ++ str ".backup." ++ stamp) = None →
  SQLCostOptimizer.fixed_lines
    (Py.readlines (Py.universal_newlines bytes)) found = Ok lines →
  SQLCostOptimizer._fix_file_issues fs stamp path found out
  = Ok (<[path := Data (Py.join lines)]>
          (<[path ++ str ".backup." ++ stamp := Data (Py.join lines)]> fs),
        (out ++ [SQLCostOptimizer.Fixed (length found) path])
        ++ [SQLCostOptimizer.BackupCreated (path ++ str ".backup." ++ stamp)]).
Proof.
  intros Hfile Hfree Hfix. unfold SQLCostOptimizer._fix_file_issues.
  unfold read_text. rewrite Hfile, Hfix.
  unfold mbind, result_bind; cbv beta iota zeta.
  unfold write_text. rewrite Hfree.
  rewrite lookup_insert_ne, Hfile; [by rewrite <- app_assoc|].
  intros H. apply (f_equal length) in H.
  rewrite !length_app in H. simpl in H. lia.
Qed.

(** X4: whenever [_fix_file_issues] ends with the message that a backup was
    created, the backup and the file hold the same text, the joined lines
    after the loop: the backup is a copy of the rewritten file. *)
Theorem backup_is_copy_of_fixed_file fs stamp path found out fs' out' :
  SQLCostOptimizer._fix_file_issues fs stamp path found out = Ok (fs', out') →
  last out' = Some (SQLCostOptimizer.BackupCreated
                      (path ++ str ".backup." ++ stamp)) →
  ∃ content lines,
    read_text fs path = Some content
    ∧ SQLCostOptimizer.fixed_lines (Py.readlines content) found = Ok lines
    ∧ fs' !! (path ++ str ".backup." ++ stamp) = Some (Data (Py.join lines))
    ∧ fs' !! path = Some (Data (Py.join lines)).
Proof.
  unfold SQLCostOptimizer._fix_file_issues.
  destruct (read_text fs path) as [content|] eqn:Hread.
  2:{ intros [= <- <-]. by rewrite last_snoc. }
  destruct (SQLCostOptimizer.fixed_lines _ found) as [lines|] eqn:Hfix;
    unfold mbind, result_bind; cbv beta iota zeta; [|done].
  set (backup_path := path ++ str ".backup." ++ stamp).
  assert (backup_path ≠ path) as Hne.
  { unfold backup_path. intros H. apply (f_equal length) in H.
    rewrite !length_app in H. simpl in H. lia. }
  destruct (write_text fs backup_path _) as [fs1|] eqn:Hw1.
  2:{ intros [= <- <-]. by rewrite last_snoc. }
  destruct (write_text fs1 path _) as [fs2|] eqn:Hw2.
  2:{ intros [= <- <-]. by rewrite last_snoc. }
  intros [= <- <-] _. exists content, lines. split_and!; [done..| |].
  - unfold write_text in Hw1, Hw2.
    destruct (fs !! backup_path) as [[]|]; simplify_eq;
      destruct (_ !! path) as [[]|]; simplify_eq;
      by rewrite lookup_insert_ne, lookup_insert_eq by done.
  - unfold write_text in Hw2.
    destruct (fs1 !! path) as [[]|]; simplify_eq;
      by rewrite lookup_insert_eq.
Qed.

Lemma backup_is_copy_of_fixed_file_witness :
  let mk n := {| SQLCostOptimizer.file_path := str "q.sql";
                 SQLCostOptimizer.line_number := n;
                 SQLCostOptimizer.issue_type := str "t";
                 SQLCostOptimizer.severity := SQLCostOptimizer.LOW;
                 SQLCostOptimizer.description := str "d";
                 SQLCostOptimizer.original_line := [];
                 SQLCostOptimizer.suggested_fix := None;
                 SQLCostOptimizer.estimated_cost_impact := str "c" |} in
  let fs : gmap text node := {[ str "q.sql" := Data (str "a") ]} in
  ∃ (fs' : gmap text node) out' lines,
    SQLCostOptimizer._fix_file_issues fs (str "s") (str "q.sql") [mk 1] []
    = Ok (fs', out')
    ∧ fs' !! (str "q.sql" ++ str ".backup." ++ str "s")
      = Some (Data (Py.join lines))
    ∧ fs' !! str "q.sql" = Some (Data (Py.join lines)).
Proof.
  intros mk fs.
  assert (∃ lines, SQLCostOptimizer.fixed_lines
                     (Py.readlines (Py.universal_newlines (str "a"))) [mk 1]
                   = Ok lines) as [lines Hlines].
  { eexists. vm_compute. reflexivity. }
  pose proof (fix_file_issues_success fs (str "s") (str "q.sql") [mk 1] []
                (str "a") lines eq_refl eq_refl Hlines) as E.
  destruct (backup_is_copy_of_fixed_file fs (str "s") (str "q.sql") [mk 1]
              [] _ _ E) as (content & lines' & Hread & Hfix & Hb & Hf).
  { apply last_snoc. }
  eexists _, _, lines'. split; [exact E|]. split; [exact Hb|exact Hf].
Defined.

(** X5: when the file reads but does not open for writing, and the backup
    path is free, the call returns with an error message, the file keeps
    its bytes, and a backup with the rewritten text is left behind. *)
Theorem fix_of_read_only_file fs stamp path found out bytes lines :
  fs !! path = Some (ReadOnly bytes) →
  fs !! (path ++ str ".backup." ++ stamp) = None →
  SQLCostOptimizer.fixed_lines
    (Py.readlines (Py.universal_newlines bytes)) found = Ok lines →
  SQLCostOptimizer._fix_file_issues fs stamp path found out
  = Ok (<[path ++ str ".backup." ++ stamp := Data (Py.join lines)]> fs,
        out ++ [SQLCostOptimizer.ErrorWritingFixes path]).
Proof.
  intros Hfile Hfree Hfix. unfold SQLCostOptimizer._fix_file_issues.
  unfold read_text. rewrite Hfile, Hfix.
  unfold mbind, result_bind; cbv beta iota zeta.
  unfold write_text. rewrite Hfree.
  rewrite lookup_insert_ne, Hfile; [done|].
  intros H. apply (f_equal length) in H.
  rewrite !length_app in H. simpl in H. lia.
Qed.

Lemma fix_of_read_only_file_witness :
  let mk n := {| SQLCostOptimizer.file_path := str "q.sql";
                 SQLCostOptimizer.line_number := n;
                 SQLCostOptimizer.issue_type := str "t";
                 SQLCostOptimizer.severity := SQLCostOptimizer.LOW;
                 SQLCostOptimizer.description := str "d";
                 SQLCostOptimizer.original_line := [];
                 SQLCostOptimizer.suggested_fix := None;
                 SQLCostOptimizer.estimated_cost_impact := str "c" |} in
  let fs : gmap text node := {[ str "q.sql" := ReadOnly (str "a") ]} in
  ∃ r, SQLCostOptimizer._fix_file_issues fs (str "s") (str "q.sql") [mk 1] []
       = Ok (r, [SQLCostOptimizer.ErrorWritingFixes (str "q.sql")]).
Proof.
  intros mk fs. eexists.
  refine (fix_of_read_only_file fs (str "s") (str "q.sql") [mk 1] []
            (str "a") _ _ _ _).
  - vm_compute. reflexivity.
  - vm_compute. reflexivity.
  - vm_compute. reflexivity.
Defined.

(** ** Grouping by file, and the dry run *)

Section grouping.

Import SQLCostOptimizer SQLCostOptimizer_fix.

Lemma filter_none {A} (P : A → Prop) `{!∀ x, Decision (P x)} (l : list A) :
  (∀ x, x ∈ l → ¬ P x) → filter P l = [].
Proof.
  induction l as [|x l IH]; intros Hl; [done|].
  rewrite filter_cons, decide_False by (apply Hl; left).
  apply IH. intros ??; apply Hl. by right.
Qed.

Lemma group_add_keys groups i k :
  k ∈ (group_add groups i).*1 ↔ k ∈ groups.*1 ∨ k = file_path i.
Proof.
  induction groups as [|[k' g] groups IH]; simpl.
  { rewrite list_elem_of_singleton. split; [by right|].
    by intros [?%elem_of_nil|?]. }
  case_decide as E; simpl; rewrite !elem_of_cons.
  - split; [tauto|]. intros [?| ->]; [done|]. by left.
  - rewrite IH. tauto.
Qed.

Lemma group_add_NoDup groups i :
  NoDup groups.*1 → NoDup (group_add groups i).*1.
Proof.
  induction groups as [|[k g] groups IH]; simpl.
  { intros _. repeat constructor. by intros ?%elem_of_nil. }
  intros [Hk Hnd]%NoDup_cons.
  case_decide as E; simpl; [by constructor|].
  constructor; [|by apply IH].
  rewrite group_add_keys. by intros [?|?].
Qed.

(** Where an item of the dict after one turn comes from. *)
Lemma group_add_elem groups i k g :
  NoDup groups.*1 → (k, g) ∈ group_add groups i →
  (k ≠ file_path i ∧ (k, g) ∈ groups)
  ∨ (k = file_path i ∧ (∃ g0, (k, g0) ∈ groups ∧ g = g0 ++ [i]))
  ∨ (k = file_path i ∧ (k ∉ groups.*1) ∧ g = [i]).
Proof.
  induction groups as [|[k' g'] groups IH]; simpl.
  { intros _ Hin%list_elem_of_singleton. simplify_eq. right. right.
    split_and!; [done| |done]. by intros ?%elem_of_nil. }
  intros [Hk' Hnd]%NoDup_cons.
  case_decide as E; rewrite elem_of_cons.
  - intros [[= -> ->]|Hin].
    + right. left. split; [done|]. exists g'. split; [left|done].
    + left. split; [|by right]. intros ->. apply Hk'. rewrite E.
      apply list_elem_of_fmap. by exists (file_path i, g).
  - intros [[= -> ->]|Hin].
    + left. split; [done|left].
    + destruct (IH Hnd Hin) as [[? ?]|[[-> (g0 & ? & ->)]|(-> & Hnot & ->)]].
      * left. split; [done|by right].
      * right. left. split; [done|]. exists g0. split; [by right|done].
      * right. right. split_and!; [done| |done].
        simpl. rewrite elem_of_cons. intros [?|?]; [congruence|done].
Qed.

Lemma group_add_grouped seen groups i :
  grouped seen groups → (∀ x, x ∈ seen → file_path x ∈ groups.*1) →
  grouped (seen ++ [i]) (group_add groups i)
  ∧ ∀ x, x ∈ seen ++ [i] → file_path x ∈ (group_add groups i).*1.
Proof.
  intros [Hnd Hg] Hcover. split; [split|].
  - by apply group_add_NoDup.
  - intros k g Hin. rewrite filter_app, filter_cons, filter_nil.
    destruct (group_add_elem _ _ _ _ Hnd Hin)
      as [[Hne Hin']|[[-> (g0 & Hin' & ->)]|(-> & Hnot & ->)]].
    + destruct (Hg k g Hin') as [? ->].
      by rewrite decide_False, app_nil_r by done.
    + destruct (Hg _ g0 Hin') as [? <-]. rewrite decide_True by done.
      split; [by destruct g0|done].
    + rewrite decide_True by done. split; [done|].
      assert (filter (λ i0, file_path i0 = file_path i) seen = []) as ->;
        [|done].
      apply filter_none.
      intros x Hx Hfx. apply Hnot. rewrite <- Hfx. by apply Hcover.
  - intros x [Hx| ->%list_elem_of_singleton]%elem_of_app;
      rewrite group_add_keys; auto.
Qed.

Lemma foldl_group_add_grouped l seen groups :
  grouped seen groups → (∀ x, x ∈ seen → file_path x ∈ groups.*1) →
  grouped (seen ++ l) (foldl group_add groups l)
  ∧ ∀ x, x ∈ seen ++ l → file_path x ∈ (foldl group_add groups l).*1.
Proof.
  revert seen groups. induction l as [|i l IH]; intros seen groups Hg Hc.
  { by rewrite app_nil_r. }
  simpl. destruct (group_add_grouped seen groups i Hg Hc) as [Hg' Hc'].
  replace (seen ++ i :: l) with ((seen ++ [i]) ++ l)
    by by rewrite <- app_assoc.
  by apply IH.
Qed.

End grouping.

Lemma issues_by_file_grouped (all : list SQLCostOptimizer.SQLIssue) :
  grouped all (SQLCostOptimizer_fix.issues_by_file all)
  ∧ ∀ i, i ∈ all →
      SQLCostOptimizer.file_path i
        ∈ (SQLCostOptimizer_fix.issues_by_file all).*1.
Proof.
  apply (foldl_group_add_grouped all [] []).
  - split; [constructor|]. by intros ?? ?%elem_of_nil.
  - by intros ? ?%elem_of_nil.
Qed.

(** X6: the grouping by file loses and invents nothing: the keys are
    distinct, every file with an issue is a key, and the list of a key is
    the non-empty list of the issues of that file, in the order in which
    they were found. *)
Theorem issues_by_file_groups (all : list SQLCostOptimizer.SQLIssue) :
  grouped all (SQLCostOptimizer_fix.issues_by_file all)
  ∧ ∀ i, i ∈ all →
      SQLCostOptimizer.file_path i
        ∈ (SQLCostOptimizer_fix.issues_by_file all).*1.
Proof. apply issues_by_file_grouped. Qed.


(** ** The fixer on the findings of a scan *)

Section scan_then_fix.

Import SQLCostOptimizer SQLCostOptimizer_spec.

Lemma readlines_count content pos :
  (pos < length content)%nat →
  (length (filter (λ x, x = NL) (take pos content))
   < length (Py.readlines content))%nat.
Proof.
  revert pos. induction content as [|c t IH]; intros pos Hpos; simpl in *.
  { lia. }
  destruct (Ascii.eqb c NL) eqn:E.
  - destruct pos as [|pos]; simpl; [lia|].
    rewrite filter_cons. apply ascii_eqb_true in E.
    rewrite decide_True by done. simpl.
    specialize (IH pos). lia.
  - destruct pos as [|pos]; simpl.
    { destruct (Py.readlines t); simpl; lia. }
    rewrite filter_cons. apply ascii_eqb_false in E.
    rewrite decide_False by done.
    specialize (IH pos ltac:(lia)).
    destruct (Py.readlines t); simpl in *; lia.
Qed.

(** Where a finding of the scan comes from. *)
Lemma findings_elem path content i :
  i ∈ findings path content →
  ∃ entry s e,
    entry ∈ _initialize_patterns
    ∧ (s, e) ∈ Re.finditer true (pattern entry.2) content
    ∧ _is_in_comment content (Z.of_nat s) = false
    ∧ i = finding path content entry s.
Proof.
  unfold findings, findings_of, kept.
  intros (entry & Hi & Hentry)%list_elem_of_bind.
  apply list_elem_of_fmap in Hi as (s & -> & Hs).
  apply list_elem_of_filter in Hs as [Hc Hs].
  apply list_elem_of_fmap in Hs as ([s' e] & -> & Hm).
  by exists entry, s', e.
Qed.

Lemma finding_in_range path content i :
  i ∈ findings path content →
  1 ≤ line_number i ≤ Py.len (Py.readlines content).
Proof.
  intros (entry & s & e & Hentry & Hm & _ & ->)%findings_elem.
  destruct (catalogue_match_start entry content s e Hentry Hm)
    as (c & Hc & _).
  apply lookup_lt_Some in Hc.
  pose proof (readlines_count content s Hc).
  simpl. unfold Py.count, Py.len. lia.
Qed.

Lemma replacement_header i o :
  Py.startswith (replacement i o) (str "-- COST OPTIMIZATION FIX: ") = true.
Proof.
  unfold replacement, fix_comment. rewrite <- !app_assoc.
  apply startswith_app.
Qed.

Lemma fix_issue_in_range lines i :
  1 ≤ line_number i ≤ Py.len lines →
  ∃ o, lines !! Z.to_nat (line_number i - 1) = Some o
       ∧ fix_issue lines i
         = Ok (<[Z.to_nat (line_number i - 1) := replacement i o]> lines).
Proof.
  intros Hi. unfold fix_issue, Py.len in *.
  rewrite (proj2 (Z.leb_gt _ _)) by lia.
  set (n := Z.to_nat (line_number i - 1)).
  assert (line_number i - 1 = Z.of_nat n) as -> by lia.
  assert (n < length lines)%nat as Hn by lia.
  destruct (lookup_lt_is_Some_2 lines n Hn) as [o Ho].
  exists o. split; [done|].
  rewrite (getitem_nat _ _ _ Ho). simpl. by rewrite setitem_nat.
Qed.

(** The loop over findings in range: every one of them leaves its line
    with the header of a fix, and a line with that header keeps it. *)
Lemma for_each_fix_marks l lines :
  (∀ i, i ∈ l → 1 ≤ line_number i ≤ Py.len lines) →
  ∃ out, for_each fix_issue l lines = Ok out
    ∧ length out = length lines
    ∧ (∀ j t, lines !! j = Some t →
         Py.startswith t (str "-- COST OPTIMIZATION FIX: ") = true →
         ∃ t', out !! j = Some t'
               ∧ Py.startswith t' (str "-- COST OPTIMIZATION FIX: ") = true)
    ∧ (∀ i, i ∈ l →
         ∃ t, out !! Z.to_nat (line_number i - 1) = Some t
              ∧ Py.startswith t (str "-- COST OPTIMIZATION FIX: ") = true).
Proof.
  revert lines. induction l as [|i l IH]; intros lines Hl; simpl.
  { exists lines. split_and!; [done|done|eauto|]. by intros ? ?%elem_of_nil. }
  destruct (fix_issue_in_range lines i) as (o & Ho & ->); [apply Hl; left|].
  simpl. set (n := Z.to_nat (line_number i - 1)) in *.
  pose proof (lookup_lt_Some _ _ _ Ho) as Hn.
  destruct (IH (<[n := replacement i o]> lines))
    as (out & -> & Hlen & Hkeep & Hmark).
  { intros x Hx. unfold Py.len. rewrite length_insert. apply Hl. by right. }
  rewrite length_insert in Hlen.
  exists out. split_and!; [done..| |].
  - intros j t Ht Hh. destruct (decide (n = j)) as [<-|Hne].
    + apply (Hkeep n (replacement i o)).
      * by rewrite list_lookup_insert_eq.
      * apply replacement_header.
    + apply (Hkeep j t); [|done]. by rewrite list_lookup_insert_ne.
  - intros x [->|Hx]%elem_of_cons; [|by apply Hmark].
    apply (Hkeep n (replacement i o)).
    + by rewrite list_lookup_insert_eq.
    + apply replacement_header.
Qed.

End scan_then_fix.

(** ** The rewrite keeps every line *)

Section fix_exact.

Import SQLCostOptimizer SQLCostOptimizer_spec.











End fix_exact.




(** ** Findings beyond the end of the file *)



(** X8: the line number of every finding of a scan is between 1 and the
    number of lines that the fixer reads from the same text. *)
Theorem finding_line_fits_the_fixer path content i :
  i ∈ SQLCostOptimizer_spec.findings path content →
  1 ≤ SQLCostOptimizer.line_number i ≤ Py.len (Py.readlines content).
Proof. apply finding_in_range. Qed.

Lemma finding_line_fits_the_fixer_witness :
  let content := str "SELECT 1" ++ [NL] ++ str "UNION SELECT 2" ++ [NL] in
  ∃ i, i ∈ SQLCostOptimizer_spec.findings (str "q.sql") content
       ∧ 1 ≤ SQLCostOptimizer.line_number i ≤ 2.
Proof.
  intros content.
  assert (∃ i, SQLCostOptimizer_spec.findings (str "q.sql") content = [i])
    as [i Hi].
  { eexists. vm_compute. reflexivity. }
  exists i.
  assert (i ∈ SQLCostOptimizer_spec.findings (str "q.sql") content) as Hin.
  { rewrite Hi. left. }
  split; [exact Hin|].
  exact (finding_line_fits_the_fixer (str "q.sql") content i Hin).
Defined.

(** X9: scanning a file and then fixing it with the findings of that scan,
    the file unchanged in between, never raises and skips no finding:
    the number of lines is kept, and the line of every finding starts with
    the header of a fix. *)
Theorem fix_after_scan_applies_every_finding fs path content stamp out :
  read_text fs path = Some content →
  ∃ st' lines r,
    SQLCostOptimizer._scan_sql_file fs path SQLCostOptimizer.__init__ = Ok st'
    ∧ SQLCostOptimizer.issues st'
      = SQLCostOptimizer_spec.findings path content
    ∧ SQLCostOptimizer.fixed_lines (Py.readlines content)
        (SQLCostOptimizer.issues st') = Ok lines
    ∧ length lines = length (Py.readlines content)
    ∧ (∀ i, i ∈ SQLCostOptimizer.issues st' →
         ∃ t, lines !! Z.to_nat (SQLCostOptimizer.line_number i - 1) = Some t
              ∧ Py.startswith t (str "-- COST OPTIMIZATION FIX: ") = true)
    ∧ SQLCostOptimizer._fix_file_issues fs stamp path
        (SQLCostOptimizer.issues st') out = Ok r.
Proof.
  intros Hread.
  destruct (scan_sql_file_readable fs path content SQLCostOptimizer.__init__ 0
              Hread init_counters_ok init_files_scanned)
    as (st' & Hscan & _ & Hissues).
  simpl in Hissues.
  destruct (for_each_fix_marks
    (SQLCostOptimizer.sort_desc (SQLCostOptimizer.issues st'))
    (Py.readlines content)) as (lines & Hfix & Hlen & _ & Hmark).
  { intros i Hi. rewrite (sort_desc_perm _) in Hi. rewrite Hissues in Hi.
    by eapply finding_in_range. }
  assert (∃ r, SQLCostOptimizer._fix_file_issues fs stamp path
                 (SQLCostOptimizer.issues st') out = Ok r) as [r Hr].
  { unfold SQLCostOptimizer._fix_file_issues, SQLCostOptimizer.fixed_lines.
    rewrite Hread, Hfix. unfold mbind, result_bind. cbv beta iota zeta.
    destruct (write_text fs _ _) as [fs1|]; [|eauto].
    destruct (write_text fs1 _ _); eauto. }
  exists st', lines, r. split_and!; [done..| |done].
  intros i Hi. apply Hmark. by rewrite (sort_desc_perm _).
Qed.

Lemma fix_after_scan_applies_every_finding_witness :
  let content := str "SELECT 1" ++ [NL] ++ str "UNION SELECT 2" ++ [NL] in
  let fs : gmap text node := {[ str "q.sql" := Data content ]} in
  ∃ st' r,
    SQLCostOptimizer._scan_sql_file fs (str "q.sql")
      SQLCostOptimizer.__init__ = Ok st'
    ∧ SQLCostOptimizer._fix_file_issues fs (str "s") (str "q.sql")
        (SQLCostOptimizer.issues st') [] = Ok r.
Proof.
  intros content fs.
  destruct (fix_after_scan_applies_every_finding fs (str "q.sql") content
              (str "s") []) as (st' & lines & r & Hscan & _ & _ & _ & _ & Hr).
  { vm_compute. reflexivity. }
  exists st', r. split; [exact Hscan|exact Hr].
Defined.

(** X10: every fix template of the catalogue is a comment, so for a finding
    of a scan the fixer adds no replacement statement: what replaces the
    line is the header block and the original line as a comment, and no
    statement is left where the flagged line was. *)
Theorem scanned_finding_is_commented_out path content i original_line :
  i ∈ SQLCostOptimizer_spec.findings path content →
  SQLCostOptimizer.suggested i = []
  ∧ SQLCostOptimizer.replacement i original_line
    = SQLCostOptimizer.fix_comment i
      ++ SQLCostOptimizer.commented_original original_line.
Proof.
  intros (entry & s & e & Hentry & _ & _ & ->)%findings_elem.
  assert (SQLCostOptimizer.suggested
            (SQLCostOptimizer_spec.finding path content entry s) = []) as Hs.
  { unfold SQLCostOptimizer.suggested. simpl.
    unfold SQLCostOptimizer._initialize_patterns in Hentry.
    repeat (apply elem_of_cons in Hentry as [->|Hentry];
      [vm_compute; reflexivity|]).
    by apply elem_of_nil in Hentry. }
  split; [done|]. unfold SQLCostOptimizer.replacement.
  by rewrite Hs, app_nil_r.
Qed.

Lemma scanned_finding_is_commented_out_witness :
  let content := str "SELECT 1" ++ [NL] ++ str "UNION SELECT 2" ++ [NL] in
  ∃ i, i ∈ SQLCostOptimizer_spec.findings (str "q.sql") content
       ∧ SQLCostOptimizer.suggested i = [].
Proof.
  intros content.
  assert (∃ i, SQLCostOptimizer_spec.findings (str "q.sql") content = [i])
    as [i Hi].
  { eexists. vm_compute. reflexivity. }
  exists i.
  assert (i ∈ SQLCostOptimizer_spec.findings (str "q.sql") content) as Hin.
  { rewrite Hi. left. }
  split; [exact Hin|].
  exact (proj1 (scanned_finding_is_commented_out (str "q.sql") content i []
                  Hin)).
Defined.

Section fix_frame.

Import SQLCostOptimizer SQLCostOptimizer_fix.

Lemma write_text_frame fs path data fs' p :
  write_text fs path data = Some fs' → p ≠ path → fs' !! p = fs !! p.
Proof.
  unfold write_text. intros H Hne.
  destruct (fs !! path) as [[]|]; simplify_eq;
    by rewrite lookup_insert_ne.
Qed.

(** One file and its backup path are all that [_fix_file_issues] writes. *)
Lemma fix_file_issues_frame fs stamp path found out fs' out' p :
  _fix_file_issues fs stamp path found out = Ok (fs', out') →
  p ≠ path → p ≠ path ++ str ".backup." ++ stamp →
  fs' !! p = fs !! p.
Proof.
  unfold _fix_file_issues. intros H Hp Hb.
  destruct (read_text fs path); [|by simplify_eq].
  destruct (fixed_lines _ _); unfold mbind, result_bind in H;
    cbv beta iota zeta in H; [|done].
  destruct (write_text fs _ _) as [fs1|] eqn:E1; [|by simplify_eq].
  destruct (write_text fs1 _ _) as [fs2|] eqn:E2; simplify_eq.
  - rewrite (write_text_frame _ _ _ _ _ E2) by done.
    by rewrite (write_text_frame _ _ _ _ _ E1).
  - by rewrite (write_text_frame _ _ _ _ _ E1).
Qed.

Lemma fix_groups_frame (stamp : text → text) (dry_run : bool)
    (groups : list (text * list SQLIssue))
    (st st' : gmap text node * list message) p :
  for_each (λ (st : gmap text node * list message)
              (group : text * list SQLIssue),
      if dry_run
      then Ok (st.1, st.2 ++ [WouldFix (length group.2) group.1])
      else _fix_file_issues st.1 (stamp group.1) group.1 group.2 st.2)
    groups st = Ok st' →
  (∀ k, k ∈ groups.*1 → p ≠ k ∧ p ≠ k ++ str ".backup." ++ stamp k) →
  st'.1 !! p = st.1 !! p.
Proof.
  revert st. induction groups as [|[k g] groups IH]; intros st; simpl.
  { by intros [= <-]. }
  intros H Hp. destruct dry_run.
  - simpl in H. rewrite (IH _ H); [done|]. intros ??; apply Hp. by right.
  - destruct (_fix_file_issues st.1 (stamp k) k g st.2) as [[fs1 out1]|]
      eqn:E; [|done].
    simpl in H. rewrite (IH _ H) by (intros ??; apply Hp; by right).
    simpl. destruct (Hp k) as [? ?]; [left|].
    by eapply fix_file_issues_frame.
Qed.

End fix_frame.

(** X11: [fix_issues_in_place] writes to the files that have findings and to
    their backup paths, and to nothing else: every other path of the file
    system holds after the call what it held before. *)
Theorem fix_touches_only_files_with_findings
    stamp dry_run all fs out fs' out' p :
  SQLCostOptimizer_fix.fix_issues_in_place stamp dry_run all fs out
  = Ok (fs', out') →
  (∀ i, i ∈ all →
     p ≠ SQLCostOptimizer.file_path i
     ∧ p ≠ SQLCostOptimizer.file_path i ++ str ".backup."
            ++ stamp (SQLCostOptimizer.file_path i)) →
  fs' !! p = fs !! p.
Proof.
  unfold SQLCostOptimizer_fix.fix_issues_in_place. intros H Hp.
  destruct all as [|i0 all]; [by simplify_eq|].
  apply (fix_groups_frame _ _ _ _ _ p) in H; [done|].
  intros k Hk. apply list_elem_of_fmap in Hk as ([k' g] & -> & Hin). simpl.
  destruct (issues_by_file_grouped (i0 :: all)) as [[_ Hg] _].
  destruct (Hg k' g Hin) as [Hne Hfilter].
  destruct g as [|i g]; [done|].
  assert (i ∈ filter (λ x, SQLCostOptimizer.file_path x = k') (i0 :: all))
    as [<- Hi]%list_elem_of_filter by (rewrite <- Hfilter; left).
  by apply Hp.
Qed.

Lemma fix_touches_only_files_with_findings_witness :
  let mk n := {| SQLCostOptimizer.file_path := str "q.sql";
                 SQLCostOptimizer.line_number := n;
                 SQLCostOptimizer.issue_type := str "t";
                 SQLCostOptimizer.severity := SQLCostOptimizer.LOW;
                 SQLCostOptimizer.description := str "d";
                 SQLCostOptimizer.original_line := [];
                 SQLCostOptimizer.suggested_fix := None;
                 SQLCostOptimizer.estimated_cost_impact := str "c" |} in
  let fs : gmap text node :=
    {[ str "q.sql" := Data (str "a"); str "r.sql" := Data (str "b") ]} in
  ∃ (fs' : gmap text node) out',
    SQLCostOptimizer_fix.fix_issues_in_place (λ _, str "s") false [mk 1] fs []
    = Ok (fs', out')
    ∧ fs' !! str "r.sql" = Some (Data (str "b")).
Proof.
  intros mk fs.
  assert (∃ lines, SQLCostOptimizer.fixed_lines
                     (Py.readlines (Py.universal_newlines (str "a"))) [mk 1]
                   = Ok lines) as [lines Hlines].
  { eexists. vm_compute. reflexivity. }
  pose proof (fix_file_issues_success fs (str "s") (str "q.sql") [mk 1] []
                (str "a") lines eq_refl eq_refl Hlines) as E.
  assert (SQLCostOptimizer_fix.fix_issues_in_place (λ _, str "s") false
            [mk 1] fs []
          = SQLCostOptimizer._fix_file_issues fs (str "s") (str "q.sql")
              [mk 1] []) as Hrun.
  { unfold SQLCostOptimizer_fix.fix_issues_in_place.
    change (SQLCostOptimizer_fix.issues_by_file [mk 1])
      with [(str "q.sql", [mk 1])].
    cbn [for_each]. cbn [fst snd].
    destruct (SQLCostOptimizer._fix_file_issues _ _ _ _ _); reflexivity. }
  rewrite E in Hrun.
  eexists _, _. split; [exact Hrun|].
  rewrite (fix_touches_only_files_with_findings _ _ _ _ _ _ _
             (str "r.sql") Hrun); [reflexivity|].
  intros i Hi. apply elem_of_cons in Hi as [->|Hi].
  - split; vm_compute; discriminate.
  - by apply elem_of_nil in Hi.
Defined.

(** ** The line scanner of [SqlOptimizer] *)

Ltac pick_issue H :=
  repeat match type of H with
         | _ ∈ (if ?b then _ else _) => destruct b
         end;
  first [apply list_elem_of_singleton in H as ->
        |by apply elem_of_nil in H].

Section check_file_lemmas.

Import SqlOptimizer.

Lemma concat_imap_elem {A B} (f : nat → A → list B) ls x :
  x ∈ concat (imap f ls) ↔ ∃ n l, ls !! n = Some l ∧ x ∈ f n l.
Proof.
  revert f. induction ls as [|a ls IH]; intros f; simpl.
  { split; [by intros ?%elem_of_nil|by intros (n & l & ? & _)]. }
  rewrite elem_of_app, IH. split.
  - intros [H|(n & l & Hl & H)]; [by exists 0%nat, a|by exists (S n), l].
  - intros ([|n] & l & Hl & H); simpl in *; [left; by simplify_eq|].
    right. by exists n, l.
Qed.

Lemma same_line_sorted (found : list issue) z :
  (∀ x, x ∈ found → line x = z) →
  StronglySorted (λ a b, line a ≤ line b) found.
Proof.
  induction found as [|a found IH]; intros H; constructor.
  - apply IH. intros x Hx. apply H. by right.
  - apply Forall_forall. intros x Hx.
    rewrite (H a) by left. rewrite (H x) by (by right). lia.
Qed.

Lemma concat_imap_sorted {A} (f : nat → A → list issue) (g : nat → Z) ls :
  (∀ n m, (n ≤ m)%nat → g n ≤ g m) →
  (∀ n l x, x ∈ f n l → line x = g n) →
  StronglySorted (λ a b, line a ≤ line b) (concat (imap f ls)).
Proof.
  revert f g. induction ls as [|a ls IH]; intros f g Hg Hf; simpl.
  { constructor. }
  apply StronglySorted_app. split_and!.
  - intros x1 x2 H1 (n & l & _ & H2)%concat_imap_elem.
    rewrite (Hf _ _ _ H1). unfold compose in H2. rewrite (Hf _ _ _ H2).
    apply Hg. lia.
  - apply (same_line_sorted _ (g 0%nat)). intros x. apply Hf.
  - apply (IH _ (g ∘ S)); unfold compose.
    + intros n m ?. apply Hg. lia.
    + intros n l x. apply Hf.
Qed.

(** What every element of the list of one line holds. *)
Lemma check_line_fields lines i l x :
  x ∈ check_line lines i l →
  line x = Z.of_nat i ∧ content x = Py.strip l
  ∧ Py.strip (Py.upper l) ≠ []
  ∧ Py.startswith (Py.strip (Py.upper l)) (str "--") = false.
Proof.
  unfold check_line.
  destruct (Py.startswith _ _) eqn:Hs; cbn [orb];
    [by intros ?%elem_of_nil|].
  case_bool_decide; [by intros ?%elem_of_nil|].
  rewrite !elem_of_app. intros Hx.
  split_and!; [| |done..];
    (destruct Hx as [Hx|[Hx|[Hx|[Hx|[Hx|Hx]]]]];
     [pick_issue Hx; done
     |apply list_elem_of_In, in_flat_map in Hx as (table & _ & Hx);
      apply list_elem_of_In in Hx; pick_issue Hx; done
     |pick_issue Hx; done..]).
Qed.

Lemma check_file_elem fs path x :
  x ∈ check_file fs path ↔
  ∃ data n l, read_text fs path = Some data
    ∧ Py.split data NL !! n = Some l
    ∧ x ∈ check_line (Py.split data NL) (S n) l.
Proof.
  unfold check_file. destruct (read_text fs path) as [data|].
  - rewrite concat_imap_elem. split.
    + intros (n & l & Hl & Hx). by exists data, n, l.
    + intros (? & n & l & [= <-] & Hl & Hx). by exists n, l.
  - split; [by intros ?%elem_of_nil|by intros (? & ? & ? & ? & _)].
Qed.

End check_file_lemmas.

(** X12: a finding of [check_file] points at a line of the file: its line
    number, counted from 1, is the number of a line of the text split at
    newlines, its content is that line stripped, and the line is neither
    blank nor a [--] comment line. *)
Theorem check_file_finding_points_at_line fs path x :
  x ∈ SqlOptimizer.check_file fs path →
  ∃ data l,
    read_text fs path = Some data
    ∧ 1 ≤ SqlOptimizer.line x
    ∧ Py.split data NL !! Z.to_nat (SqlOptimizer.line x - 1) = Some l
    ∧ SqlOptimizer.content x = Py.strip l
    ∧ Py.strip (Py.upper l) ≠ []
    ∧ Py.startswith (Py.strip (Py.upper l)) (str "--") = false.
Proof.
  intros (data & n & l & Hread & Hl & Hx)%check_file_elem.
  apply check_line_fields in Hx as (Hline & Hcontent & Hne & Hcomment).
  exists data, l. rewrite Hline.
  replace (Z.to_nat (Z.of_nat (S n) - 1)) with n by lia.
  split_and!; [done|lia|done..].
Qed.

Lemma check_file_finding_points_at_line_witness :
  let data := str "-- totals" ++ [NL] ++ str "  SELECT * FROM t" in
  let fs : gmap text node := {[ str "q.sql" := Data data ]} in
  ∃ x, x ∈ SqlOptimizer.check_file fs (str "q.sql")
       ∧ SqlOptimizer.line x = 2
       ∧ SqlOptimizer.content x = str "SELECT * FROM t".
Proof.
  intros data fs.
  assert (∃ x, SqlOptimizer.check_file fs (str "q.sql") = [x]) as [x Hx].
  { eexists. vm_compute. reflexivity. }
  assert (x ∈ SqlOptimizer.check_file fs (str "q.sql")) as Hin.
  { rewrite Hx. left. }
  exists x. split; [exact Hin|].
  destruct (check_file_finding_points_at_line fs (str "q.sql") x Hin)
    as (data' & l & Hread & Hge & Hl & Hcontent & _).
  assert (Some data' = Some data) as [= ->].
  { rewrite <- Hread. vm_compute. reflexivity. }
  assert (x = {| SqlOptimizer.line := 2;
                 SqlOptimizer.type := str "select_star";
                 SqlOptimizer.description :=
                   str "SELECT * found - scans all columns";
                 SqlOptimizer.content := str "SELECT * FROM t";
                 SqlOptimizer.severity := str "HIGH" |}) as ->.
  { vm_compute in Hx. injection Hx as <-. vm_compute. reflexivity. }
  split; reflexivity.
Defined.

(** X13: the findings of [check_file] come in ascending order of their
    line numbers. *)
Theorem check_file_ascending fs path :
  StronglySorted (λ a b, SqlOptimizer.line a ≤ SqlOptimizer.line b)
    (SqlOptimizer.check_file fs path).
Proof.
  unfold SqlOptimizer.check_file.
  destruct (read_text fs path) as [data|]; [|constructor].
  apply (concat_imap_sorted _ (λ n, Z.of_nat (S n))).
  - intros n m ?. lia.
  - intros n l x Hx. by apply check_line_fields in Hx as (? & _).
Qed.

Section where_window.

Import SqlOptimizer.

Lemma slice_elem {A} (ls : list A) (a b : Z) m x :
  ls !! m = Some x → 0 ≤ a → a ≤ Z.of_nat m < b → x ∈ Py.slice ls a b.
Proof.
  intros Hm Ha Hab. pose proof (lookup_lt_Some _ _ _ Hm) as Hlt.
  unfold Py.slice, Py.clip.
  destruct (Z.ltb_spec a 0); [lia|]. destruct (Z.ltb_spec b 0); [lia|].
  apply list_elem_of_lookup. exists (m - Z.to_nat a `min` length ls)%nat.
  rewrite lookup_take_lt by lia. rewrite lookup_drop. rewrite <- Hm.
  f_equal. lia.
Qed.

Lemma slice_elem_inv {A} (ls : list A) (a b : Z) x :
  x ∈ Py.slice ls a b → 0 ≤ a → 0 ≤ b →
  ∃ m, ls !! m = Some x ∧ a ≤ Z.of_nat m < b.
Proof.
  unfold Py.slice, Py.clip. intros Hx Ha Hb.
  destruct (Z.ltb_spec a 0); [lia|]. destruct (Z.ltb_spec b 0); [lia|].
  apply list_elem_of_lookup in Hx as [k Hk].
  apply lookup_take_Some in Hk as [Hk Hlt]. rewrite lookup_drop in Hk.
  pose proof (lookup_lt_Some _ _ _ Hk).
  eexists. split; [exact Hk|]. lia.
Qed.

Lemma has_where_window lines i :
  has_where lines i = true ↔
  ∃ m l', lines !! m = Some l'
          ∧ Py.contains (Py.upper l') (str "WHERE") = true
          ∧ Z.of_nat i - 2 ≤ Z.of_nat m ≤ Z.of_nat i + 2.
Proof.
  unfold has_where. rewrite existsb_exists. split.
  - intros (l' & Hin & Hw). apply list_elem_of_In in Hin.
    apply slice_elem_inv in Hin as (m & Hm & Hr); unfold Py.len; [|lia..].
    exists m, l'. split_and!; [done..|lia|lia].
  - intros (m & l' & Hm & Hw & Hr). exists l'. split; [|done].
    apply list_elem_of_In. apply (slice_elem _ _ _ m); [done|lia|].
    pose proof (lookup_lt_Some _ _ _ Hm). unfold Py.len. lia.
Qed.

(** The findings of one line whose type is [missing_where]. *)
Lemma check_line_missing_where lines i l x :
  x ∈ check_line lines i l → type x = str "missing_where" →
  has_where lines i = false
  ∧ ∃ table, table ∈ large_tables
      ∧ (Py.contains (Py.strip (Py.upper l)) (str "FROM " ++ table)
         || Py.contains (Py.strip (Py.upper l)) (str "JOIN " ++ table)) = true.
Proof.
  unfold check_line.
  destruct (Py.startswith _ _) eqn:Hs; cbn [orb];
    [by intros ?%elem_of_nil|].
  case_bool_decide; [by intros ?%elem_of_nil|].
  rewrite !elem_of_app. fold (has_where lines i).
  intros [Hx|[Hx|[Hx|[Hx|[Hx|Hx]]]]] Hty;
    try (pick_issue Hx; cbn [type] in Hty; vm_compute in Hty;
         discriminate Hty).
  apply list_elem_of_In, in_flat_map in Hx as (table & Hin & Hx).
  apply list_elem_of_In in Hx, Hin.
  destruct (_ || _) eqn:Hc; [|by apply elem_of_nil in Hx].
  destruct (has_where lines i); [by apply elem_of_nil in Hx|].
  split; [done|]. by exists table.
Qed.

End where_window.

(** X14: the window in which [check_file] looks for a [WHERE] is not
    symmetric.  A line that holds [WHERE], in any letter case, and that is
    the line before a query on a large table, its own line, or one of the
    three lines after it, keeps [check_file] from reporting a missing
    [WHERE] on the line of the query. *)
Theorem where_nearby_suppresses_missing_where fs path data m l' x :
  read_text fs path = Some data →
  Py.split data NL !! m = Some l' →
  Py.contains (Py.upper l') (str "WHERE") = true →
  x ∈ SqlOptimizer.check_file fs path →
  SqlOptimizer.line x - 1 ≤ Z.of_nat (S m) ≤ SqlOptimizer.line x + 3 →
  SqlOptimizer.type x ≠ str "missing_where".
Proof.
  intros Hread Hm Hw (data' & n & l & Hread' & Hl & Hx)%check_file_elem Hr Hty.
  assert (data' = data) as -> by congruence.
  pose proof (check_line_fields _ _ _ _ Hx) as (Hline & _).
  apply check_line_missing_where in Hx as [Hno _]; [|done].
  assert (has_where (Py.split data NL) (S n) = true) as Hyes.
  { apply has_where_window. exists m, l'. split_and!; [done..|lia|lia]. }
  congruence.
Qed.

Lemma where_nearby_suppresses_missing_where_witness :
  let data := str "SELECT * FROM orders" ++ [NL] ++ [NL] ++ [NL]
              ++ str "where a > 1" in
  let fs : gmap text node := {[ str "q.sql" := Data data ]} in
  ∃ x, SqlOptimizer.check_file fs (str "q.sql") = [x]
       ∧ SqlOptimizer.line x = 1
       ∧ SqlOptimizer.type x ≠ str "missing_where".
Proof.
  intros data fs.
  assert (∃ x, SqlOptimizer.check_file fs (str "q.sql") = [x]
               ∧ SqlOptimizer.line x = 1) as (x & Hx & Hline).
  { eexists. split; vm_compute; reflexivity. }
  assert (x ∈ SqlOptimizer.check_file fs (str "q.sql")) as Hin.
  { rewrite Hx. left. }
  exists x. split_and!; [exact Hx|exact Hline|].
  apply (where_nearby_suppresses_missing_where fs (str "q.sql") data 3%nat
           (str "where a > 1") x).
  - vm_compute. reflexivity.
  - vm_compute. reflexivity.
  - vm_compute. reflexivity.
  - exact Hin.
  - rewrite Hline. lia.
Defined.

(** X15: [check_file] reports a missing [WHERE] on every line that is not
    blank, is no [--] comment line, names a large table after [FROM] or
    [JOIN], and has no [WHERE] from the line before it to the third line
    after it. *)
Theorem missing_where_is_reported fs path data n l table :
  read_text fs path = Some data →
  Py.split data NL !! n = Some l →
  Py.strip (Py.upper l) ≠ [] →
  Py.startswith (Py.strip (Py.upper l)) (str "--") = false →
  table ∈ SqlOptimizer.large_tables →
  Py.contains (Py.strip (Py.upper l)) (str "FROM " ++ table) = true
  ∨ Py.contains (Py.strip (Py.upper l)) (str "JOIN " ++ table) = true →
  (∀ m l', Py.split data NL !! m = Some l' →
           Z.of_nat n - 1 ≤ Z.of_nat m ≤ Z.of_nat n + 3 →
           Py.contains (Py.upper l') (str "WHERE") = false) →
  ∃ x, x ∈ SqlOptimizer.check_file fs path
       ∧ SqlOptimizer.line x = Z.of_nat n + 1
       ∧ SqlOptimizer.type x = str "missing_where"
       ∧ SqlOptimizer.content x = Py.strip l.
Proof.
  intros Hread Hl Hne Hs Htable Hc Hno.
  assert (has_where (Py.split data NL) (S n) = false) as Hw.
  { destruct (has_where _ _) eqn:E; [|done].
    apply has_where_window in E as (m & l' & Hm & Hw & Hr).
    rewrite (Hno m l' Hm) in Hw by lia. done. }
  eexists. split.
  - apply check_file_elem. exists data, n, l. split_and!; [done..|].
    unfold SqlOptimizer.check_line. rewrite Hs. cbn [orb].
    rewrite bool_decide_eq_false_2 by done.
    rewrite !elem_of_app. right. left.
    apply list_elem_of_In, in_flat_map. exists table.
    split; [by apply list_elem_of_In|].
    fold (has_where (Py.split data NL) (S n)). rewrite Hw.
    replace (_ || _) with true
      by (symmetry; apply orb_true_iff; destruct Hc; auto).
    cbn [negb]. left. reflexivity.
  - cbn [SqlOptimizer.line SqlOptimizer.type SqlOptimizer.content].
    split_and!; [lia|done..].
Qed.

Lemma missing_where_is_reported_witness :
  let data := str "where x" ++ [NL] ++ [NL] ++ str "SELECT a FROM orders" in
  let fs : gmap text node := {[ str "q.sql" := Data data ]} in
  ∃ x, x ∈ SqlOptimizer.check_file fs (str "q.sql")
       ∧ SqlOptimizer.line x = 3
       ∧ SqlOptimizer.type x = str "missing_where".
Proof.
  intros data fs.
  destruct (missing_where_is_reported fs (str "q.sql") data 2%nat
              (str "SELECT a FROM orders") (str "ORDERS"))
    as (x & Hx & Hline & Hty & _).
  - vm_compute. reflexivity.
  - vm_compute. reflexivity.
  - vm_compute. discriminate.
  - vm_compute. reflexivity.
  - vm_compute. do 3 right. left.
  - left. vm_compute. reflexivity.
  - intros [|[|[|m]]] l' Hm Hr; [lia| | |].
    + vm_compute in Hm. injection Hm as <-. vm_compute. reflexivity.
    + vm_compute in Hm. injection Hm as <-. vm_compute. reflexivity.
    + vm_compute in Hm. discriminate Hm.
  - exists x. split_and!; [exact Hx|exact Hline|exact Hty].
Defined.

(** ** [scan_files] and [fix_files] of [SqlOptimizer] *)

Section fix_files_lemmas.

Import SqlOptimizer SqlOptimizer_fix.

Lemma scan_files_fold fs sql_files results :
  foldl (λ results path,
      match check_file fs path with
      | [] => results
      | found => results ++ [{| file := path; issues := found |}]
      end) results sql_files
  = results ++ ((λ p, {| file := p; issues := check_file fs p |})
                  <$> filter (λ p, check_file fs p ≠ []) sql_files).
Proof.
  revert results. induction sql_files as [|p ps IH]; intros results; simpl.
  { by rewrite app_nil_r. }
  rewrite IH, filter_cons. destruct (check_file fs p) as [|x found] eqn:E.
  - by rewrite decide_False by (by intros []).
  - rewrite decide_True by done. rewrite fmap_cons, E.
    by rewrite <- app_assoc.
Qed.

(** One turn of the loop of [fix_files] that does not raise. *)
Lemma fix_entry_inv backup_dir fs out r fs' out' :
  fix_entry backup_dir (fs, out) r = Some (fs', out') →
  path_join backup_dir (basename (file r) ++ str ".bak") ≠ file r →
  ∃ bytes,
    fs !! file r = Some (Data bytes)
    ∧ fs' = <[file r := Data (fixed_content (Py.universal_newlines bytes))]>
              (<[path_join backup_dir (basename (file r) ++ str ".bak")
                 := Data bytes]> fs)
    ∧ out' = out ++ [FixedFile (file r)
                       (path_join backup_dir
                          (basename (file r) ++ str ".bak"))].
Proof.
  unfold fix_entry. cbn [fst snd].
  set (bp := path_join backup_dir (basename (file r) ++ str ".bak")).
  intros H Hne. unfold mbind, option_bind in H.
  destruct (copy2 fs (file r) bp) as [fs1|] eqn:Hc; [|done].
  destruct (fix_single_file fs1 (file r) (issues r)) as [fs2|] eqn:Hf;
    [|done].
  injection H as <- <-.
  unfold copy2 in Hc.
  assert (∃ bytes, (fs !! file r = Some (Data bytes)
                    ∨ fs !! file r = Some (ReadOnly bytes))
                   ∧ fs1 = <[bp := Data bytes]> fs) as (bytes & Hsrc & ->).
  { destruct (fs !! file r) as [[bytes|bytes|]|]; try done;
      exists bytes; (split; [auto|]);
      by destruct (fs !! bp) as [[| |]|]; simplify_eq. }
  unfold fix_single_file, read_text, write_text in Hf.
  unfold mbind, option_bind in Hf.
  rewrite lookup_insert_ne in Hf by done.
  exists bytes. destruct Hsrc as [Hsrc|Hsrc]; rewrite Hsrc in Hf;
    [|done]. by simplify_eq.
Qed.

(** One turn of the loop on a file that opens, with a backup path that
    can be written. *)
Lemma fix_entry_success backup_dir fs out r bytes :
  fs !! file r = Some (Data bytes) →
  (fs !! path_join backup_dir (basename (file r) ++ str ".bak") = None
   ∨ ∃ b, fs !! path_join backup_dir (basename (file r) ++ str ".bak")
          = Some (Data b)) →
  path_join backup_dir (basename (file r) ++ str ".bak") ≠ file r →
  fix_entry backup_dir (fs, out) r
  = Some (<[file r := Data (fixed_content (Py.universal_newlines bytes))]>
            (<[path_join backup_dir (basename (file r) ++ str ".bak")
               := Data bytes]> fs),
          out ++ [FixedFile (file r)
                    (path_join backup_dir
                       (basename (file r) ++ str ".bak"))]).
Proof.
  unfold fix_entry. cbn [fst snd].
  set (bp := path_join backup_dir (basename (file r) ++ str ".bak")).
  intros Hsrc Hdst Hne.
  assert (copy2 fs (file r) bp = Some (<[bp := Data bytes]> fs)) as ->.
  { unfold copy2. rewrite Hsrc. by destruct Hdst as [->|[b ->]]. }
  unfold mbind, option_bind.
  unfold fix_single_file, read_text, write_text, mbind, option_bind.
  rewrite lookup_insert_ne by done. by rewrite Hsrc.
Qed.

End fix_files_lemmas.

(** X16: [scan_files] appends to the results it already holds one entry
    for each file in which [check_file] finds something, in the order of
    the walk and with the findings of [check_file]; a file without
    findings, or one that does not read, gets no entry. *)
Theorem scan_files_results fs sql_files results out :
  (SqlOptimizer.scan_files fs sql_files results out).1
  = results
    ++ ((λ p, {| SqlOptimizer.file := p;
                 SqlOptimizer.issues := SqlOptimizer.check_file fs p |})
        <$> filter (λ p, SqlOptimizer.check_file fs p ≠ []) sql_files).
Proof. unfold SqlOptimizer.scan_files. cbn [fst]. apply scan_files_fold. Qed.

(** X17: when [fix_files] has handled a file without raising, the backup
    path holds the bytes that the file held before, the file holds the
    text rewritten by the four substitutions, and every other path holds
    what it held. *)
Theorem fix_entry_backup_holds_original backup_dir fs out r fs' out' :
  SqlOptimizer.fix_entry backup_dir (fs, out) r = Some (fs', out') →
  SqlOptimizer.path_join backup_dir
    (SqlOptimizer.basename (SqlOptimizer.file r) ++ str ".bak")
  ≠ SqlOptimizer.file r →
  ∃ bytes,
    fs !! SqlOptimizer.file r = Some (Data bytes)
    ∧ fs' !! SqlOptimizer.path_join backup_dir
               (SqlOptimizer.basename (SqlOptimizer.file r) ++ str ".bak")
      = Some (Data bytes)
    ∧ fs' !! SqlOptimizer.file r
      = Some (Data (SqlOptimizer.fixed_content (Py.universal_newlines bytes)))
    ∧ ∀ p, p ≠ SqlOptimizer.file r →
           p ≠ SqlOptimizer.path_join backup_dir
                 (SqlOptimizer.basename (SqlOptimizer.file r) ++ str ".bak") →
           fs' !! p = fs !! p.
Proof.
  intros H Hne.
  destruct (fix_entry_inv _ _ _ _ _ _ H Hne) as (bytes & Hsrc & -> & _).
  exists bytes. split_and!; [done| | |].
  - rewrite lookup_insert_ne by done. by rewrite lookup_insert_eq.
  - by rewrite lookup_insert_eq.
  - intros p H1 H2. by rewrite !lookup_insert_ne by done.
Qed.

Lemma fix_entry_backup_holds_original_witness :
  let fs : gmap text node :=
    {[ str "etl/q.sql" := Data (str "SELECT 1 UNION SELECT 2") ]} in
  let r := {| SqlOptimizer.file := str "etl/q.sql";
              SqlOptimizer.issues := [] |} in
  ∃ fs' out',
    SqlOptimizer.fix_entry (str "backup") (fs, []) r = Some (fs', out')
    ∧ fs' !! str "backup/q.sql.bak"
      = Some (Data (str "SELECT 1 UNION SELECT 2")).
Proof.
  intros fs r.
  assert (SqlOptimizer.path_join (str "backup")
            (SqlOptimizer.basename (SqlOptimizer.file r) ++ str ".bak")
          = str "backup/q.sql.bak") as Hbp by (vm_compute; reflexivity).
  assert (str "backup/q.sql.bak" ≠ str "etl/q.sql") as Hne
    by (vm_compute; discriminate).
  pose proof (fix_entry_success (str "backup") fs [] r
                (str "SELECT 1 UNION SELECT 2")) as E.
  rewrite Hbp in E. specialize (E eq_refl (or_introl eq_refl) Hne).
  eexists _, _. split; [exact E|].
  pose proof (λ fs' out',
    fix_entry_backup_holds_original (str "backup") fs [] r fs' out') as H.
  rewrite Hbp in H.
  destruct (H _ _ E Hne) as (bytes & Hsrc & Hbak & _).
  assert (Some (Data bytes) = Some (Data (str "SELECT 1 UNION SELECT 2")))
    as [= ->] by (rewrite <- Hsrc; reflexivity).
  exact Hbak.
Defined.

(** X18: the backup is named by the base name of the file alone, so two
    files of the same name in different directories share one backup path:
    after [fix_files] has handled both, that path holds the bytes of the
    second file, and the backup of the first is gone. *)
Theorem backups_of_equal_names_collide backup_dir fs out r1 r2 fs' out' :
  SqlOptimizer_fix.fix_loop backup_dir [r1; r2] (fs, out)
  = Some (fs', out') →
  SqlOptimizer.basename (SqlOptimizer.file r1)
  = SqlOptimizer.basename (SqlOptimizer.file r2) →
  SqlOptimizer.file r1 ≠ SqlOptimizer.file r2 →
  SqlOptimizer.path_join backup_dir
    (SqlOptimizer.basename (SqlOptimizer.file r1) ++ str ".bak")
  ≠ SqlOptimizer.file r1 →
  SqlOptimizer.path_join backup_dir
    (SqlOptimizer.basename (SqlOptimizer.file r1) ++ str ".bak")
  ≠ SqlOptimizer.file r2 →
  ∃ bytes1 bytes2,
    fs !! SqlOptimizer.file r1 = Some (Data bytes1)
    ∧ fs !! SqlOptimizer.file r2 = Some (Data bytes2)
    ∧ fs' !! SqlOptimizer.path_join backup_dir
               (SqlOptimizer.basename (SqlOptimizer.file r1) ++ str ".bak")
      = Some (Data bytes2)
    ∧ fs' !! SqlOptimizer.file r1
      = Some (Data (SqlOptimizer.fixed_content
                      (Py.universal_newlines bytes1))).
Proof.
  intros H Hbase Hfiles Hne1 Hne2. cbn [SqlOptimizer_fix.fix_loop] in H.
  unfold mbind, option_bind in H.
  destruct (SqlOptimizer.fix_entry backup_dir (fs, out) r1)
    as [[fs1 out1]|] eqn:E1; [|done].
  destruct (SqlOptimizer.fix_entry backup_dir (fs1, out1) r2)
    as [[fs2 out2]|] eqn:E2; [|done].
  injection H as <- <-.
  destruct (fix_entry_inv _ _ _ _ _ _ E1 Hne1) as (bytes1 & Hsrc1 & -> & _).
  rewrite Hbase in Hne2.
  destruct (fix_entry_inv _ _ _ _ _ _ E2 Hne2) as (bytes2 & Hsrc2 & -> & _).
  rewrite lookup_insert_ne in Hsrc2 by done.
  rewrite lookup_insert_ne in Hsrc2 by (by rewrite Hbase).
  exists bytes1, bytes2. rewrite Hbase. split_and!; [done..| |].
  - rewrite lookup_insert_ne by done. by rewrite lookup_insert_eq.
  - rewrite lookup_insert_ne by done.
    rewrite lookup_insert_ne by (by rewrite <- Hbase).
    by rewrite lookup_insert_eq.
Qed.

Lemma backups_of_equal_names_collide_witness :
  let fs : gmap text node :=
    {[ str "a/q.sql" := Data (str "SELECT 1");
       str "b/q.sql" := Data (str "SELECT 2") ]} in
  let r1 := {| SqlOptimizer.file := str "a/q.sql";
               SqlOptimizer.issues := [] |} in
  let r2 := {| SqlOptimizer.file := str "b/q.sql";
               SqlOptimizer.issues := [] |} in
  ∃ fs' out',
    SqlOptimizer_fix.fix_loop (str "backup") [r1; r2] (fs, [])
    = Some (fs', out')
    ∧ fs' !! str "backup/q.sql.bak" = Some (Data (str "SELECT 2")).
Proof.
  intros fs r1 r2.
  assert (SqlOptimizer.path_join (str "backup")
            (SqlOptimizer.basename (SqlOptimizer.file r1) ++ str ".bak")
          = str "backup/q.sql.bak") as Hbp1 by (vm_compute; reflexivity).
  assert (SqlOptimizer.path_join (str "backup")
            (SqlOptimizer.basename (SqlOptimizer.file r2) ++ str ".bak")
          = str "backup/q.sql.bak") as Hbp2 by (vm_compute; reflexivity).
  assert (str "backup/q.sql.bak" ≠ str "a/q.sql") as Hne1
    by (vm_compute; discriminate).
  assert (str "backup/q.sql.bak" ≠ str "b/q.sql") as Hne2
    by (vm_compute; discriminate).
  assert (str "a/q.sql" ≠ str "b/q.sql") as Hne
    by (vm_compute; discriminate).
  pose proof (fix_entry_success (str "backup") fs [] r1 (str "SELECT 1"))
    as E1.
  rewrite Hbp1 in E1. specialize (E1 eq_refl (or_introl eq_refl) Hne1).
  pose proof (λ fs1 out1,
    fix_entry_success (str "backup") fs1 out1 r2 (str "SELECT 2")) as E2.
  rewrite Hbp2 in E2.
  assert (∃ st, SqlOptimizer_fix.fix_loop (str "backup") [r1; r2] (fs, [])
                = Some st) as [[fs' out'] E].
  { cbn [SqlOptimizer_fix.fix_loop]. rewrite E1.
    unfold mbind at 1, option_bind at 1. rewrite E2; [eauto| |right|done].
    - rewrite lookup_insert_ne by done.
      rewrite lookup_insert_ne by done. reflexivity.
    - rewrite lookup_insert_ne by done.
      rewrite lookup_insert_eq. eauto. }
  exists fs', out'. split; [exact E|].
  pose proof (backups_of_equal_names_collide (str "backup") fs [] r1 r2
                fs' out' E eq_refl Hne) as H.
  rewrite Hbp1 in H.
  destruct (H Hne1 Hne2) as (bytes1 & bytes2 & _ & Hsrc2 & Hbak & _).
  assert (Some (Data bytes2) = Some (Data (str "SELECT 2"))) as [= ->]
    by (rewrite <- Hsrc2; reflexivity).
  exact Hbak.
Defined.

(** ** What the matcher consumes *)

Section matcher_lemmas.

Import Re.

Context (icase : bool).

Lemma lit_inv s pre rest k e :
  lit icase s pre rest k = Some e →
  ∃ m r, rest = m ++ r
         ∧ Forall2 (λ p c, char_eq icase p c = true) s m
         ∧ k (rev m ++ pre) r = Some e.
Proof.
  revert pre rest. induction s as [|p s IH]; intros pre rest; simpl.
  { intros H. exists [], rest. by split_and!. }
  destruct rest as [|c rest]; [done|].
  destruct (char_eq icase p c) eqn:E; [|done].
  intros (m & r & -> & Hm & Hk)%IH. exists (c :: m), r.
  split_and!; [done|by constructor|].
  simpl. by rewrite <- app_assoc.
Qed.

Lemma lit_intro s m pre r k :
  Forall2 (λ p c, char_eq icase p c = true) s m →
  lit icase s pre (m ++ r) k = k (rev m ++ pre) r.
Proof.
  intros H. revert pre.
  induction H as [|p c s m Hpc H IH]; intros pre; simpl; [done|].
  rewrite Hpc, IH. by rewrite <- app_assoc.
Qed.

Lemma star_inv cl pre rest k e :
  star cl pre rest k = Some e →
  ∃ m r, rest = m ++ r
         ∧ Forall (λ c, in_class cl c = true) m
         ∧ k (rev m ++ pre) r = Some e.
Proof.
  revert pre. induction rest as [|c rest IH]; intros pre; simpl.
  { intros H. exists [], []. by split_and!. }
  assert (k pre (c :: rest) = Some e →
          ∃ m r, c :: rest = m ++ r
                 ∧ Forall (λ c, in_class cl c = true) m
                 ∧ k (rev m ++ pre) r = Some e) as Hstop.
  { intros H. exists [], (c :: rest). by split_and!. }
  destruct (in_class cl c) eqn:E; [|done].
  destruct (star cl (c :: pre) rest k) as [e'|] eqn:Hs; [|done].
  intros [= ->]. apply IH in Hs as (m & r & -> & Hm & Hk).
  exists (c :: m), r. split_and!; [done|by constructor|].
  simpl. by rewrite <- app_assoc.
Qed.

Lemma star_fallback cl pre rest k e :
  k pre rest = Some e → is_Some (star cl pre rest k).
Proof.
  intros H. destruct rest as [|c rest]; simpl; [eauto|].
  destruct (in_class cl c); [|eauto].
  destruct (star cl (c :: pre) rest k); eauto.
Qed.

Lemma star_stop cl pre rest k :
  (∀ c, head rest = Some c → in_class cl c = false) →
  star cl pre rest k = k pre rest.
Proof.
  intros H. destruct rest as [|c rest]; simpl; [done|].
  by rewrite (H c).
Qed.

End matcher_lemmas.

Lemma char_eq_star c : Re.char_eq true "*" c = true → c = "*"%char.
Proof.
  destruct c as [[] [] [] [] [] [] [] []]; vm_compute; intros;
    first [reflexivity|discriminate].
Qed.

(** ** The rule on [UNION] *)

Section union_rule.

Import Re.

Lemma lower_Forall2 s m :
  Py.lower m = Py.lower s ↔ Forall2 (λ p c, char_eq true p c = true) s m.
Proof.
  revert m. induction s as [|p s IH]; intros [|c m]; simpl.
  - split; [constructor|done].
  - split; [done|inversion 1].
  - split; [done|inversion 1].
  - split.
    + intros [= Hc Hm]. constructor; [|by apply IH].
      unfold char_eq. rewrite Hc. apply Ascii.eqb_refl.
    + intros (Hc & Hm)%Forall2_cons. unfold char_eq in Hc.
      apply ascii_eqb_true in Hc. f_equal; [done|by apply IH].
Qed.

Lemma char_U_facts c :
  char_eq true "U" c = true →
  Py.isword c = true ∧ Py.isspace c = false
  ∧ char_eq true "N" c = false ∧ char_eq true "I" c = false
  ∧ char_eq true "O" c = false.
Proof.
  destruct c as [[] [] [] [] [] [] [] []]; vm_compute; intros;
    first [discriminate|by split_and!].
Qed.

Lemma char_A_facts c : char_eq true "A" c = true → Py.isspace c = false.
Proof.
  destruct c as [[] [] [] [] [] [] [] []]; vm_compute; intros;
    first [discriminate|reflexivity].
Qed.

Lemma char_L_facts c : char_eq true "L" c = true → Py.isword c = true.
Proof.
  destruct c as [[] [] [] [] [] [] [] []]; vm_compute; intros;
    first [discriminate|reflexivity].
Qed.

(** The lookahead [ALL\b] at the text [r]. *)
Lemma all_word_run pre r :
  is_Some (run true (Seq (SQLCostOptimizer.L "ALL") WordB) pre r found) ↔
  ∃ a r', r = a ++ r' ∧ Py.lower a = Py.lower (str "ALL")
          ∧ word_after r' = false.
Proof.
  unfold SQLCostOptimizer.L. cbn [run]. split.
  - intros [e (a & r' & -> & Ha & H)%lit_inv].
    exists a, r'. split_and!; [done|by apply lower_Forall2|].
    change (str "ALL") with ["A"; "L"; "L"]%char in Ha.
    apply Forall2_cons_inv_l in Ha as (a1 & ? & _ & Ha & ->).
    apply Forall2_cons_inv_l in Ha as (a2 & ? & _ & Ha & ->).
    apply Forall2_cons_inv_l in Ha as (a3 & ? & H3 & Ha & ->).
    apply Forall2_nil_inv_l in Ha as ->. apply char_L_facts in H3.
    unfold at_boundary in H. simpl in H. rewrite H3 in H.
    by destruct (word_after r').
  - intros (a & r' & -> & Ha & Hr). apply lower_Forall2 in Ha.
    rewrite (lit_intro _ _ _ _ _ _ Ha).
    change (str "ALL") with ["A"; "L"; "L"]%char in Ha.
    apply Forall2_cons_inv_l in Ha as (a1 & ? & _ & Ha & ->).
    apply Forall2_cons_inv_l in Ha as (a2 & ? & _ & Ha & ->).
    apply Forall2_cons_inv_l in Ha as (a3 & ? & H3 & Ha & ->).
    apply Forall2_nil_inv_l in Ha as ->. apply char_L_facts in H3.
    unfold at_boundary. simpl. rewrite H3, Hr. simpl. eauto.
Qed.

(** What a match of [\bUNION\s+(?!ALL\b)] consumes. *)
Lemma match_union_inv pre rest e :
  match_here true SQLCostOptimizer.re_union_instead_union_all pre rest
  = Some e →
  word_before pre = false
  ∧ ∃ u w ws r,
      rest = u ++ w :: ws ++ r
      ∧ Forall2 (λ p c, char_eq true p c = true) (str "UNION") u
      ∧ Py.isspace w = true
      ∧ Forall (λ c, Py.isspace c = true) ws
      ∧ e = (length pre + 6 + length ws)%nat
      ∧ run true (Seq (SQLCostOptimizer.L "ALL") WordB)
          (rev ws ++ w :: rev u ++ pre) r found = None.
Proof.
  unfold match_here, SQLCostOptimizer.re_union_instead_union_all,
    SQLCostOptimizer.sp1, Plus.
  cbn [seq]. cbn [run].
  destruct (at_boundary pre rest) eqn:Hb; [|done].
  intros (u & r1 & -> & Hu & H)%lit_inv.
  destruct r1 as [|w r1]; [done|].
  destruct (in_class CSpace w) eqn:Hw; [|done].
  apply star_inv in H as (ws & r & -> & Hws & H).
  pose proof (Forall2_length _ _ _ Hu) as Hlen.
  change (length (str "UNION")) with 5%nat in Hlen.
  split.
  - destruct u as [|c u]; [done|].
    apply Forall2_cons_inv_r in Hu as (p & ? & Hc & _ & Hp).
    change (str "UNION") with ["U"; "N"; "I"; "O"; "N"]%char in Hp.
    injection Hp as <- _. apply char_U_facts in Hc as (Hc & _).
    unfold at_boundary in Hb. simpl in Hb. rewrite Hc in Hb.
    by destruct (word_before pre).
  - exists u, w, ws, r. split_and!; [done|done|exact Hw|exact Hws| |].
    + destruct (run true _ _ _ _); [done|]. injection H as <-.
      repeat (rewrite ?length_app, ?length_rev; simpl). lia.
    + cbn [run]. by destruct (run true _ _ _ _).
Qed.

(** A [UNION] at a word boundary with a whitespace character after it is
    matched, unless the word [ALL] comes right after that character. *)
Lemma match_union_intro pre u w rest :
  word_before pre = false →
  Forall2 (λ p c, char_eq true p c = true) (str "UNION") u →
  Py.isspace w = true →
  run true (Seq (SQLCostOptimizer.L "ALL") WordB) (w :: rev u ++ pre) rest
    found = None →
  is_Some (match_here true SQLCostOptimizer.re_union_instead_union_all pre
             (u ++ w :: rest)).
Proof.
  intros Hpre Hu Hw Hall.
  unfold match_here, SQLCostOptimizer.re_union_instead_union_all,
    SQLCostOptimizer.sp1, Plus.
  cbn [seq]. cbn [run].
  assert (at_boundary pre (u ++ w :: rest) = true) as ->.
  { destruct u as [|c u]; [by apply Forall2_nil_inv_r in Hu|].
    apply Forall2_cons_inv_r in Hu as (p & ? & Hc & _ & Hp).
    change (str "UNION") with ["U"; "N"; "I"; "O"; "N"]%char in Hp.
    injection Hp as <- _. apply char_U_facts in Hc as (Hc & _).
    unfold at_boundary. simpl. by rewrite Hpre, Hc. }
  unfold SQLCostOptimizer.L at 1. cbn [run].
  rewrite (lit_intro _ _ _ _ _ _ Hu).
  change (in_class CSpace w) with (Py.isspace w). rewrite Hw.
  apply (star_fallback _ _ _ _ (length (w :: rev u ++ pre))).
  cbn [run] in Hall. by rewrite Hall.
Qed.

(** The scan reaches a position at which the pattern matches, when no
    match that starts earlier runs over it. *)
Lemma scan_from_hit icase r pre a b skip e :
  match_here icase r (rev a ++ pre) b = Some e →
  (skip ≤ length a)%nat →
  (∀ a1 a2 e', a = a1 ++ a2 → (skip ≤ length a1)%nat → a2 ≠ [] →
     match_here icase r (rev a1 ++ pre) (a2 ++ b) = Some e' →
     (e' ≤ length pre + length a)%nat) →
  ((length pre + length a)%nat, e) ∈ scan_from icase r pre (a ++ b) skip.
Proof.
  revert pre skip. induction a as [|c a IH]; intros pre skip Hm Hskip Hfree.
  - simpl in *. assert (skip = 0)%nat as -> by lia.
    rewrite Nat.add_0_r. destruct b; simpl; rewrite Hm; left.
  - assert (∀ n, (n ≤ length a)%nat →
              (∀ a1 a2 e', a = a1 ++ a2 → (n ≤ length a1)%nat → a2 ≠ [] →
                 match_here icase r (rev a1 ++ c :: pre) (a2 ++ b) = Some e' →
                 (e' ≤ length pre + S (length a))%nat) →
              ((length pre + S (length a))%nat, e)
              ∈ scan_from icase r (c :: pre) (a ++ b) n) as Hnext.
    { intros n Hn Hfree'.
      replace (length pre + S (length a))%nat
        with (length (c :: pre) + length a)%nat by (simpl; lia).
      apply IH; [|done|].
      - simpl in Hm. by rewrite <- app_assoc in Hm.
      - intros a1 a2 e' -> Hn' Ha2 Hm'. simpl.
        specialize (Hfree' a1 a2 e' eq_refl Hn' Ha2 Hm'). lia. }
    simpl length. destruct skip as [|n]; simpl.
    + destruct (match_here icase r pre (c :: a ++ b)) as [e'|] eqn:E.
      * right. apply Hnext.
        -- specialize (Hfree [] (c :: a) e' eq_refl). simpl in Hfree.
           specialize (Hfree ltac:(lia) ltac:(done) E). lia.
        -- intros a1 a2 e2 -> _ Ha2 Hm'.
           apply (Hfree (c :: a1) a2 e2); [done|lia|done|].
           simpl. by rewrite <- app_assoc.
      * apply Hnext; [lia|].
        intros a1 a2 e2 -> _ Ha2 Hm'.
        apply (Hfree (c :: a1) a2 e2); [done|lia|done|].
        simpl. by rewrite <- app_assoc.
    + apply Hnext; [simpl in Hskip; lia|].
      intros a1 a2 e2 -> Hn Ha2 Hm'.
      apply (Hfree (c :: a1) a2 e2); [done|simpl; lia|done|].
      simpl. by rewrite <- app_assoc.
Qed.

(** A match of the pattern never runs over the [U] of a later [UNION]. *)
Lemma match_union_free pre a2 c0 b e' :
  a2 ≠ [] → char_eq true "U" c0 = true →
  match_here true SQLCostOptimizer.re_union_instead_union_all pre
    (a2 ++ c0 :: b) = Some e' →
  (e' ≤ length pre + length a2)%nat.
Proof.
  intros Ha2 Hc0 (_ & u & w & ws & r & Hrest & Hu & Hw & Hws & -> & _)
    %match_union_inv.
  destruct (decide (length a2 < 6 + length ws)%nat) as [Hlt|]; [|lia].
  exfalso.
  apply char_U_facts in Hc0 as (_ & Hsp & HN & HI & HO).
  assert ((u ++ w :: ws ++ r) !! length a2 = Some c0) as Hlook.
  { rewrite <- Hrest. by apply list_lookup_middle. }
  change (str "UNION") with ["U"; "N"; "I"; "O"; "N"]%char in Hu.
  apply Forall2_cons_inv_l in Hu as (u1 & ? & _ & Hu & ->).
  apply Forall2_cons_inv_l in Hu as (u2 & ? & H2 & Hu & ->).
  apply Forall2_cons_inv_l in Hu as (u3 & ? & H3 & Hu & ->).
  apply Forall2_cons_inv_l in Hu as (u4 & ? & H4 & Hu & ->).
  apply Forall2_cons_inv_l in Hu as (u5 & ? & H5 & Hu & ->).
  apply Forall2_nil_inv_l in Hu as ->.
  destruct a2 as [|x a2]; [done|]. simpl in Hlook, Hlt.
  destruct (length a2) as [|[|[|[|[|k]]]]]; simpl in Hlook;
    try (injection Hlook as ->; congruence).
  rewrite lookup_app_l in Hlook by lia.
  apply list_elem_of_lookup_2 in Hlook.
  rewrite Forall_forall in Hws. specialize (Hws _ Hlook). congruence.
Qed.

End union_rule.

Lemma catalogue_union entry :
  entry ∈ SQLCostOptimizer._initialize_patterns →
  entry.1 = str "union_instead_union_all" →
  SQLCostOptimizer.pattern entry.2
  = SQLCostOptimizer.re_union_instead_union_all.
Proof.
  unfold SQLCostOptimizer._initialize_patterns. intros H Hk.
  repeat (apply elem_of_cons in H as [->|H];
          [first [reflexivity|vm_compute in Hk; discriminate Hk]|]).
  by apply elem_of_nil in H.
Qed.

Lemma catalogue_has_union :
  ∃ entry, entry ∈ SQLCostOptimizer._initialize_patterns
    ∧ entry.1 = str "union_instead_union_all"
    ∧ SQLCostOptimizer.pattern entry.2
      = SQLCostOptimizer.re_union_instead_union_all
    ∧ SQLCostOptimizer.p_severity entry.2 = SQLCostOptimizer.MEDIUM.
Proof.
  unfold SQLCostOptimizer._initialize_patterns. eexists. split.
  - do 4 right. left.
  - split_and!; reflexivity.
Qed.

(** The position [s] of a text with a [UNION] at it. *)
Lemma union_at content s :
  occurs_ci (str "UNION") content s →
  ∃ u b, content = take s content ++ u ++ b
         ∧ length (take s content) = s
         ∧ Forall2 (λ p c, Re.char_eq true p c = true) (str "UNION") u
         ∧ drop (s + 5) content = b.
Proof.
  unfold occurs_ci. intros H.
  pose proof (f_equal length H) as Hlen. unfold Py.lower in Hlen.
  rewrite !length_map, length_take, length_drop in Hlen.
  change (length (str "UNION")) with 5%nat in Hlen.
  exists (take 5 (drop s content)), (drop 5 (drop s content)).
  split_and!.
  - by rewrite !take_drop.
  - rewrite length_take. lia.
  - by apply lower_Forall2.
  - by rewrite drop_drop.
Qed.

(** ** The wildcard rule on every text *)

Lemma char_S_facts c : Re.char_eq true "S" c = true → Py.isword c = true.
Proof.
  destruct c as [[] [] [] [] [] [] [] []]; vm_compute; intros;
    first [discriminate|reflexivity].
Qed.

(** What a match of [\bSELECT\s+\*\b] consumes, and what follows it. *)
Lemma match_select_star pre rest e :
  Re.match_here true SQLCostOptimizer.re_select_star pre rest = Some e →
  Re.word_before pre = false
  ∧ ∃ u w ws c r,
      rest = u ++ w :: ws ++ "*"%char :: c :: r
      ∧ Forall2 (λ p x, Re.char_eq true p x = true) (str "SELECT") u
      ∧ Py.isspace w = true
      ∧ Forall (λ x, Py.isspace x = true) ws
      ∧ Py.isword c = true
      ∧ e = (length pre + 8 + length ws)%nat.
Proof.
  unfold Re.match_here, SQLCostOptimizer.re_select_star, SQLCostOptimizer.L,
    SQLCostOptimizer.sp1, Re.Plus.
  cbn [Re.seq Re.run].
  destruct (Re.at_boundary pre rest) eqn:Hb0; [|done].
  intros (u & r1 & -> & Hu & H)%lit_inv.
  destruct r1 as [|w r1]; [done|].
  destruct (Re.in_class Re.CSpace w) eqn:Hw; [|done].
  apply star_inv in H as (ws & r2 & -> & Hws & H).
  apply lit_inv in H as (m3 & r3 & -> & Hm3 & H).
  change (str "*") with ["*"%char] in Hm3.
  apply Forall2_cons_inv_l in Hm3 as (c3 & m3' & Hc3 & Hnil & ->).
  apply Forall2_nil_inv_l in Hnil as ->. apply char_eq_star in Hc3 as ->.
  destruct (Re.at_boundary _ r3) eqn:Hb; [|done].
  injection H as <-.
  unfold Re.at_boundary in Hb. simpl in Hb.
  destruct r3 as [|c r3]; [done|]. simpl in Hb.
  pose proof (Forall2_length _ _ _ Hu) as Hlen.
  change (length (str "SELECT")) with 6%nat in Hlen.
  split.
  - destruct u as [|c0 u]; [done|].
    apply Forall2_cons_inv_r in Hu as (p & ? & Hc0 & _ & Hp).
    change (str "SELECT") with ["S"; "E"; "L"; "E"; "C"; "T"]%char in Hp.
    injection Hp as <- _. apply char_S_facts in Hc0.
    unfold Re.at_boundary in Hb0. simpl in Hb0. rewrite Hc0 in Hb0.
    by destruct (Re.word_before pre).
  - exists u, w, ws, c, r3.
    split_and!; [done|done|exact Hw|exact Hws|done|].
    repeat (rewrite ?length_app, ?length_rev; simpl). lia.
Qed.

(** The pattern of a catalogue entry is found by its key. *)
Lemma catalogue_select_star entry :
  entry ∈ SQLCostOptimizer._initialize_patterns →
  entry.1 = str "select_star" →
  SQLCostOptimizer.pattern entry.2 = SQLCostOptimizer.re_select_star.
Proof.
  unfold SQLCostOptimizer._initialize_patterns. intros H Hk.
  apply elem_of_cons in H as [->|H]; [done|].
  repeat (apply elem_of_cons in H as [->|H];
          [vm_compute in Hk; discriminate Hk|]).
  by apply elem_of_nil in H.
Qed.

(** X19: the wildcard rule of the catalogue reports a [SELECT *] only
    when a word character comes right after the asterisk: every finding
    of type [select_star] is on the line of a [SELECT], in any letter
    case, that begins at a word boundary outside a comment and is
    followed by one or more whitespace characters, then by the asterisk,
    and then at once by a letter, a digit or an underscore.  So a
    [SELECT *] whose asterisk is followed by a blank, a newline or the
    end of the text is never reported. *)
Theorem select_star_finding_needs_word_after_star path content i :
  i ∈ SQLCostOptimizer_spec.findings path content →
  SQLCostOptimizer.issue_type i = str "select_star" →
  ∃ s ws c,
    occurs_ci (str "SELECT") content s
    ∧ Re.word_before (rev (take s content)) = false
    ∧ ws ≠ []
    ∧ Forall (λ x, Py.isspace x = true) ws
    ∧ take (length ws) (drop (s + 6) content) = ws
    ∧ content !! (s + 6 + length ws)%nat = Some "*"%char
    ∧ content !! (s + 7 + length ws)%nat = Some c
    ∧ Py.isword c = true
    ∧ SQLCostOptimizer._is_in_comment content (Z.of_nat s) = false
    ∧ SQLCostOptimizer.line_number i = Py.count (take s content) NL + 1.
Proof.
  intros (entry & s & e & Hentry & Hm & Hcomment & ->)%findings_elem Hty.
  cbn [SQLCostOptimizer_spec.finding SQLCostOptimizer.issue_type
       SQLCostOptimizer.line_number] in *.
  rewrite (catalogue_select_star _ Hentry Hty) in Hm.
  apply finditer_spec in Hm as (a & b & -> & <- & Hm).
  apply match_select_star in Hm
    as (Hpre & u & w & ws & c & r & -> & Hu & Hw & Hws & Hc & _).
  pose proof (Forall2_length _ _ _ Hu) as Hlen.
  change (length (str "SELECT")) with 6%nat in Hlen.
  exists (length a), (w :: ws), c.
  split_and!; [| |done|by constructor| | | |done|done|done].
  - unfold occurs_ci. rewrite drop_app_length.
    change (length (str "SELECT")) with 6%nat.
    rewrite take_app_length' by done. by apply lower_Forall2.
  - by rewrite take_app_length.
  - rewrite app_assoc, drop_app_length' by (rewrite length_app; lia).
    change (w :: ws ++ "*"%char :: c :: r)
      with ((w :: ws) ++ "*"%char :: c :: r).
    by rewrite take_app_length.
  - replace (a ++ u ++ w :: ws ++ "*"%char :: c :: r)
      with ((a ++ u ++ w :: ws) ++ "*"%char :: c :: r)
      by (by rewrite <- !app_assoc).
    apply list_lookup_middle. rewrite !length_app. simpl. lia.
  - replace (a ++ u ++ w :: ws ++ "*"%char :: c :: r)
      with ((a ++ u ++ w :: ws ++ ["*"%char]) ++ c :: r)
      by (rewrite <- !app_assoc; simpl; by rewrite <- !app_assoc).
    apply list_lookup_middle. rewrite !length_app. simpl.
    rewrite length_app. simpl. lia.
Qed.

Lemma select_star_finding_needs_word_after_star_witness :
  let content := str "SELECT *x FROM t" in
  ∃ i, i ∈ SQLCostOptimizer_spec.findings (str "q.sql") content
       ∧ SQLCostOptimizer.issue_type i = str "select_star"
       ∧ ∃ s (ws : text) c,
           occurs_ci (str "SELECT") content s
           ∧ content !! (s + 6 + length ws)%nat = Some "*"%char
           ∧ content !! (s + 7 + length ws)%nat = Some c
           ∧ Py.isword c = true.
Proof.
  intros content.
  assert (∃ i, SQLCostOptimizer_spec.findings (str "q.sql") content = [i]
               ∧ SQLCostOptimizer.issue_type i = str "select_star")
    as (i & Hi & Hty).
  { eexists. split; vm_compute; reflexivity. }
  assert (i ∈ SQLCostOptimizer_spec.findings (str "q.sql") content) as Hin.
  { rewrite Hi. left. }
  exists i. split_and!; [exact Hin|exact Hty|].
  destruct (select_star_finding_needs_word_after_star (str "q.sql") content
              i Hin Hty)
    as (s & ws & c & H1 & _ & _ & _ & _ & H2 & H3 & H4 & _).
  exists s, ws, c. split_and!; assumption.
Defined.

(** Where the pattern of the rule matches. *)
Lemma union_match_sound content s e :
  (s, e) ∈ Re.finditer true SQLCostOptimizer.re_union_instead_union_all
             content →
  bare_union content s.
Proof.
  intros Hm.
  apply finditer_spec in Hm as (a & b & -> & <- & Hm).
  apply match_union_inv in Hm
    as (Hpre & u & w & ws & r & -> & Hu & Hw & Hws & _ & Hall).
  pose proof (Forall2_length _ _ _ Hu) as Hlen.
  change (length (str "UNION")) with 5%nat in Hlen.
  assert (drop (length a + 5) (a ++ u ++ w :: ws ++ r) = w :: ws ++ r)
    as Hdrop.
  { rewrite app_assoc. apply drop_app_length'. rewrite length_app. lia. }
  split_and!.
  - unfold occurs_ci. rewrite drop_app_length.
    change (length (str "UNION")) with 5%nat.
    rewrite take_app_length' by done. by apply lower_Forall2.
  - by rewrite take_app_length.
  - exists w. split; [|done].
    rewrite app_assoc. apply list_lookup_middle. rewrite length_app. lia.
  - intros (w' & al & r' & Hd & _ & Hal & Hr'). rewrite Hdrop in Hd.
    injection Hd as _ Hd. destruct ws as [|x ws]; simpl in Hd.
    + assert (is_Some (Re.run true
                (Re.Seq (SQLCostOptimizer.L "ALL") Re.WordB)
                (rev [] ++ w :: rev u ++ rev a) r Re.found)) as [? Hsome].
      { apply all_word_run. by exists al, r'. }
      congruence.
    + apply lower_Forall2 in Hal.
      change (str "ALL") with ["A"; "L"; "L"]%char in Hal.
      apply Forall2_cons_inv_l in Hal as (a1 & ? & H1 & _ & ->).
      injection Hd as <- _. apply char_A_facts in H1.
      apply Forall_cons in Hws as [Hx _]. congruence.
Qed.

Lemma union_match_complete content s :
  bare_union content s →
  ∃ e, (s, e) ∈ Re.finditer true
                  SQLCostOptimizer.re_union_instead_union_all content.
Proof.
  intros (Hocc & Hpre & (w & Hw & Hsp) & Hall).
  destruct (union_at content s Hocc) as (u & b & Hcontent & Hlen & Hu & Hb).
  rewrite (drop_S _ _ _ Hw) in Hb. subst b.
  set (a := take s content) in *.
  set (rest := drop (S (s + 5)) content) in *.
  assert (Re.run true (Re.Seq (SQLCostOptimizer.L "ALL") Re.WordB)
            (w :: rev u ++ rev a) rest Re.found = None) as Hrun.
  { destruct (Re.run true _ _ _ _) as [e|] eqn:E; [|done].
    destruct Hall.
    assert (is_Some (Re.run true
              (Re.Seq (SQLCostOptimizer.L "ALL") Re.WordB)
              (w :: rev u ++ rev a) rest Re.found)) as Hsome by eauto.
    apply all_word_run in Hsome as (al & r' & Hrest & Hal & Hr').
    exists w, al, r'. split_and!; [|done..].
    rewrite (drop_S _ _ _ Hw). fold rest. by rewrite Hrest. }
  destruct (match_union_intro (rev a) u w rest Hpre Hu Hsp Hrun)
    as [e He].
  exists e. unfold Re.finditer. rewrite Hcontent.
  replace s with (length (@nil ascii) + length a)%nat at 1
    by (simpl; lia).
  apply scan_from_hit; [by rewrite app_nil_r|lia|].
  intros a1 a2 e' Ha _ Ha2 Hm. rewrite app_nil_r in Hm.
  destruct u as [|c0 u]; [by apply Forall2_nil_inv_r in Hu|].
  apply Forall2_cons_inv_r in Hu as (p & ? & Hc & _ & Hp).
  change (str "UNION") with ["U"; "N"; "I"; "O"; "N"]%char in Hp.
  injection Hp as <- _.
  apply match_union_free in Hm; [|done..].
  rewrite length_rev in Hm. rewrite Ha, length_app. simpl. lia.
Qed.

(** The findings of the rule are its matches outside comments. *)
Lemma union_finding_elem path content i :
  i ∈ SQLCostOptimizer_spec.findings path content →
  SQLCostOptimizer.issue_type i = str "union_instead_union_all" →
  ∃ s e,
    (s, e) ∈ Re.finditer true SQLCostOptimizer.re_union_instead_union_all
               content
    ∧ SQLCostOptimizer._is_in_comment content (Z.of_nat s) = false
    ∧ SQLCostOptimizer.line_number i = Py.count (take s content) NL + 1
    ∧ SQLCostOptimizer.severity i = SQLCostOptimizer.MEDIUM.
Proof.
  intros (entry & s & e & Hentry & Hm & Hcomment & ->)%findings_elem Hty.
  cbn [SQLCostOptimizer_spec.finding SQLCostOptimizer.issue_type
       SQLCostOptimizer.line_number SQLCostOptimizer.severity] in *.
  rewrite (catalogue_union _ Hentry Hty) in Hm.
  exists s, e. split_and!; [done..|].
  unfold SQLCostOptimizer._initialize_patterns in Hentry.
  repeat (apply elem_of_cons in Hentry as [->|Hentry];
          [first [reflexivity|vm_compute in Hty; discriminate Hty]|]).
  by apply elem_of_nil in Hentry.
Qed.

Lemma union_finding_intro path content s e :
  (s, e) ∈ Re.finditer true SQLCostOptimizer.re_union_instead_union_all
             content →
  SQLCostOptimizer._is_in_comment content (Z.of_nat s) = false →
  ∃ i, i ∈ SQLCostOptimizer_spec.findings path content
       ∧ SQLCostOptimizer.issue_type i = str "union_instead_union_all"
       ∧ SQLCostOptimizer.severity i = SQLCostOptimizer.MEDIUM
       ∧ SQLCostOptimizer.line_number i = Py.count (take s content) NL + 1.
Proof.
  intros Hm Hcomment.
  destruct catalogue_has_union as (entry & Hentry & Hkey & Hpat & Hsev).
  exists (SQLCostOptimizer_spec.finding path content entry s).
  split_and!; [|done..].
  unfold SQLCostOptimizer_spec.findings. apply list_elem_of_bind.
  exists entry. split; [|done].
  unfold SQLCostOptimizer_spec.findings_of, SQLCostOptimizer_spec.kept.
  apply list_elem_of_fmap_2, list_elem_of_filter. split; [done|].
  rewrite Hpat. apply list_elem_of_fmap. by exists (s, e).
Qed.

(** X20: a finding of the catalogue's [UNION] rule stands at a [UNION], in
    any letter case, that begins at a word boundary outside a comment and
    has a whitespace character after it, and the text after the [UNION] is
    not one whitespace character and then the word [ALL]: a [UNION ALL]
    written with one blank is never reported. *)
Theorem union_finding_is_not_union_all path content i :
  i ∈ SQLCostOptimizer_spec.findings path content →
  SQLCostOptimizer.issue_type i = str "union_instead_union_all" →
  ∃ s w,
    occurs_ci (str "UNION") content s
    ∧ Re.word_before (rev (take s content)) = false
    ∧ content !! (s + 5)%nat = Some w ∧ Py.isspace w = true
    ∧ ¬ all_follows content (s + 5)
    ∧ SQLCostOptimizer._is_in_comment content (Z.of_nat s) = false
    ∧ SQLCostOptimizer.line_number i = Py.count (take s content) NL + 1.
Proof.
  intros Hi Hty.
  destruct (union_finding_elem path content i Hi Hty)
    as (s & e & Hm & Hcomment & Hline & _).
  destruct (union_match_sound content s e Hm)
    as (Hocc & Hpre & (w & Hw & Hsp) & Hall).
  exists s, w. by split_and!.
Qed.

Lemma union_finding_is_not_union_all_witness :
  let content := str "SELECT 1" ++ [NL] ++ str "UNION SELECT 2" ++ [NL] in
  ∃ i, i ∈ SQLCostOptimizer_spec.findings (str "q.sql") content
       ∧ SQLCostOptimizer.issue_type i = str "union_instead_union_all"
       ∧ ∃ s, occurs_ci (str "UNION") content s
              ∧ ¬ all_follows content (s + 5).
Proof.
  intros content.
  assert (∃ i, SQLCostOptimizer_spec.findings (str "q.sql") content = [i]
               ∧ SQLCostOptimizer.issue_type i
                 = str "union_instead_union_all") as (i & Hi & Hty).
  { eexists. split; vm_compute; reflexivity. }
  assert (i ∈ SQLCostOptimizer_spec.findings (str "q.sql") content) as Hin.
  { rewrite Hi. left. }
  exists i. split_and!; [exact Hin|exact Hty|].
  destruct (union_finding_is_not_union_all (str "q.sql") content i Hin Hty)
    as (s & w & H1 & _ & _ & _ & H2 & _).
  exists s. split; assumption.
Defined.

(** X21: the catalogue's [UNION] rule reports every [UNION] that begins
    at a word boundary outside a comment and has a whitespace character
    after it, unless the word [ALL] comes right after that one character.
    The lookahead is tried again after fewer whitespace characters, so a
    [UNION] with two or more of them before [ALL] is reported. *)
Theorem union_is_reported_unless_all_follows path content s w :
  occurs_ci (str "UNION") content s →
  Re.word_before (rev (take s content)) = false →
  content !! (s + 5)%nat = Some w → Py.isspace w = true →
  ¬ all_follows content (s + 5) →
  SQLCostOptimizer._is_in_comment content (Z.of_nat s) = false →
  ∃ i, i ∈ SQLCostOptimizer_spec.findings path content
       ∧ SQLCostOptimizer.issue_type i = str "union_instead_union_all"
       ∧ SQLCostOptimizer.severity i = SQLCostOptimizer.MEDIUM
       ∧ SQLCostOptimizer.line_number i = Py.count (take s content) NL + 1.
Proof.
  intros Hocc Hpre Hw Hsp Hall Hcomment.
  destruct (union_match_complete content s) as [e Hm].
  { split_and!; [done|done| |done]. by exists w. }
  by apply (union_finding_intro path content s e).
Qed.

Lemma union_is_reported_unless_all_follows_witness :
  let content := str "SELECT 1 UNION  ALL SELECT 2" in
  ∃ i, i ∈ SQLCostOptimizer_spec.findings (str "q.sql") content
       ∧ SQLCostOptimizer.issue_type i = str "union_instead_union_all"
       ∧ SQLCostOptimizer.line_number i = 1.
Proof.
  intros content.
  destruct (union_is_reported_unless_all_follows (str "q.sql") content
              9%nat " "%char) as (i & Hin & Hty & _ & Hline).
  - vm_compute. reflexivity.
  - vm_compute. reflexivity.
  - vm_compute. reflexivity.
  - vm_compute. reflexivity.
  - intros (w' & al & r' & Hd & _ & Hal & _).
    vm_compute in Hd. injection Hd as _ Hd.
    destruct al as [|a1 al]; [discriminate Hal|].
    simpl in Hd. injection Hd as <- _. vm_compute in Hal. discriminate Hal.
  - vm_compute. reflexivity.
  - exists i. split_and!; [exact Hin|exact Hty|].
    rewrite Hline. vm_compute. reflexivity.
Defined.

(** ** The [UNION] test of [check_file] *)


Section union_upper.

Import Re SqlOptimizer.









End union_upper.



(** ** The substitutions of [fix_single_file] *)

Section matcher_order.

Import Re.

Context (icase : bool).

(** A match ends at or after the position where it starts. *)
Lemma run_ge r pre rest k e n :
  (∀ p q e', (n ≤ length p)%nat → k p q = Some e' → (n ≤ e')%nat) →
  (n ≤ length pre)%nat → run icase r pre rest k = Some e → (n ≤ e)%nat.
Proof.
  revert pre rest k e.
  induction r as [|s|cl|cl| | |r1 IH1 r2 IH2|r1 IH1 r2 IH2|r IH|r IH];
    intros pre rest k e Hk Hpre; simpl.
  - by apply Hk.
  - intros (m & q & -> & _ & H)%lit_inv. apply Hk in H; [done|].
    rewrite length_app. lia.
  - destruct rest as [|c rest]; [done|]. destruct (in_class cl c); [|done].
    apply Hk. simpl. lia.
  - intros (m & q & -> & _ & H)%star_inv. apply Hk in H; [done|].
    rewrite length_app. lia.
  - destruct (at_boundary pre rest); [by apply Hk|done].
  - destruct (at_end rest); [by apply Hk|done].
  - apply IH1; [|done]. intros p q e' Hp. by apply IH2.
  - destruct (run icase r1 pre rest k) eqn:E.
    + intros [= <-]. by eapply IH1.
    + by apply IH2.
  - destruct (run icase r pre rest found); [by apply Hk|done].
  - destruct (run icase r pre rest found); [done|by apply Hk].
Qed.

Lemma match_here_ge r pre rest e :
  match_here icase r pre rest = Some e → (length pre ≤ e)%nat.
Proof.
  apply run_ge; [|done]. unfold found. intros p q e' Hp [= <-]. done.
Qed.

(** [re.sub] calls its replacement on the matched texts only. *)
Lemma sub_from_ext r (repl repl' : text → text) content rest :
  ∀ pre skip pos,
    content = rev pre ++ rest →
    (pos ≤ length pre + skip)%nat →
    (∀ a b, (a, b) ∈ scan_from icase r pre rest skip →
       repl (take (b - a) (drop a content))
       = repl' (take (b - a) (drop a content))) →
    sub_from repl (scan_from icase r pre rest skip) (drop pos content) pos
    = sub_from repl' (scan_from icase r pre rest skip) (drop pos content) pos.
Proof.
  induction rest as [|c rest IH]; intros pre skip pos Hcontent Hpos Hext.
  - destruct skip; simpl in *; [|done].
    destruct (match_here icase r pre []) as [e|] eqn:E; [|done].
    simpl. rewrite drop_drop.
    replace (pos + (length pre - pos))%nat with (length pre) by lia.
    rewrite (Hext (length pre) e) by left. done.
  - assert (content = rev (c :: pre) ++ rest) as Hcontent'.
    { simpl. by rewrite <- app_assoc. }
    destruct skip as [|n]; simpl in *.
    + destruct (match_here icase r pre (c :: rest)) as [e|] eqn:E.
      * pose proof (match_here_ge _ _ _ _ E) as Hge.
        simpl. rewrite !drop_drop.
        replace (pos + (length pre - pos))%nat with (length pre) by lia.
        replace (pos + (e - pos))%nat with e by lia.
        rewrite (Hext (length pre) e) by left. do 2 f_equal.
        apply IH; [done|simpl; lia|].
        intros a b Hab. apply Hext. by right.
      * apply IH; [done|simpl; lia|done].
    + apply IH; [done|simpl; lia|done].
Qed.

Lemma sub_ext r (repl repl' : text → text) content :
  (∀ a b, (a, b) ∈ finditer icase r content →
     repl (take (b - a) (drop a content))
     = repl' (take (b - a) (drop a content))) →
  sub icase r repl content = sub icase r repl' content.
Proof.
  intros H. unfold sub, finditer.
  pose proof (sub_from_ext r repl repl' content content [] 0 0 eq_refl
                ltac:(simpl; lia) H) as E.
  by rewrite drop_0 in E.
Qed.

End matcher_order.

Section order_rule.

Import Re SqlOptimizer.

Lemma char_eq_semicolon c : char_eq true ";" c = true → c = ";"%char.
Proof.
  destruct c as [[] [] [] [] [] [] [] []]; vm_compute; intros;
    first [reflexivity|discriminate].
Qed.

Lemma semicolon_lower m : ";"%char ∈ m → ";"%char ∈ Py.lower m.
Proof.
  intros H. unfold Py.lower.
  change ";"%char with (Py.lower_char ";") at 1.
  apply list_elem_of_In, in_map, list_elem_of_In, H.
Qed.

Lemma semicolon_not_space m :
  Forall (λ c, in_class CSpace c = true) m → ";"%char ∉ m.
Proof.
  intros H Hin. rewrite Forall_forall in H. specialize (H _ Hin).
  vm_compute in H. discriminate H.
Qed.

Lemma contains_semicolon m :
  ";"%char ∉ m → Py.contains m (str ";") = false.
Proof.
  intros H. unfold Py.contains.
  destruct (Py.find_from _ m 0) as [j|] eqn:E; [|done].
  apply find_from_Some in E as (_ & Hocc & _).
  change (str ";") with [";"%char] in Hocc. apply occurs_one in Hocc.
  destruct H. by eapply list_elem_of_lookup_2.
Qed.

(** What a match of [ORDER\s+BY\s+[^;]*(?=;|\s*$)] consumes, and where
    it ends. *)
Lemma match_fix_order_inv pre rest e :
  match_here true re_fix_order pre rest = Some e →
  ∃ m r, rest = m ++ r ∧ e = (length pre + length m)%nat
         ∧ (";"%char ∉ m)
         ∧ (head r = Some ";"%char ∨ Forall (λ c, Py.isspace c = true) r).
Proof.
  unfold match_here, re_fix_order, Plus. cbn [seq]. cbn [run].
  intros (m1 & r1 & -> & Hm1 & H)%lit_inv.
  destruct r1 as [|w1 r1]; [done|].
  destruct (in_class CSpace w1) eqn:Hw1; [|done].
  apply star_inv in H as (m2 & r2 & -> & Hm2 & H).
  apply lit_inv in H as (m3 & r3 & -> & Hm3 & H).
  destruct r3 as [|w2 r3]; [done|].
  destruct (in_class CSpace w2) eqn:Hw2; [|done].
  apply star_inv in H as (m4 & r4 & -> & Hm4 & H).
  apply star_inv in H as (m5 & r & -> & Hm5 & H).
  exists (m1 ++ w1 :: m2 ++ m3 ++ w2 :: m4 ++ m5), r. split_and!.
  - by rewrite <- !app_assoc; simpl;
      rewrite <- !app_assoc; simpl; rewrite <- !app_assoc.
  - destruct (match lit true _ _ _ _ with Some _ => _ | None => _ end);
      [|done].
    injection H as <-.
    repeat (rewrite ?length_app, ?length_rev; simpl). lia.
  - apply lower_Forall2 in Hm1, Hm3.
    rewrite !elem_of_app, !elem_of_cons, !elem_of_app, !elem_of_cons,
      elem_of_app.
    intros [Hin|[Heq|[Hin|[Hin|[Heq|[Hin|Hin]]]]]].
    + apply semicolon_lower in Hin. rewrite Hm1 in Hin.
      vm_compute in Hin.
      repeat (apply elem_of_cons in Hin as [Hin|Hin]; [discriminate Hin|]).
      by apply elem_of_nil in Hin.
    + subst w1. vm_compute in Hw1. discriminate Hw1.
    + by apply semicolon_not_space in Hin.
    + apply semicolon_lower in Hin. rewrite Hm3 in Hin.
      vm_compute in Hin.
      repeat (apply elem_of_cons in Hin as [Hin|Hin]; [discriminate Hin|]).
      by apply elem_of_nil in Hin.
    + subst w2. vm_compute in Hw2. discriminate Hw2.
    + by apply semicolon_not_space in Hin.
    + rewrite Forall_forall in Hm5. specialize (Hm5 _ Hin).
      vm_compute in Hm5. discriminate Hm5.
  - destruct (lit true (str ";") _ r _) as [e1|] eqn:E1.
    + left. apply lit_inv in E1 as (m6 & r6 & -> & Hm6 & _).
      change (str ";") with [";"%char] in Hm6.
      apply Forall2_cons_inv_l in Hm6 as (c & ? & Hc & _ & ->).
      apply char_eq_semicolon in Hc as ->. done.
    + right. destruct (star CSpace _ r _) as [e2|] eqn:E2; [|done].
      apply star_inv in E2 as (ws & r7 & -> & Hws & Hend).
      apply Forall_app. split; [exact Hws|].
      destruct (at_end r7) eqn:Hr7; [|done].
      destruct r7 as [|c [|? ?]]; [constructor| |done].
      simpl in Hr7. apply ascii_eqb_true in Hr7 as ->.
      by repeat constructor.
Qed.

End order_rule.

(** X22: every text that the third substitution of [fix_single_file]
    matches is free of semicolons, and it ends right before a semicolon or
    where only whitespace is left, so [add_limit_to_order] always takes
    its second branch: the limit is put before the first semicolon after
    [ORDER BY], or at the end of the text when there is none. *)
Theorem order_match_ends_before_semicolon content s e :
  (s, e) ∈ Re.finditer true SqlOptimizer.re_fix_order content →
  (";"%char ∉ take (e - s) (drop s content))
  ∧ SqlOptimizer.add_limit_to_order (take (e - s) (drop s content))
    = take (e - s) (drop s content) ++ str " LIMIT 1000"
  ∧ (content !! e = Some ";"%char
     ∨ Forall (λ c, Py.isspace c = true) (drop e content)).
Proof.
  intros (a & b & -> & <- & Hm)%finditer_spec.
  apply match_fix_order_inv in Hm as (m & r & -> & -> & Hm & Hend).
  rewrite length_rev.
  replace (length a + length m - length a)%nat with (length m) by lia.
  rewrite drop_app_length, take_app_length.
  split_and!; [done| |].
  - unfold SqlOptimizer.add_limit_to_order.
    by rewrite (contains_semicolon _ Hm).
  - rewrite app_assoc.
    destruct Hend as [Hh|Hws]; [left|right].
    + destruct r as [|c r]; [done|]. injection Hh as ->.
      apply list_lookup_middle. by rewrite length_app.
    + rewrite drop_app_length'; [done|by rewrite length_app].
Qed.

Lemma order_match_ends_before_semicolon_witness :
  let content := str "SELECT a FROM t ORDER BY a; SELECT 2;" in
  (16, 26)%nat ∈ Re.finditer true SqlOptimizer.re_fix_order content
  ∧ SqlOptimizer.add_limit_to_order (str "ORDER BY a")
    = str "ORDER BY a LIMIT 1000"
  ∧ content !! 26%nat = Some ";"%char.
Proof.
  intros content.
  assert ((16, 26)%nat ∈ Re.finditer true SqlOptimizer.re_fix_order content)
    as Hin.
  { vm_compute. left. }
  destruct (order_match_ends_before_semicolon content 16 26 Hin)
    as (_ & Hadd & _).
  split_and!; [exact Hin|exact Hadd|reflexivity].
Defined.

(** X23: the branch of [add_limit_to_order] that rewrites a semicolon is
    dead code: on every text, the third substitution of [fix_single_file]
    is the substitution that appends the limit to each match. *)
Theorem add_limit_always_appends content :
  Re.sub true SqlOptimizer.re_fix_order SqlOptimizer.add_limit_to_order
    content
  = Re.sub true SqlOptimizer.re_fix_order (λ m, m ++ str " LIMIT 1000")
      content.
Proof.
  apply sub_ext. intros a b Hab.
  apply finditer_spec in Hab as (x & y & -> & <- & Hm).
  apply match_fix_order_inv in Hm as (m & r & -> & -> & Hm & _).
  rewrite length_rev.
  replace (length x + length m - length x)%nat with (length m) by lia.
  rewrite drop_app_length, take_app_length.
  unfold SqlOptimizer.add_limit_to_order.
  by rewrite (contains_semicolon _ Hm).
Qed.

(** ** Positions outside comments *)

(** X24: [_is_in_comment] answers no for a position inside the text when
    every [--] before it is on an earlier line, and every block-comment
    opener before it has a closer that starts at or before the position:
    a match there is kept. *)
Theorem position_outside_comments content pos :
  (pos < length content)%nat →
  (∀ i, (i < pos)%nat → occurs (str "--") content i →
        ∃ j, (i ≤ j < pos)%nat ∧ content !! j = Some NL) →
  (∀ o, (o + 2 ≤ pos)%nat → occurs (str "/*") content o →
        ∃ c, (o ≤ c ≤ pos)%nat ∧ occurs (str "*/") content c) →
  SQLCostOptimizer._is_in_comment content (Z.of_nat pos) = false.
Proof.
  intros Hpos Hline Hblock. unfold SQLCostOptimizer._is_in_comment.
  assert (∃ ls, Py.rfind content [NL] (Z.of_nat pos) + 1 = Z.of_nat ls
                ∧ (ls ≤ pos)%nat
                ∧ ∀ k, (ls ≤ k < pos)%nat → content !! k ≠ Some NL)
    as (ls & -> & Hls & Hnonl).
  { destruct (rfind_spec content [NL] pos)
      as [[-> Hnone]|(j & -> & Hj & _ & Hlast)]; [done|lia| |].
    - exists 0%nat. split_and!; [done|lia|].
      intros k Hk Hnl. apply occurs_one in Hnl.
      destruct (Hnone k); [simpl; lia|done].
    - simpl in Hj. exists (S j). split_and!; [lia|lia|].
      intros k Hk Hnl. apply occurs_one in Hnl.
      destruct (Hlast k); [lia|simpl; lia|done]. }
  destruct (slice_line content ls pos (Py.find content [NL] (Z.of_nat pos)))
    as (n & Hn & ->); [lia|done| |].
  { destruct (find_spec content [NL] pos) as [[-> _]|(j & -> & Hj & Hoj & _)];
      [lia|by left|].
    right. exists j. split; [done|]. split; [done|].
    apply occurs_bound in Hoj; [simpl in Hoj; lia|done]. }
  set (lc := take n (drop ls content)).
  assert (Py.contains lc (str "--")
          && (Py.find lc (str "--") 0 <? Z.of_nat pos - Z.of_nat ls)
          = false) as ->.
  { apply andb_false_iff.
    destruct (Py.contains lc (str "--")) eqn:Hc; [right|by left].
    destruct (find_spec lc (str "--") 0)
      as [[_ Hnone]|(j & Hfind & _ & Hoj & _)]; [lia| |].
    - exfalso. unfold Py.contains in Hc.
      destruct (Py.find_from (str "--") lc 0) as [j|] eqn:E; [|done].
      apply find_from_Some in E as (_ & Hocc & _).
      destruct (Hnone (j - 0)%nat); [lia|done].
    - change (Z.of_nat 0) with 0 in Hfind. rewrite Hfind.
      apply Z.ltb_ge.
      destruct (decide (j < pos - ls)%nat) as [Hlt|]; [|lia].
      exfalso. apply occurs_take in Hoj as [Hoj _]; [|done].
      apply occurs_drop in Hoj.
      destruct (Hline (ls + j)%nat) as (k & Hk & Hnl); [lia|done|].
      destruct (Hnonl k); [lia|done]. }
  destruct (rfind_spec content (str "/*") pos)
    as [[-> _]|(o & -> & Ho & Hoo & _)]; [done|lia|done|].
  simpl in Ho.
  rewrite (proj2 (Z.eqb_neq _ _)) by lia. cbn [negb andb].
  destruct (Hblock o Ho Hoo) as (c & Hc & Hoc).
  destruct (find_spec content (str "*/") o)
    as [[_ Hnone]|(e & -> & He & _ & Hfirst)]; [lia| |].
  { by destruct (Hnone c); [lia|]. }
  rewrite (proj2 (Z.eqb_neq _ _)) by lia. cbn [orb].
  destruct (Z.ltb_spec (Z.of_nat pos) (Z.of_nat e)); [|done].
  destruct (Hfirst c); [lia|done].
Qed.

Lemma position_outside_comments_witness :
  let content := str "-- a" ++ [NL] ++ str "/* b */ SELECT 1 UNION SELECT 2" in
  SQLCostOptimizer._is_in_comment content 22 = false.
Proof.
  intros content.
  apply (position_outside_comments content 22).
  - vm_compute. lia.
  - intros i Hi Hocc. exists 4%nat.
    do 22 (destruct i as [|i];
           [first [vm_compute in Hocc; discriminate Hocc
                  |split; [lia|reflexivity]]|]).
    lia.
  - intros o Ho Hocc. exists 10%nat.
    do 21 (destruct o as [|o];
           [first [vm_compute in Hocc; discriminate Hocc
                  |split; [lia|vm_compute; reflexivity]]|]).
    lia.
Defined.
